(** * Skill matching engine: scoring, gap analysis, alignment, batch recompute

    A shallow embedding of the matching services of the repository

      - [src/apps/api/src/utils/skill_filters.py]
      - [src/apps/api/src/services/job_matching.py]
      - [src/apps/api/src/services/tfidf_matching.py]
      - [src/apps/api/src/services/skill_alignment_service.py]
      - [src/apps/api/src/services/match_scheduler.py]
      - [src/apps/api/src/routers/matching.py] (two endpoints)

    with the properties C1 to C10 of its specification and further
    properties X1 to X25 of the same code.

    Conventions of the embedding.

    - A Python [float] is an exact rational ([Q]); equalities between
      computed weights are stated with [==].  Rounding is not modelled,
      except where a rounded result is compared with the numbers it was
      computed from: the average of [get_matching_stats] is computed in a
      float arithmetic that is a parameter ([Py.FloatArith]).
    - A [dict] is a [gmap], a [set] a [gset]; [list(set)] is [elements].
      The order in which Python walks a set is not specified; sums and
      counts do not depend on it.
    - A [str] is a [string] of ASCII characters ([lower], [strip] act on
      ASCII letters and ASCII white space).
    - A nullable column is an [option]; a [limit] is a natural number.
    - The rows a function reads from the database are its arguments.  The
      calls into scikit-learn ([cosine_similarity], the TF-IDF vectorizer)
      are parameters: what they answer is a float of the library, which
      is not assumed to be the exact cosine.
    - The database session is an explicit state (the committed tables and
      the tables as the open transaction sees them); which statements raise
      is fixed by a fault plan, and a computation on the session returns a
      value or an exception ([outcome]).  Time stamps and log lines are left
      out. *)

From Stdlib Require Import QArith Qminmax Qround Lqa Lia ZArith.
From Stdlib Require Import Ascii String List Sorted Permutation.
From stdpp Require Import gmap strings list fin_maps fin_sets sorting.

Local Open Scope string_scope.
Local Open Scope Q_scope.

(** ** Python strings *)

Module PyStr.

Definition lower_ascii (c : ascii) : ascii :=
  let n := nat_of_ascii c in
  if ((65 <=? n) && (n <=? 90))%nat then ascii_of_nat (n + 32) else c.

Fixpoint lower (s : string) : string :=
  match s with
  | EmptyString => EmptyString
  | String c s' => String (lower_ascii c) (lower s')
  end.

(** [str.isspace] on one ASCII character. *)
Definition is_space (c : ascii) : bool :=
  let n := nat_of_ascii c in
  (((9 <=? n) && (n <=? 13)) || ((28 <=? n) && (n <=? 32)))%nat.

Fixpoint lstrip (s : string) : string :=
  match s with
  | EmptyString => EmptyString
  | String c s' => if is_space c then lstrip s' else s
  end.

Fixpoint rstrip (s : string) : string :=
  match s with
  | EmptyString => EmptyString
  | String c s' =>
      match rstrip s' with
      | EmptyString => if is_space c then EmptyString else String c EmptyString
      | r => String c r
      end
  end.

Definition strip (s : string) : string := rstrip (lstrip s).

Fixpoint startswith (p s : string) : bool :=
  match p, s with
  | EmptyString, _ => true
  | String a p', String b s' => Ascii.eqb a b && startswith p' s'
  | String _ _, EmptyString => false
  end.

(** [sub in s] *)
Fixpoint contains (sub s : string) : bool :=
  startswith sub s ||
  match s with
  | EmptyString => false
  | String _ s' => contains sub s'
  end.

(** [s.replace(old, new)] for a non-empty [old]: left to right, without
    overlap.  [skip] counts the characters of a match still to drop. *)
Fixpoint replace_from (skip : nat) (old new s : string) : string :=
  match s with
  | EmptyString => EmptyString
  | String c s' =>
      match skip with
      | S k => replace_from k old new s'
      | O =>
          if startswith old s
          then new ++ replace_from (String.length old - 1) old new s'
          else String c (replace_from 0 old new s')
      end
  end.

Definition replace (old new s : string) : string :=
  match old with
  | EmptyString => s
  | _ => replace_from 0 old new s
  end.

(** [len(s.split())]: the number of maximal runs of non-space characters. *)
Fixpoint count_words_from (in_word : bool) (s : string) : nat :=
  match s with
  | EmptyString => 0
  | String c s' =>
      if is_space c then count_words_from false s'
      else if in_word then count_words_from true s'
           else S (count_words_from true s')
  end.

Definition count_words (s : string) : nat := count_words_from false s.

(** [s in {...}] for a set literal of strings. *)
Definition mem (s : string) (l : list string) : bool :=
  existsb (String.eqb s) l.

(** [" ".join(l)] *)
Fixpoint join (sep : string) (l : list string) : string :=
  match l with
  | [] => EmptyString
  | [x] => x
  | x :: l' => x ++ sep ++ join sep l'
  end.

End PyStr.

(** ** [utils/skill_filters.py] *)

Module SkillFilters.
Import PyStr.

Definition meaningless_skills : list string :=
  ["los"; "com"; "act"; "inc"; "ltd"; "llc"; "corp"; "co"; "org"; "www";
   "http"; "https"].

Definition partial_phrases_and_common_words : list string :=
  ["adding"; "using"; "working"; "developing"; "creating"; "building"; "making";
   "managing"; "leading"; "supporting"; "helping"; "solving"; "planning";
   "organizing"; "coordinating"; "monitoring"; "tracking"; "reporting";
   "writing"; "reading"; "speaking"; "listening"; "thinking"; "learning";
   "teaching"; "training"; "studying"; "researching"; "analyzing"; "testing";
   "reviewing"; "evaluating"; "assessing"; "improving"; "updating"; "maintaining";
   "session"; "sessions"; "meeting"; "meetings"; "conference"; "workshop";
   "locks"; "lock"; "key"; "keys"; "door"; "doors"; "window"; "windows";
   "the"; "and"; "or"; "but"; "with"; "for"; "from"; "about"; "into"; "through";
   "during"; "before"; "after"; "above"; "below"; "between"; "among"; "across";
   "all"; "some"; "many"; "few"; "more"; "most"; "less"; "much"; "very"; "too";
   "so"; "just"; "only"; "also"; "even"; "still"; "already"; "yet"; "now"; "then"].

Definition invalid_terms : list string :=
  ["job description"; "job"; "description"; "position"; "role";
   "opportunity"; "candidate"; "resume"; "apply"; "hiring";
   "employment"; "work"; "company"; "team"; "department";
   "requirements"; "qualifications"; "responsibilities";
   "benefits"; "salary"; "location"; "remote"; "onsite";
   "full-time"; "part-time"; "contract"; "temporary";
   "entry level"; "senior"; "junior"; "manager"; "director";
   "schedule job"; "job posting"; "job board"; "career";
   "schedule"; "posting"; "board"; "opening"; "vacancy"].

Definition medical_conditions : list string :=
  ["cancer"; "diabetes"; "heart disease"; "stroke"; "alzheimer"; "dementia";
   "arthritis"; "asthma"; "pneumonia"; "bronchitis"; "infection"; "virus";
   "bacteria"; "disease"; "illness"; "syndrome"; "disorder"; "condition";
   "symptom"; "treatment"; "therapy"; "medication"; "drug"; "medicine";
   "surgery"; "operation"; "procedure"; "diagnosis"; "prognosis";
   "breast cancer"; "lung cancer"; "skin cancer"; "prostate cancer";
   "bladder cancer"; "liver cancer"; "kidney cancer"; "brain cancer"].

Definition problematic_patterns : list string :=
  ["mathematics computer"; "support browsers"; "support developed";
   "computers mathematics"; "browsers support"].

Definition valid_support_skills : list string :=
  ["support vector machines"; "support engineering"; "support documentation";
   "support systems"; "support services"; "support operations"].

Definition generic_noise_skills : list string :=
  ["innovation"; "creativity"; "san"; "communication"; "teamwork";
   "problem solving"; "leadership"; "time management"; "organization";
   "attention to detail"; "multitasking"; "flexibility"; "adaptability";
   "customer service"; "sales"; "operations"; "planning"; "finance";
   "teaching"; "training"; "education"; "learning"; "development";
   "research"; "analysis"; "evaluation"; "assessment"; "review";
   "support"; "assistance"; "help"; "service"; "quality"; "improvement";
   "management"; "administration"; "coordination"; "supervision";
   "monitoring"; "tracking"; "reporting"; "documentation"; "compliance";
   "policy"; "procedure"; "process"; "workflow"; "standard"; "guideline";
   "requirement"; "specification"; "criteria"; "objective"; "goal";
   "strategy"; "plan"; "approach"; "method"; "technique"; "tool";
   "resource"; "material"; "equipment"; "facility"; "environment";
   "culture"; "value"; "principle"; "ethic"; "integrity"; "honesty"].

Definition standalone_gerunds : list string :=
  ["adding"; "using"; "working"; "developing"; "creating"; "building"; "making";
   "managing"; "leading"; "supporting"; "helping"; "solving"; "planning";
   "organizing"; "coordinating"; "monitoring"; "tracking"; "reporting";
   "writing"; "reading"; "speaking"; "listening"; "thinking"; "learning";
   "teaching"; "training"; "studying"; "researching"; "analyzing"; "testing"].

(** Each [if ...: return False] of the source, in the source's order. *)
Definition is_valid_skill (skill_name : string) : bool :=
  let skill_lower := strip (lower skill_name) in
  if (String.length skill_lower <=? 2)%nat then false
  else if mem skill_lower meaningless_skills then false
  else if mem skill_lower invalid_terms then false
  else if mem skill_lower partial_phrases_and_common_words then false
  else if mem skill_lower medical_conditions then false
  else if mem skill_lower problematic_patterns then false
  else if startswith "support " skill_lower
          && (count_words skill_lower =? 2)%nat
          && negb (mem skill_lower valid_support_skills) then false
  else if mem skill_lower generic_noise_skills then false
  else if mem skill_lower standalone_gerunds then false
  else true.

(** The substitution table, in the insertion order of the dict literal. *)
Definition substitutions : list (string * string) :=
  [("javascript", "js");
   ("typescript", "ts");
   ("reactjs", "react");
   ("react js", "react");
   ("nodejs", "node.js");
   ("node js", "node.js");
   ("restful apis", "restful api");
   ("api development", "api");
   ("database design", "database");
   ("sql server", "sql");
   ("mysql", "sql");
   ("postgresql", "sql");
   ("postgres", "sql");
   ("software development", "software engineering");
   ("web development", "web dev");
   ("frontend", "front-end");
   ("backend", "back-end");
   ("fullstack", "full-stack");
   ("full stack", "full-stack")].

Definition apply_substitution (normalized : string) (p : string * string) : string :=
  let '(original, replacement) := p in
  if contains original normalized
  then replace original replacement normalized
  else normalized.

Definition normalize_skill_name (skill_name : string) : string :=
  fold_left apply_substitution substitutions (strip (lower skill_name)).

Definition technical_keywords : list string :=
  ["python"; "java"; "javascript"; "js"; "typescript"; "ts"; "c++"; "c#";
   "php"; "ruby"; "go"; "rust"; "scala"; "kotlin";
   "react"; "angular"; "vue"; "node.js"; "django"; "flask"; "spring";
   "express"; "laravel";
   "sql"; "mysql"; "postgresql"; "mongodb"; "redis"; "elasticsearch"; "database";
   "docker"; "kubernetes"; "git"; "jenkins"; "aws"; "azure"; "gcp"; "linux"; "unix";
   "api"; "restful"; "graphql"; "microservices"; "cloud"; "blockchain"; "ai";
   "machine learning"; "ml";
   "software engineering"; "computer science"; "algorithm"; "data structure";
   "testing"; "debugging"].

Definition is_technical_skill (skill_name : string) : bool :=
  let skill_lower := strip (lower skill_name) in
  existsb (fun keyword => contains keyword skill_lower) technical_keywords.

End SkillFilters.

(** ** Python numbers and truthiness *)

Module Py.

(** [int(x)] on a float: truncation toward zero. *)
Definition int (x : Q) : Z := Z.quot (Qnum x) (Zpos (Qden x)).

(** [x or d] for a nullable float: [None] and [0.0] are falsy. *)
Definition float_or (x : option Q) (d : Q) : Q :=
  match x with
  | Some v => if Qeq_bool v 0 then d else v
  | None => d
  end.

(** [x or d] for a nullable list: [None] and [[]] are falsy. *)
Definition list_or {A} (x : option (list A)) (d : list A) : list A :=
  match x with
  | Some (a :: l) => a :: l
  | _ => d
  end.

(** [x < y] and [x <= y] on floats. *)
Definition ltb (x y : Q) : bool := negb (Qle_bool y x).
Definition leb (x y : Q) : bool := Qle_bool x y.

(** [len(a) / len(b)] *)
Definition ratio (a b : nat) : Q := inject_Z (Z.of_nat a) / inject_Z (Z.of_nat b).

Definition sum (l : list Q) : Q := fold_right Qplus 0 l.

(** [l.sort(key=key, reverse=True)]: a stable sort into descending key
    order; [ltb] is [<] on keys.  An element is inserted in front of the
    first element whose key is not greater, so that elements with equal
    keys keep their input order. *)
Section Sort.
Context {A K : Type} (ltb : K → K → bool) (key : A → K).

Fixpoint insert_desc (x : A) (l : list A) : list A :=
  match l with
  | [] => [x]
  | y :: l' => if ltb (key x) (key y) then y :: insert_desc x l' else x :: l
  end.

Definition sort_reverse (l : list A) : list A := fold_right insert_desc [] l.
End Sort.

(** [max(l)] on a non-empty list of floats [x :: l]: the first element is
    kept until a strictly greater one is met. *)
Definition max_of (x : Q) (l : list Q) : Q :=
  fold_left (fun best s => if ltb best s then s else best) l x.

(** [sum(l)] over a list of floats and [x / y] round their results to a
    float: the mean of [0.1, 0.1, 0.1] is [0.10000000000000002].  Where a
    result of such arithmetic is compared with the numbers it was computed
    from, the two operations are taken as they come, with their rounding:
    the sum and the quotient of the rationals are one instance among
    others. *)
Record FloatArith := {
  float_sum : list Q → Q;
  float_div : Q → Q → Q }.

(** A [dict] whose iteration order matters, as the list of its items in
    insertion order.  [d[k] = f(d.get(k))]: the value of an existing key is
    replaced in place, a new key goes to the end. *)
Fixpoint dict_update {V} (k : string) (f : option V → V) (d : list (string * V))
  : list (string * V) :=
  match d with
  | [] => [(k, f None)]
  | (k', v) :: d' =>
      if String.eqb k' k then (k', f (Some v)) :: d'
      else (k', v) :: dict_update k f d'
  end.

End Py.

(** ** Rows of the tables the services read and write *)

Module Models.

(** An element of a JSON list of skill ids: the pairwise service stores
    normalized names, the vector-space service integer ids. *)
Inductive json_id : Type :=
| JStr (s : string)
| JInt (z : Z).

(** [user_skills_emsi] *)
Record UserSkillEmsi := {
  us_emsi_skill_id : string;
  us_skill_name : string;
  us_proficiency_level : Q;
  us_confidence : Q }.

(** [job_skills_emsi] *)
Record JobSkillEmsi := {
  js_emsi_skill_id : string;
  js_skill_name : string;
  js_importance : option Q }.

(** [emsi_skills] *)
Record EmsiSkill := {
  es_skill_id : string;
  es_skill_name : string;
  es_skill_type : string }.

(** [job_postings], the columns the matchers pass through. *)
Record JobPosting := {
  jp_id : Z;
  jp_title : string;
  jp_company : string;
  jp_location : string;
  jp_source : string }.

(** [skills_v2] *)
Record SkillV2 := {
  sk_id : Z;
  sk_name : string;
  sk_skill_type : string }.

(** [user_skills] *)
Record UserSkill := {
  uk_user_id : Z;
  uk_skill_id : Z;
  uk_proficiency_level : Q;
  uk_confidence : Q }.

(** [job_skills_v2] *)
Record JobSkillV2 := {
  jk_job_id : Z;
  jk_skill_id : Z;
  jk_importance : option Q }.

(** [job_matches] *)
Record JobMatch := {
  jm_id : nat;
  jm_user_id : Z;
  jm_job_id : Z;
  jm_alignment_score : option Q;
  jm_similarity_score : option Q;
  jm_jaccard_score : option Q;
  jm_cosine_score : option Q;
  jm_weighted_score : option Q;
  jm_skill_coverage : option Q;
  jm_algorithm_version : string;
  jm_missing_skills : option (list json_id);
  jm_matched_skills : option (list json_id);
  jm_matching_skills : option (list json_id) }.

Inductive Priority := high | medium | low.

(** [skill_gaps]; [match_id] refers to [job_matches.id] with
    [ON DELETE CASCADE]. *)
Record SkillGap := {
  sg_match_id : nat;
  sg_skill_id : json_id;
  sg_gap_type : string;
  sg_importance : Q;
  sg_user_proficiency : Q;
  sg_required_proficiency : Q;
  sg_priority : Priority;
  sg_estimated_learning_time : nat }.

(** [SkillType], the enumeration behind [skills_v2.skill_type], and the
    [.value] of each member. *)
Inductive SkillType := TECHNICAL | SOFT | DOMAIN | CERTIFICATION.

Definition skill_type_value (t : SkillType) : string :=
  match t with
  | TECHNICAL => "TECHNICAL"
  | SOFT => "SOFT"
  | DOMAIN => "DOMAIN"
  | CERTIFICATION => "CERTIFICATION"
  end.

(** An entry of a list of learning resources. *)
Record LearningResource := {
  lr_type : string;
  lr_title : string;
  lr_provider : string;
  lr_url : string }.

End Models.

(** ** The database session

    The session holds the committed tables and the tables as the open
    transaction sees them.  [commit] publishes the transaction, [rollback]
    discards it.  Which statements raise is fixed by a fault plan. *)

Module Session.
Import Models.

Inductive outcome (A : Type) : Type :=
| Ok (a : A)
| Raise (e : string).
Arguments Ok {A} a.
Arguments Raise {A} e.

Record Tables := {
  job_matches : list JobMatch;
  skill_gaps : list SkillGap }.

Record Session := {
  committed : Tables;
  pending : Tables;
  next_id : nat }.

Record Faults := {
  update_fails : bool;            (* the UPDATE of [_invalidate_old_matches] *)
  invalidate_delete_fails : bool; (* the DELETE of [_invalidate_old_matches] *)
  delete_fails : bool;            (* the DELETE that opens a save *)
  flush_fails : Z → bool;         (* the flush of the match of this job id *)
  skill_query_fails : Z → bool;   (* the query of this skill while gaps are created *)
  commit_fails : bool;
  rollback_fails : bool }.

Definition no_faults : Faults :=
  {| update_fails := false; invalidate_delete_fails := false;
     delete_fails := false; flush_fails := fun _ => false;
     skill_query_fails := fun _ => false;
     commit_fails := false; rollback_fails := false |}.

(** A computation on the session that returns or raises. *)
Definition M (A : Type) : Type := Session → outcome A * Session.

Definition ret {A} (a : A) : M A := fun s => (Ok a, s).
Definition raise {A} (e : string) : M A := fun s => (Raise e, s).
Definition bind {A B} (m : M A) (k : A → M B) : M B :=
  fun s =>
    match m s with
    | (Ok a, s') => k a s'
    | (Raise e, s') => (Raise e, s')
    end.
(** [try: body except Exception as e: handler] *)
Definition try_except {A} (body : M A) (handler : string → M A) : M A :=
  fun s =>
    match body s with
    | (Ok a, s') => (Ok a, s')
    | (Raise e, s') => handler e s'
    end.

#[global] Instance session_ret : MRet M := @ret.
#[global] Instance session_bind : MBind M := fun A B k m => bind m k.

Fixpoint for_each {A S} (body : S → A → M S) (l : list A) (acc : S) : M S :=
  match l with
  | [] => ret acc
  | x :: l' => acc' ← body acc x; for_each body l' acc'
  end.

Definition set_pending (t : Tables) : M unit :=
  fun s => (Ok tt, {| committed := committed s; pending := t; next_id := next_id s |}).

Definition get_pending : M Tables := fun s => (Ok (pending s), s).

(** [query(JobMatch).filter(JobMatch.user_id == user_id).delete()];
    the gaps of a deleted match go with it. *)
Definition delete_user_rows (user_id : Z) (t : Tables) : Tables :=
  let gone := List.filter (fun m => (jm_user_id m =? user_id)%Z) (job_matches t) in
  let gone_ids := map jm_id gone in
  {| job_matches := List.filter (fun m => negb (jm_user_id m =? user_id)%Z) (job_matches t);
     skill_gaps := List.filter (fun g => negb (existsb (Nat.eqb (sg_match_id g)) gone_ids))
                               (skill_gaps t) |}.

Definition delete_matches (fails : bool) (user_id : Z) : M nat :=
  if fails then raise "delete"
  else
    t ← get_pending;
    set_pending (delete_user_rows user_id t);;
    ret (length (List.filter (fun m => (jm_user_id m =? user_id)%Z) (job_matches t))).

(** [db.add(job_match); db.flush()]: the row receives its id. *)
Definition add_and_flush (F : Faults) (row : nat → JobMatch) : M nat :=
  fun s =>
    let m := row (next_id s) in
    if flush_fails F (jm_job_id m) then (Raise "flush", s)
    else
      (Ok (next_id s),
       {| committed := committed s;
          pending := {| job_matches := (job_matches (pending s) ++ [m])%list;
                        skill_gaps := skill_gaps (pending s) |};
          next_id := S (next_id s) |}).

(** [db.add(skill_gap)] *)
Definition add_gap (g : SkillGap) : M unit :=
  t ← get_pending;
  set_pending {| job_matches := job_matches t;
                 skill_gaps := (skill_gaps t ++ [g])%list |}.

Definition commit (F : Faults) : M unit :=
  fun s =>
    if commit_fails F then (Raise "commit", s)
    else (Ok tt, {| committed := pending s; pending := pending s; next_id := next_id s |}).

Definition rollback (F : Faults) : M unit :=
  fun s =>
    if rollback_fails F then (Raise "rollback", s)
    else (Ok tt, {| committed := committed s; pending := committed s; next_id := next_id s |}).

End Session.

(** ** [services/job_matching.py]: [JobMatchingService] *)

Module JobMatching.
Import Models SkillFilters.

Record SimilarityScores := {
  overall : Q;
  jaccard : Q;
  cosine : Q;
  weighted : Q }.

Record GapAnalysis := {
  ga_matching_skills : list string;
  ga_missing_skills : list string;
  ga_coverage : Q;
  ga_total_required : nat;
  ga_total_matching : nat;
  ga_total_missing : nat }.

(** The dict a match is returned as. *)
Record Match := {
  job_id : Z;
  job_title : string;
  job_company : string;
  job_location : string;
  job_source : string;
  similarity_score : Q;
  jaccard_score : Q;
  cosine_score : Q;
  weighted_score : Q;
  skill_coverage : Q;
  matching_skills : list string;
  missing_skills : list string;
  total_job_skills : nat;
  total_user_skills : nat }.

(** One entry of [_get_jobs_with_skills]. *)
Record JobData := {
  jd_job : JobPosting;
  jd_skills : gmap string Q }.

(** *** [_get_user_skills]: one turn of the loop over the rows *)
Definition user_skill_step (filtered_skills : gmap string Q) (row : UserSkillEmsi)
  : gmap string Q :=
  let skill_name := us_skill_name row in
  if negb (is_valid_skill skill_name) then filtered_skills
  else
    let normalized_name := normalize_skill_name skill_name in
    let proficiency := us_proficiency_level row in
    let proficiency :=
      if is_technical_skill skill_name then Qmin 1 (proficiency * 1.2)
      else proficiency in
    match filtered_skills !! normalized_name with
    | Some previous => <[normalized_name := Qmax previous proficiency]> filtered_skills
    | None => <[normalized_name := proficiency]> filtered_skills
    end.

Definition _get_user_skills (rows : list UserSkillEmsi) : gmap string Q :=
  fold_left user_skill_step rows ∅.

(** *** [_get_jobs_with_skills] *)
Definition job_skill_step (filtered_skills : gmap string Q) (skill : JobSkillEmsi)
  : gmap string Q :=
  let skill_name := js_skill_name skill in
  if negb (is_valid_skill skill_name) then filtered_skills
  else
    let normalized_name := normalize_skill_name skill_name in
    let importance := Py.float_or (js_importance skill) 1 in
    let importance :=
      if is_technical_skill skill_name then Qmin 2 (importance * 1.3)
      else importance in
    match filtered_skills !! normalized_name with
    | Some previous => <[normalized_name := Qmax previous importance]> filtered_skills
    | None => <[normalized_name := importance]> filtered_skills
    end.

Definition job_filtered_skills (job_skills : list JobSkillEmsi) : gmap string Q :=
  fold_left job_skill_step job_skills ∅.

Definition _get_jobs_with_skills (jobs : list (JobPosting * list JobSkillEmsi))
  : list JobData :=
  flat_map
    (fun '(job, job_skills) =>
       let filtered_skills := job_filtered_skills job_skills in
       if (2 <=? size filtered_skills)%nat
       then [{| jd_job := job; jd_skills := filtered_skills |}]
       else [])
    jobs.

(** *** [_analyze_skill_gaps] *)
Definition _analyze_skill_gaps (user_skills job_skills : gmap string Q) : GapAnalysis :=
  let user_skill_ids : gset string := dom user_skills in
  let job_skill_ids : gset string := dom job_skills in
  let matching := elements (user_skill_ids ∩ job_skill_ids) in
  let missing := elements (job_skill_ids ∖ user_skill_ids) in
  let coverage :=
    if decide (job_skill_ids = ∅) then 0
    else Py.ratio (length matching) (size job_skill_ids) in
  {| ga_matching_skills := matching;
     ga_missing_skills := missing;
     ga_coverage := coverage;
     ga_total_required := size job_skill_ids;
     ga_total_matching := length matching;
     ga_total_missing := length missing |}.

(** *** [_calculate_similarity] *)
Section Similarity.
(** [sklearn.metrics.pairwise.cosine_similarity([u], [v])[0][0]]; a
    rational is never NaN, so the [np.isnan] test has no counterpart. *)
Variable cosine_similarity : list Q → list Q → Q.

Definition string_le : relation string := fun a b => Is_true (String.leb a b).

(** One turn of the loop over [job_skill_ids]; the accumulator is
    [(weighted_score, total_weight, technical_bonus)]. *)
Definition weighted_step (user_skills job_skills : gmap string Q)
    (acc : Q * Q * Q) (skill_name : string) : Q * Q * Q :=
  let '(weighted_score, total_weight, technical_bonus) := acc in
  let job_importance := default 0 (job_skills !! skill_name) in
  let user_proficiency := default 0 (user_skills !! skill_name) in
  let base_score := user_proficiency * job_importance in
  (weighted_score + base_score,
   total_weight + job_importance,
   if Py.ltb 0 user_proficiency && is_technical_skill skill_name
   then technical_bonus + base_score * 0.5
   else technical_bonus).

Definition weighted_similarity (user_skills job_skills : gmap string Q) : Q :=
  let '(weighted_score, total_weight, technical_bonus) :=
    fold_left (weighted_step user_skills job_skills)
              (elements (dom job_skills)) (0, 0, 0) in
  let weighted_sim :=
    if Py.ltb 0 total_weight then weighted_score / total_weight else 0 in
  if Py.ltb 0 total_weight
  then Qmin 1 (weighted_sim + technical_bonus / total_weight)
  else weighted_sim.

(** [sorted(union)] *)
Definition all_skills (user_skills job_skills : gmap string Q) : list string :=
  merge_sort string_le (elements (dom user_skills ∪ dom job_skills : gset string)).

(** [[skills.get(skill_id, 0.0) for skill_id in all_skills]] *)
Definition skill_vector (skills : gmap string Q) (all_skills : list string) : list Q :=
  map (fun skill_id => default 0 (skills !! skill_id)) all_skills.

Definition _calculate_similarity (user_skills job_skills : gmap string Q)
  : SimilarityScores :=
  let user_skill_ids : gset string := dom user_skills in
  let job_skill_ids : gset string := dom job_skills in
  let intersection := user_skill_ids ∩ job_skill_ids in
  let union := user_skill_ids ∪ job_skill_ids in
  let jaccard :=
    if decide (union = ∅) then 0 else Py.ratio (size intersection) (size union) in
  match all_skills user_skills job_skills with
  | [] => {| overall := 0; jaccard := 0; cosine := 0; weighted := 0 |}
  | all_skills =>
      let user_vector := skill_vector user_skills all_skills in
      let job_vector := skill_vector job_skills all_skills in
      let cosine_sim := cosine_similarity user_vector job_vector in
      let weighted_sim := weighted_similarity user_skills job_skills in
      {| overall := jaccard * 0.2 + cosine_sim * 0.3 + weighted_sim * 0.5;
         jaccard := jaccard;
         cosine := cosine_sim;
         weighted := weighted_sim |}
  end.

(** *** [match_user_to_jobs] *)

(** The body of the loop over [jobs_with_skills]: the match of one job,
    or nothing when fewer than two skills match. *)
Definition match_job (user_skills : gmap string Q) (job_data : JobData)
  : list Match :=
  let job_skills := jd_skills job_data in
  let similarity_scores := _calculate_similarity user_skills job_skills in
  let gap_analysis := _analyze_skill_gaps user_skills job_skills in
  let matching_skill_count := length (ga_matching_skills gap_analysis) in
  if (matching_skill_count <? 2)%nat then []
  else
    [{| job_id := jp_id (jd_job job_data);
        job_title := jp_title (jd_job job_data);
        job_company := jp_company (jd_job job_data);
        job_location := jp_location (jd_job job_data);
        job_source := jp_source (jd_job job_data);
        similarity_score := overall similarity_scores;
        jaccard_score := jaccard similarity_scores;
        cosine_score := cosine similarity_scores;
        weighted_score := weighted similarity_scores;
        skill_coverage := ga_coverage gap_analysis;
        matching_skills := ga_matching_skills gap_analysis;
        missing_skills := ga_missing_skills gap_analysis;
        total_job_skills := size job_skills;
        total_user_skills := size user_skills |}].

(** The key of [sort_key]:
    [(matching_count, similarity_score, total_job_skills, -total_user_skills)]. *)
Definition SortKey : Type := nat * Q * nat * Z.

Definition sort_key (m : Match) : SortKey :=
  (length (matching_skills m),
   similarity_score m,
   total_job_skills m,
   (- Z.of_nat (total_user_skills m))%Z).

(** [<] on tuples: the first component that differs decides. *)
Definition key_ltb (a b : SortKey) : bool :=
  let '(matching_a, score_a, jobs_a, users_a) := a in
  let '(matching_b, score_b, jobs_b, users_b) := b in
  match Nat.compare matching_a matching_b with
  | Lt => true
  | Gt => false
  | Eq =>
      match Qcompare score_a score_b with
      | Lt => true
      | Gt => false
      | Eq =>
          match Nat.compare jobs_a jobs_b with
          | Lt => true
          | Gt => false
          | Eq => (users_a <? users_b)%Z
          end
      end
  end.

Definition match_user_to_jobs
    (user_rows : list UserSkillEmsi)
    (jobs : list (JobPosting * list JobSkillEmsi))
    (limit : nat) : list Match :=
  let user_skills := _get_user_skills user_rows in
  if decide (user_skills = ∅) then []
  else
    match _get_jobs_with_skills jobs with
    | [] => []
    | jobs_with_skills =>
        let matches := flat_map (match_job user_skills) jobs_with_skills in
        take limit (Py.sort_reverse key_ltb sort_key matches)
    end.

End Similarity.

(** *** [get_job_matches] *)

(** The dict a stored match is returned as. *)
Record MatchResult := {
  mr_match_id : nat;
  mr_job_id : Z;
  mr_job_title : string;
  mr_job_company : string;
  mr_job_location : string;
  mr_job_source : string;
  mr_similarity_score : Q;
  mr_jaccard_score : Q;
  mr_cosine_score : Q;
  mr_weighted_score : Q;
  mr_skill_coverage : Q;
  mr_matching_skills : list json_id;
  mr_missing_skills : list json_id;
  mr_total_job_skills : nat;
  mr_total_user_skills : nat }.

Definition result_sort_key (r : MatchResult) : SortKey :=
  (length (mr_matching_skills r),
   mr_similarity_score r,
   mr_total_job_skills r,
   (- Z.of_nat (mr_total_user_skills r))%Z).

(** [query(JobPosting).filter(JobPosting.id == job_id).first()] *)
Definition find_job (job_postings : list JobPosting) (id : Z) : option JobPosting :=
  List.find (fun job => (jp_id job =? id)%Z) job_postings.

Definition match_result (job_postings : list JobPosting) (user_skill_count : nat)
    (m : JobMatch) : list MatchResult :=
  match find_job job_postings (jm_job_id m) with
  | None => []
  | Some job =>
      let matching :=
        Py.list_or (jm_matching_skills m) (Py.list_or (jm_matched_skills m) []) in
      [{| mr_match_id := jm_id m;
          mr_job_id := jm_job_id m;
          mr_job_title := jp_title job;
          mr_job_company := jp_company job;
          mr_job_location := jp_location job;
          mr_job_source := jp_source job;
          mr_similarity_score :=
            Py.float_or (jm_similarity_score m) (Py.float_or (jm_alignment_score m) 0);
          mr_jaccard_score := Py.float_or (jm_jaccard_score m) 0;
          mr_cosine_score := Py.float_or (jm_cosine_score m) 0;
          mr_weighted_score := Py.float_or (jm_weighted_score m) 0;
          mr_skill_coverage := Py.float_or (jm_skill_coverage m) 0;
          mr_matching_skills := matching;
          mr_missing_skills := Py.list_or (jm_missing_skills m) [];
          mr_total_job_skills :=
            length (Py.list_or (jm_missing_skills m) []) + length matching;
          mr_total_user_skills := user_skill_count |}]
  end.

Definition get_job_matches
    (job_matches : list JobMatch) (job_postings : list JobPosting)
    (user_skill_count : nat) (user_id : Z) (limit : nat) : list MatchResult :=
  let matches := List.filter (fun m => (jm_user_id m =? user_id)%Z) job_matches in
  let result := flat_map (match_result job_postings user_skill_count) matches in
  take limit (Py.sort_reverse key_ltb result_sort_key result).

(** *** [calculate_skill_gaps_dynamic] *)

Record GapInfo := {
  gi_skill_id : string;
  gi_skill_name : string;
  gi_skill_type : string;
  gi_gap_type : string;
  gi_importance : Q;
  gi_user_proficiency : Q;
  gi_required_proficiency : Q;
  gi_priority : Priority;
  gi_estimated_learning_time : nat }.

Record GapReport := {
  gr_similarity_score : Q;
  gr_skill_coverage : Q;
  gr_gaps_by_category : gmap string (list GapInfo);
  gr_total_gaps : nat;
  gr_high_priority_gaps : nat;
  gr_medium_priority_gaps : nat;
  gr_low_priority_gaps : nat }.

Definition _estimate_simple_learning_time (skill_type : string) : nat :=
  if String.eqb (PyStr.lower skill_type) "technical" then 40 else 20.

(** [{skill.emsi_skill_id: skill.importance or 1.0 for skill in job_skills}]:
    a later row with the same id replaces an earlier one. *)
Definition job_skill_dict (job_skills : list JobSkillEmsi) : gmap string Q :=
  fold_left
    (fun d skill => <[js_emsi_skill_id skill := Py.float_or (js_importance skill) 1]> d)
    job_skills ∅.

(** [SELECT ... FROM emsi_skills WHERE skill_id = :skill_id], [fetchone()] *)
Definition find_emsi_skill (emsi_skills : list EmsiSkill) (skill_id : string)
  : option EmsiSkill :=
  List.find (fun s => String.eqb (es_skill_id s) skill_id) emsi_skills.

(** The accumulator of the loop over [missing_skill_ids]:
    [(gaps_by_category, high, medium, low)]. *)
Definition GapAcc : Type := gmap string (list GapInfo) * nat * nat * nat.

Definition gap_step (emsi_skills : list EmsiSkill) (job_skill_dict : gmap string Q)
    (acc : GapAcc) (skill_id : string) : GapAcc :=
  let '(gaps_by_category, high_count, medium_count, low_count) := acc in
  match find_emsi_skill emsi_skills skill_id with
  | None => acc
  | Some skill_result =>
      let importance := default 0 (job_skill_dict !! skill_id) in
      let '(priority, high_count, medium_count, low_count) :=
        if Py.leb 1 importance then (high, S high_count, medium_count, low_count)
        else if Py.leb 0.7 importance then (medium, high_count, S medium_count, low_count)
        else (low, high_count, medium_count, S low_count) in
      let gap_info :=
        {| gi_skill_id := skill_id;
           gi_skill_name := es_skill_name skill_result;
           gi_skill_type := es_skill_type skill_result;
           gi_gap_type := "missing";
           gi_importance := importance;
           gi_user_proficiency := 0;
           gi_required_proficiency := 0.7;
           gi_priority := priority;
           gi_estimated_learning_time :=
             _estimate_simple_learning_time (es_skill_type skill_result) |} in
      let category := es_skill_type skill_result in
      (<[category := (default [] (gaps_by_category !! category) ++ [gap_info])%list]>
         gaps_by_category,
       high_count, medium_count, low_count)
  end.

Definition calculate_skill_gaps_dynamic
    (cosine_similarity : list Q → list Q → Q)
    (user_rows : list UserSkillEmsi) (job_skills : list JobSkillEmsi)
    (emsi_skills : list EmsiSkill) : GapReport :=
  let user_skills := _get_user_skills user_rows in
  let user_skill_ids : gset string := dom user_skills in
  let job_skill_dict := job_skill_dict job_skills in
  let job_skill_ids : gset string := dom job_skill_dict in
  let similarity_scores := _calculate_similarity cosine_similarity user_skills job_skill_dict in
  let gap_analysis := _analyze_skill_gaps user_skills job_skill_dict in
  let missing_skill_ids := job_skill_ids ∖ user_skill_ids in
  let '(gaps_by_category, high_count, medium_count, low_count) :=
    fold_left (gap_step emsi_skills job_skill_dict)
              (elements missing_skill_ids) (∅, 0, 0, 0)%nat in
  let filtered_gaps :=
    filter (fun kv => length kv.2 ≠ 0%nat) gaps_by_category in
  {| gr_similarity_score := overall similarity_scores;
     gr_skill_coverage := ga_coverage gap_analysis;
     gr_gaps_by_category := filtered_gaps;
     gr_total_gaps := size missing_skill_ids;
     gr_high_priority_gaps := high_count;
     gr_medium_priority_gaps := medium_count;
     gr_low_priority_gaps := low_count |}.

(** *** [save_job_matches] *)
Section Save.
Import Session.

Definition algorithm_version : string := "v1".

Definition job_match_row (user_id : Z) (match_data : Match) (id : nat) : JobMatch :=
  {| jm_id := id;
     jm_user_id := user_id;
     jm_job_id := job_id match_data;
     jm_alignment_score := None;
     jm_similarity_score := Some (similarity_score match_data);
     jm_jaccard_score := Some (jaccard_score match_data);
     jm_cosine_score := Some (cosine_score match_data);
     jm_weighted_score := Some (weighted_score match_data);
     jm_skill_coverage := Some (skill_coverage match_data);
     jm_algorithm_version := algorithm_version;
     jm_missing_skills := Some (map JStr (missing_skills match_data));
     jm_matched_skills := None;
     jm_matching_skills := Some (map JStr (matching_skills match_data)) |}.

Definition save_job_matches (F : Faults) (user_id : Z) (matches : list Match) : M nat :=
  try_except
    (delete_matches (delete_fails F) user_id;;
     saved_count ←
       for_each
         (fun saved_count match_data =>
            add_and_flush F (job_match_row user_id match_data);;
            ret (S saved_count))
         matches 0%nat;
     commit F;;
     ret saved_count)
    (fun _ => rollback F;; ret 0%nat).
End Save.

(** *** [_get_simple_learning_resources] *)
Definition _get_simple_learning_resources (skill_name : string)
  : list LearningResource :=
  [ {| lr_type := "search";
       lr_title := "Learn " ++ skill_name;
       lr_provider := "Search";
       lr_url := "https://www.google.com/search?q=learn+"
                 ++ PyStr.replace " " "+" skill_name |} ].

(** *** [get_matching_stats] *)

(** The dict of statistics; the two dicts without statistics have no
    ['best_match_score']. *)
Record MatchingStats := {
  st_total_matches : nat;
  st_avg_similarity : Q;
  st_high_matches : nat;
  st_medium_matches : nat;
  st_low_matches : nat;
  st_best_match_score : option Q }.

Definition no_matching_stats : MatchingStats :=
  {| st_total_matches := 0;
     st_avg_similarity := 0;
     st_high_matches := 0;
     st_medium_matches := 0;
     st_low_matches := 0;
     st_best_match_score := None |}.

(** A [similarity_score] that is [NULL] makes [sum] raise a [TypeError],
    and an empty list makes the division raise; the handler returns the
    dict without statistics.  The average is computed in the float
    arithmetic [arith]; the comparisons of the bands and of [max] are
    exact. *)
Definition get_matching_stats (arith : Py.FloatArith) (job_matches : list JobMatch)
    (user_id : Z) : MatchingStats :=
  let rows := List.filter (fun m => (jm_user_id m =? user_id)%Z) job_matches in
  let total_matches := length rows in
  if (total_matches =? 0)%nat then no_matching_stats
  else
    match mapM jm_similarity_score rows with
    | None => no_matching_stats
    | Some [] => no_matching_stats
    | Some ((first :: rest) as similarities) =>
        {| st_total_matches := total_matches;
           st_avg_similarity :=
             Py.float_div arith (Py.float_sum arith similarities)
               (inject_Z (Z.of_nat (length similarities)));
           st_high_matches :=
             length (List.filter (fun s => Py.leb 0.7 s) similarities);
           st_medium_matches :=
             length (List.filter (fun s => Py.leb 0.4 s && Py.ltb s 0.7) similarities);
           st_low_matches :=
             length (List.filter (fun s => Py.ltb s 0.4) similarities);
           st_best_match_score := Some (Py.max_of first rest) |}
    end.

End JobMatching.

(** ** [services/tfidf_matching.py]: [TFIDFJobMatcher] *)

Module TFIDF.
Import Models PyStr Session.

Definition algorithm_version : string := "tfidf_v1".

(** The dict literal [skill_mappings], in insertion order. *)
Definition skill_mappings : list (string * list string) :=
  [("python (programming language)", ["python"; "python3"; "python2"; "py"]);
   ("javascript (programming language)", ["javascript"; "js"; "ecmascript"]);
   ("javascript", ["js"; "ecmascript"; "javascript"]);
   ("node.js", ["nodejs"; "node"; "node js"]);
   ("react.js", ["react"; "reactjs"]);
   ("react", ["reactjs"; "react.js"]);
   ("typescript", ["ts"; "typescript"]);
   ("postgresql", ["postgres"; "psql"]);
   ("docker container", ["docker"; "containerization"]);
   ("docker", ["containerization"; "docker container"]);
   ("git flow", ["git"; "version control"]);
   ("git", ["version control"; "git flow"]);
   ("aws", ["amazon web services"; "amazon aws"]);
   ("css", ["cascading style sheets"; "stylesheets"]);
   ("html", ["hypertext markup language"; "markup"]);
   ("rest api", ["restful api"; "rest"; "api"]);
   ("graphql", ["graph ql"; "query language"]);
   ("machine learning", ["ml"; "artificial intelligence"; "ai"]);
   ("artificial intelligence", ["ai"; "machine learning"; "ml"]);
   ("data science", ["data analysis"; "analytics"]);
   ("sql", ["structured query language"; "database"]);
   ("nosql", ["non-relational database"; "mongodb"]);
   ("mongodb", ["mongo"; "nosql"]);
   ("kubernetes", ["k8s"; "container orchestration"]);
   ("devops", ["dev ops"; "operations"]);
   ("ci/cd", ["continuous integration"; "continuous deployment"]);
   ("agile", ["scrum"; "agile methodology"]);
   ("scrum", ["agile"; "agile methodology"])].

Definition direct_mapping (skill_name : string) : option (list string) :=
  snd <$> List.find (fun p => String.eqb (fst p) skill_name) skill_mappings.

Definition reverse_step (skill_name : string) (variations : list string)
    (p : string * list string) : list string :=
  let '(key, values) := p in
  if mem skill_name values && negb (mem key variations)
  then (variations ++ [key])%list
  else variations.

Definition _get_skill_variations (skill_name : string) : list string :=
  let variations := [skill_name] in
  let variations :=
    match direct_mapping skill_name with
    | Some values => (variations ++ values)%list
    | None => variations
    end in
  let variations := fold_left (reverse_step skill_name) skill_mappings variations in
  elements (list_to_set variations : gset string).

(** [max(1, int(weight * 5))] *)
Definition repetitions (weight : Q) : nat :=
  Z.to_nat (Z.max 1 (Py.int (weight * 5))).

(** The terms one skill contributes: each variation of the lower-cased
    name, [reps] times ([[variation] * repetitions]). *)
Definition skill_terms (name : string) (reps : nat) : list string :=
  flat_map (fun variation => replicate reps variation)
           (_get_skill_variations (lower name)).

(** [query(SkillV2).filter(SkillV2.id == skill_id).first()] *)
Definition find_skill (skills : list SkillV2) (skill_id : Z) : option SkillV2 :=
  List.find (fun s => (sk_id s =? skill_id)%Z) skills.

Record JobDocument := {
  doc_job : JobPosting;
  doc_skill_text : string;
  doc_skill_weights : gmap Z Q }.

(** One turn of the loop over the job's skills; the accumulator is
    [(skill_names, skill_weights)]. *)
Definition job_document_step (skills : list SkillV2)
    (acc : list string * gmap Z Q) (skill_rel : JobSkillV2) : list string * gmap Z Q :=
  let '(skill_names, skill_weights) := acc in
  match find_skill skills (jk_skill_id skill_rel) with
  | None => acc
  | Some skill =>
      let importance := Py.float_or (jk_importance skill_rel) 1 in
      ((skill_names ++ skill_terms (sk_name skill) (repetitions importance))%list,
       <[sk_id skill := importance]> skill_weights)
  end.

Definition job_skill_names (skills : list SkillV2) (job_skills : list JobSkillV2)
  : list string :=
  fst (fold_left (job_document_step skills) job_skills ([], ∅)).

Definition skills_of_job (job_skills_v2 : list JobSkillV2) (id : Z) : list JobSkillV2 :=
  List.filter (fun r => (jk_job_id r =? id)%Z) job_skills_v2.

Definition job_document (skills : list SkillV2) (job_skills_v2 : list JobSkillV2)
    (job : JobPosting) : JobDocument :=
  let acc := fold_left (job_document_step skills)
                       (skills_of_job job_skills_v2 (jp_id job)) ([], ∅) in
  {| doc_job := job;
     doc_skill_text := join " " (fst acc);
     doc_skill_weights := snd acc |}.

Definition _create_job_skill_documents (skills : list SkillV2)
    (job_skills_v2 : list JobSkillV2) (jobs : list JobPosting) : list JobDocument :=
  map (job_document skills job_skills_v2) jobs.

(** *** The user's document ([_create_user_vector], before [transform]) *)
Definition user_document_step (skills : list SkillV2)
    (skill_names : list string) (user_skill : UserSkill) : list string :=
  match find_skill skills (uk_skill_id user_skill) with
  | None => skill_names
  | Some skill =>
      let weight := uk_proficiency_level user_skill * uk_confidence user_skill in
      (skill_names ++ skill_terms (sk_name skill) (repetitions weight))%list
  end.

Definition user_skill_names (skills : list SkillV2) (user_skills : list UserSkill)
  : list string :=
  fold_left (user_document_step skills) user_skills [].

Definition skills_of_user (user_skills : list UserSkill) (user_id : Z) : list UserSkill :=
  List.filter (fun r => (uk_user_id r =? user_id)%Z) user_skills.

(** [None] where the source returns [None] before [transform]. *)
Definition user_text (skills : list SkillV2) (user_skills : list UserSkill)
    (user_id : Z) : option string :=
  match skills_of_user user_skills user_id with
  | [] => None
  | rows =>
      let text := join " " (user_skill_names skills rows) in
      if String.eqb text "" then None else Some text
  end.

(** *** [_compute_job_gap_analysis] *)
Record GapAnalysis := {
  coverage : Q;
  jaccard_score : Q;
  weighted_score : Q;
  matching_skills : list Z;
  missing_skills : list Z;
  total_required : nat;
  total_user_skills : nat }.

Definition user_skill_map (rows : list UserSkill) : gmap Z Q :=
  fold_left (fun d r => <[uk_skill_id r := uk_proficiency_level r]> d) rows ∅.

Definition job_skill_map (rows : list JobSkillV2) : gmap Z Q :=
  fold_left (fun d r => <[jk_skill_id r := Py.float_or (jk_importance r) 1]> d) rows ∅.

Definition weighted_step (user_skills job_skills : gmap Z Q)
    (acc : Q * Q) (skill_id : Z) : Q * Q :=
  let '(weighted_score, total_weight) := acc in
  let job_importance := default 0 (job_skills !! skill_id) in
  let user_proficiency := default 0 (user_skills !! skill_id) in
  (weighted_score + user_proficiency * job_importance, total_weight + job_importance).

Definition gap_analysis_of (user_skills job_skills : gmap Z Q) : GapAnalysis :=
  let user_skill_ids : gset Z := dom user_skills in
  let job_skill_ids : gset Z := dom job_skills in
  let matching := elements (user_skill_ids ∩ job_skill_ids) in
  let missing := elements (job_skill_ids ∖ user_skill_ids) in
  let coverage :=
    if decide (job_skill_ids = ∅) then 0
    else Py.ratio (length matching) (size job_skill_ids) in
  let union := user_skill_ids ∪ job_skill_ids in
  let jaccard :=
    if decide (union = ∅) then 0 else Py.ratio (length matching) (size union) in
  let '(weighted_score, total_weight) :=
    fold_left (weighted_step user_skills job_skills) (elements job_skill_ids) (0, 0) in
  let weighted_sim :=
    if Py.ltb 0 total_weight then weighted_score / total_weight else 0 in
  {| coverage := coverage;
     jaccard_score := jaccard;
     weighted_score := weighted_sim;
     matching_skills := matching;
     missing_skills := missing;
     total_required := size job_skill_ids;
     total_user_skills := size user_skill_ids |}.

Definition _compute_job_gap_analysis (user_skills : list UserSkill)
    (job_skills_v2 : list JobSkillV2) (user_id job_id : Z) : GapAnalysis :=
  gap_analysis_of (user_skill_map (skills_of_user user_skills user_id))
                  (job_skill_map (skills_of_job job_skills_v2 job_id)).

(** *** [compute_matches] *)
Record Match := {
  m_job_id : Z;
  m_job_title : string;
  m_job_company : string;
  m_job_location : string;
  m_job_source : string;
  m_similarity_score : Q;
  m_tfidf_score : Q;
  m_cosine_score : Q;
  m_jaccard_score : Q;
  m_weighted_score : Q;
  m_skill_coverage : Q;
  m_matching_skills : list Z;
  m_missing_skills : list Z;
  m_total_job_skills : nat;
  m_total_user_skills : nat }.

Section Compute.
(** The library part of the matcher: [TfidfVectorizer.fit_transform] on
    the job documents, [transform] on the user's document and
    [cosine_similarity] of the user's vector with every job vector;
    [None] when the library raises. *)
Variable tfidf_similarities : list string → string → option (list Q).

Variable skills : list SkillV2.
Variable job_skills_v2 : list JobSkillV2.
Variable user_skills : list UserSkill.
(** The active jobs that have a skill, as the query returns them. *)
Variable jobs : list JobPosting.

Definition match_of (user_id : Z) (p : JobDocument * Q) : list Match :=
  let '(job_doc, similarity) := p in
  if Py.ltb 0.01 similarity then
    let gap_analysis :=
      _compute_job_gap_analysis user_skills job_skills_v2 user_id (jp_id (doc_job job_doc)) in
    [{| m_job_id := jp_id (doc_job job_doc);
        m_job_title := jp_title (doc_job job_doc);
        m_job_company := jp_company (doc_job job_doc);
        m_job_location := jp_location (doc_job job_doc);
        m_job_source := jp_source (doc_job job_doc);
        m_similarity_score := similarity;
        m_tfidf_score := similarity;
        m_cosine_score := similarity;
        m_jaccard_score := jaccard_score gap_analysis;
        m_weighted_score := weighted_score gap_analysis;
        m_skill_coverage := coverage gap_analysis;
        m_matching_skills := matching_skills gap_analysis;
        m_missing_skills := missing_skills gap_analysis;
        m_total_job_skills := total_required gap_analysis;
        m_total_user_skills := total_user_skills gap_analysis |}]
  else [].

Definition compute_matches (user_id : Z) (limit : nat) : list Match :=
  match _create_job_skill_documents skills job_skills_v2 jobs with
  | [] => []
  | job_documents =>
      match user_text skills user_skills user_id with
      | None => []
      | Some text =>
          match tfidf_similarities (map doc_skill_text job_documents) text with
          | None => []
          | Some similarities =>
              let matches :=
                flat_map (match_of user_id) (zip job_documents similarities) in
              take limit (Py.sort_reverse Py.ltb m_similarity_score matches)
          end
      end
  end.
End Compute.

(** *** [save_matches] and [_create_skill_gaps] *)

Definition _estimate_learning_time (skill : SkillV2) : nat :=
  let skill_name := lower (sk_name skill) in
  if String.eqb (sk_skill_type skill) "technical" then
    if existsb (fun tech => contains tech skill_name) ["python"; "javascript"; "java"]
    then 80
    else if existsb (fun tech => contains tech skill_name) ["react"; "angular"; "vue"]
    then 40
    else if existsb (fun tech => contains tech skill_name) ["sql"; "html"; "css"]
    then 20
    else 30
  else if String.eqb (sk_skill_type skill) "soft" then 15
  else 25.

Definition query_skill (F : Faults) (skills : list SkillV2) (skill_id : Z)
  : M (option SkillV2) :=
  if skill_query_fails F skill_id then raise "query" else ret (find_skill skills skill_id).

Definition create_gap_step (F : Faults) (skills : list SkillV2) (match_id : nat)
    (_ : unit) (skill_id : Z) : M unit :=
  found ← query_skill F skills skill_id;
  match found with
  | None => ret tt
  | Some skill =>
      let importance : Q := 1 in
      let priority :=
        if Py.leb 0.8 importance then high
        else if Py.leb 0.5 importance then medium
        else low in
      add_gap {| sg_match_id := match_id;
                 sg_skill_id := JInt skill_id;
                 sg_gap_type := "missing";
                 sg_importance := importance;
                 sg_user_proficiency := 0;
                 sg_required_proficiency := 0.7;
                 sg_priority := priority;
                 sg_estimated_learning_time := _estimate_learning_time skill |}
  end.

Definition _create_skill_gaps (F : Faults) (skills : list SkillV2) (match_id : nat)
    (match_data : Match) : M unit :=
  try_except
    (for_each (create_gap_step F skills match_id) (m_missing_skills match_data) tt)
    (fun _ => ret tt).

Definition job_match_row (user_id : Z) (match_data : Match) (id : nat) : JobMatch :=
  {| jm_id := id;
     jm_user_id := user_id;
     jm_job_id := m_job_id match_data;
     jm_alignment_score := None;
     jm_similarity_score := Some (m_similarity_score match_data);
     jm_jaccard_score := Some (m_jaccard_score match_data);
     jm_cosine_score := Some (m_cosine_score match_data);
     jm_weighted_score := Some (m_weighted_score match_data);
     jm_skill_coverage := Some (m_skill_coverage match_data);
     jm_algorithm_version := algorithm_version;
     jm_missing_skills := Some (map JInt (m_missing_skills match_data));
     jm_matched_skills := None;
     jm_matching_skills := Some (map JInt (m_matching_skills match_data)) |}.

Definition save_matches (F : Faults) (skills : list SkillV2) (user_id : Z)
    (matches : list Match) : M nat :=
  try_except
    (delete_matches (delete_fails F) user_id;;
     saved_count ←
       for_each
         (fun saved_count match_data =>
            id ← add_and_flush F (job_match_row user_id match_data);
            _create_skill_gaps F skills id match_data;;
            ret (S saved_count))
         matches 0%nat;
     commit F;;
     ret saved_count)
    (fun _ => rollback F;; ret 0%nat).

(** *** [_build_skill_vocabulary] *)

(** One turn of the loop over [enumerate(skills)]; the accumulator is
    [(skill_to_index, index_to_skill)]. *)
Definition vocabulary_step (acc : gmap Z nat * gmap nat Z) (p : nat * SkillV2)
  : gmap Z nat * gmap nat Z :=
  let '(skill_to_index, index_to_skill) := acc in
  let '(i, skill) := p in
  (<[sk_id skill := i]> skill_to_index, <[i := sk_id skill]> index_to_skill).

Definition _build_skill_vocabulary (skills : list SkillV2) : gmap Z nat * gmap nat Z :=
  fold_left vocabulary_step (imap (fun i skill => (i, skill)) skills) (∅, ∅).

(** *** [_get_learning_resources]

    [sk_skill_type] holds [skill.skill_type.value]. *)
Definition _get_learning_resources (skill : SkillV2) : list LearningResource :=
  let skill_name := lower (sk_name skill) in
  if String.eqb (sk_skill_type skill) "technical" then
    if contains "python" skill_name then
      [ {| lr_type := "course";
           lr_title := "Python Programming Fundamentals";
           lr_provider := "Coursera";
           lr_url := "https://www.coursera.org/learn/python" |} ]
    else if contains "javascript" skill_name then
      [ {| lr_type := "course";
           lr_title := "JavaScript Essentials";
           lr_provider := "freeCodeCamp";
           lr_url := "https://www.freecodecamp.org/learn/javascript-algorithms-and-data-structures/" |} ]
    else if contains "react" skill_name then
      [ {| lr_type := "tutorial";
           lr_title := "React Official Tutorial";
           lr_provider := "React";
           lr_url := "https://reactjs.org/tutorial/tutorial.html" |} ]
    else
      [ {| lr_type := "search";
           lr_title := "Learn " ++ sk_name skill;
           lr_provider := "Google";
           lr_url := "https://www.google.com/search?q="
                     ++ replace " " "+" (sk_name skill) ++ "+tutorial" |} ]
  else if String.eqb (sk_skill_type skill) "soft" then
    [ {| lr_type := "course";
         lr_title := sk_name skill ++ " Development";
         lr_provider := "LinkedIn Learning";
         lr_url := "https://www.linkedin.com/learning/search?keywords="
                   ++ replace " " "%20" (sk_name skill) |} ]
  else [].

End TFIDF.

(** ** [services/skill_alignment_service.py]: [SkillAlignmentService] *)

Module SkillAlignment.
Import SkillFilters.

(** A value of the dict of [_get_current_user_skills]. *)
Record UserSkillInfo := {
  u_name : string;
  proficiency : Q;
  confidence : Q }.

(** A value of one industry's dict of [_get_industry_requirements]. *)
Record IndustrySkillInfo := {
  i_name : string;
  importance : Q }.

(** One turn of the loop over [industry_skills.items()]; the accumulator
    is [(total_score, max_possible_score, matched_skills)]. *)
Definition alignment_step (user_skills : gmap string UserSkillInfo)
    (acc : Q * Q * nat) (item : string * IndustrySkillInfo) : Q * Q * nat :=
  let '(total_score, max_possible_score, matched_skills) := acc in
  let '(skill_id, skill_info) := item in
  let importance := importance skill_info in
  let max_possible_score := max_possible_score + importance in
  match user_skills !! skill_id with
  | Some user_skill =>
      let importance :=
        if is_technical_skill (i_name skill_info) then importance * 1.2 else importance in
      let score := proficiency user_skill * importance * confidence user_skill in
      (total_score + score, max_possible_score, S matched_skills)
  | None => (total_score, max_possible_score, matched_skills)
  end.

Definition _calculate_industry_alignment
    (user_skills : gmap string UserSkillInfo)
    (industry_skills : gmap string IndustrySkillInfo) : Q :=
  let '(total_score, max_possible_score, matched_skills) :=
    fold_left (alignment_step user_skills) (map_to_list industry_skills) (0, 0, 0%nat) in
  let alignment :=
    if Py.ltb 0 max_possible_score then total_score / max_possible_score else 0 in
  let alignment :=
    if (matched_skills <? 3)%nat
    then alignment * (inject_Z (Z.of_nat matched_skills) / 3)
    else alignment in
  Qmin 1 alignment.

(** *** [_get_current_user_skills]: a later row of the same skill id
    replaces an earlier one. *)
Definition _get_current_user_skills (rows : list Models.UserSkillEmsi)
  : gmap string UserSkillInfo :=
  fold_left
    (fun skills row =>
       <[Models.us_emsi_skill_id row :=
           {| u_name := Models.us_skill_name row;
              proficiency := Models.us_proficiency_level row;
              confidence := Models.us_confidence row |}]> skills)
    rows ∅.

(** *** [_get_industry_requirements] *)

(** A row of the grouped query. *)
Record IndustryRow := {
  ir_industry : string;
  ir_emsi_skill_id : string;
  ir_skill_name : string;
  ir_avg_importance : option Q }.

(** [industries[row.industry][row.emsi_skill_id] = {...}] on a
    [defaultdict(dict)]; the result keeps the industries in the order in
    which the rows first name them. *)
Definition industry_step (industries : list (string * gmap string IndustrySkillInfo))
    (row : IndustryRow) : list (string * gmap string IndustrySkillInfo) :=
  Py.dict_update (ir_industry row)
    (fun skills =>
       <[ir_emsi_skill_id row :=
           {| i_name := ir_skill_name row;
              importance := Py.float_or (ir_avg_importance row) 1 |}]>
         (default ∅ skills))
    industries.

Definition _get_industry_requirements (rows : list IndustryRow)
  : list (string * gmap string IndustrySkillInfo) :=
  fold_left industry_step rows [].

(** *** [_store_alignment]: the values it writes, into the recent row of
    the user and industry or into a new one. *)
Record UserIndustryAlignment := {
  ua_user_id : Z;
  ua_industry_category : string;
  ua_alignment_score : Q;
  ua_total_industry_skills : nat;
  ua_matched_skills : nat;
  ua_skill_coverage : Q;
  ua_matched_skill_ids : list string;
  ua_missing_skill_ids : list string;
  ua_skill_count_at_calculation : nat }.

Definition _store_alignment (user_id : Z) (industry : string) (alignment_score : Q)
    (user_skills : gmap string UserSkillInfo)
    (industry_skills : gmap string IndustrySkillInfo) : UserIndustryAlignment :=
  let user_skill_ids : gset string := dom user_skills in
  let industry_skill_ids : gset string := dom industry_skills in
  let matched_skill_ids := elements (user_skill_ids ∩ industry_skill_ids) in
  let missing_skill_ids := elements (industry_skill_ids ∖ user_skill_ids) in
  let skill_coverage :=
    if decide (industry_skill_ids = ∅) then 0
    else Py.ratio (length matched_skill_ids) (size industry_skill_ids) in
  {| ua_user_id := user_id;
     ua_industry_category := industry;
     ua_alignment_score := alignment_score;
     ua_total_industry_skills := size industry_skill_ids;
     ua_matched_skills := length matched_skill_ids;
     ua_skill_coverage := skill_coverage;
     ua_matched_skill_ids := matched_skill_ids;
     ua_missing_skill_ids := missing_skill_ids;
     ua_skill_count_at_calculation := size user_skills |}.

(** *** [_create_alignment_snapshot] *)
Record SkillAlignmentSnapshot := {
  sn_user_id : Z;
  sn_total_skills : nat;
  sn_technical_skills : nat;
  sn_soft_skills : nat;
  sn_top_industry_alignments : list (string * Q);
  sn_trigger_event : string }.

(** One turn of the loop over [current_skills.values()]; the accumulator
    is [(technical_count, soft_count)]. *)
Definition skill_type_step (acc : nat * nat) (skill_data : UserSkillInfo) : nat * nat :=
  let '(technical_count, soft_count) := acc in
  if is_technical_skill (u_name skill_data)
  then (S technical_count, soft_count)
  else (technical_count, S soft_count).

(** [alignments] is the dict of scores as the list of its items. *)
Definition _create_alignment_snapshot (user_rows : list Models.UserSkillEmsi)
    (user_id : Z) (alignments : list (string * Q)) (total_skills : nat)
  : SkillAlignmentSnapshot :=
  let current_skills := _get_current_user_skills user_rows in
  let '(technical_count, soft_count) :=
    fold_left skill_type_step (snd <$> map_to_list current_skills) (0, 0)%nat in
  let top_alignments := take 5 (Py.sort_reverse Py.ltb snd alignments) in
  {| sn_user_id := user_id;
     sn_total_skills := total_skills;
     sn_technical_skills := technical_count;
     sn_soft_skills := soft_count;
     sn_top_industry_alignments := top_alignments;
     sn_trigger_event := "skill_update" |}.

(** *** [calculate_current_alignment]

    The scores it returns, the rows it stores and the snapshot it adds;
    nothing is computed or written for a user without skills. *)
Record CurrentAlignment := {
  ca_alignments : list (string * Q);
  ca_stored : list UserIndustryAlignment;
  ca_snapshot : option SkillAlignmentSnapshot }.

Definition calculate_current_alignment (user_rows : list Models.UserSkillEmsi)
    (industry_rows : list IndustryRow) (user_id : Z) : CurrentAlignment :=
  let current_skills := _get_current_user_skills user_rows in
  if decide (current_skills = ∅) then
    {| ca_alignments := []; ca_stored := []; ca_snapshot := None |}
  else
    let industry_requirements := _get_industry_requirements industry_rows in
    let scored :=
      map (fun '(industry, industry_skills) =>
             (industry,
              _calculate_industry_alignment current_skills industry_skills,
              industry_skills))
          industry_requirements in
    let alignments := map fst scored in
    {| ca_alignments := alignments;
       ca_stored :=
         map (fun '(industry, alignment, industry_skills) =>
                _store_alignment user_id industry alignment current_skills industry_skills)
             scored;
       ca_snapshot :=
         Some (_create_alignment_snapshot user_rows user_id alignments
                 (size current_skills)) |}.

End SkillAlignment.

(** ** [services/match_scheduler.py]: [MatchScheduler] *)

Module MatchScheduler.
Import Session.

Inductive Algorithm := tfidf | basic.

Record Stats := {
  total_users : nat;
  processed_users : nat;
  failed_users : nat;
  total_matches : nat }.

(** What [recompute_all_matches] returns: the statistics, or the error
    dict of its outer handler. *)
Inductive RunResult :=
| Completed (stats : Stats)
| Failed (error : string).

Section Scheduler.
(** The fault plan while this user is processed. *)
Variable faults : Z → Faults.
(** Whether the skills query of [_build_skill_vocabulary] raises when
    the matcher is built for this user. *)
Variable vocabulary_fails : Z → bool.
(** What the [try] block of [compute_matches] does for this user and
    limit: the matches, or an exception. *)
Variable tfidf_body : Z → nat → outcome (list TFIDF.Match).
(** The same for [match_user_to_jobs]. *)
Variable basic_body : Z → nat → outcome (list JobMatching.Match).
Variable skills : list Models.SkillV2.

(** [_invalidate_old_matches]: its handler logs and returns. *)
Definition _invalidate_old_matches (user_id : Z) : M unit :=
  try_except
    ((if update_fails (faults user_id) then raise "update" else ret tt);;
     delete_matches (invalidate_delete_fails (faults user_id)) user_id;;
     ret tt)
    (fun _ => ret tt).

(** [TFIDFJobMatcher(self.db)]: [_build_skill_vocabulary] logs and
    raises again. *)
Definition TFIDFJobMatcher (user_id : Z) : M unit :=
  try_except
    (if vocabulary_fails user_id then raise "skills" else ret tt)
    (fun e => raise e).

(** [compute_matches]: its handler logs and returns [[]]. *)
Definition compute_matches (user_id : Z) (limit : nat) : M (list TFIDF.Match) :=
  try_except
    (fun s => (tfidf_body user_id limit, s))
    (fun _ => ret []).

(** [match_user_to_jobs]: its handler logs and returns [[]]. *)
Definition match_user_to_jobs (user_id : Z) (limit : nat)
  : M (list JobMatching.Match) :=
  try_except
    (fun s => (basic_body user_id limit, s))
    (fun _ => ret []).

(** The [try] block of the loop for one user; the result is
    [saved_count]. *)
Definition recompute_user (algorithm : Algorithm) (limit_per_user : nat)
    (user_id : Z) : M nat :=
  _invalidate_old_matches user_id;;
  match algorithm with
  | tfidf =>
      TFIDFJobMatcher user_id;;
      matches ← compute_matches user_id limit_per_user;
      TFIDF.save_matches (faults user_id) skills user_id matches
  | basic =>
      matches ← match_user_to_jobs user_id limit_per_user;
      JobMatching.save_job_matches (faults user_id) user_id matches
  end.

(** One turn of the loop: a returned count is added and the user
    counted as processed; an exception counts the user as failed. *)
Definition process_user (algorithm : Algorithm) (limit_per_user : nat)
    (stats : Stats) (user_id : Z) : M Stats :=
  try_except
    (saved_count ← recompute_user algorithm limit_per_user user_id;
     ret {| total_users := total_users stats;
            processed_users := S (processed_users stats);
            failed_users := failed_users stats;
            total_matches := total_matches stats + saved_count |})
    (fun _ =>
       ret {| total_users := total_users stats;
              processed_users := processed_users stats;
              failed_users := S (failed_users stats);
              total_matches := total_matches stats |}).

(** [users_query]: the ids of the users with skills, or the exception
    of the query. *)
Definition recompute_all_matches (users_query : outcome (list Z))
    (limit_per_user : nat) (algorithm : Algorithm) : M RunResult :=
  try_except
    (user_ids ← (fun s => (users_query, s));
     stats ←
       for_each (process_user algorithm limit_per_user) user_ids
         {| total_users := length user_ids;
            processed_users := 0;
            failed_users := 0;
            total_matches := 0 |};
     ret (Completed stats))
    (fun e => ret (Failed e)).

(** What [recompute_user_matches] returns: ['matches_found'] and
    ['matches_saved'], or the error dict of its handler. *)
Inductive UserRunResult :=
| Recomputed (matches_found matches_saved : nat)
| UserFailed (error : string).

Definition recompute_user_matches (user_id : Z) (algorithm : Algorithm)
  : M UserRunResult :=
  try_except
    (_invalidate_old_matches user_id;;
     match algorithm with
     | tfidf =>
         TFIDFJobMatcher user_id;;
         matches ← compute_matches user_id 50;
         saved_count ← TFIDF.save_matches (faults user_id) skills user_id matches;
         ret (Recomputed (length matches) saved_count)
     | basic =>
         matches ← match_user_to_jobs user_id 50;
         saved_count ← JobMatching.save_job_matches (faults user_id) user_id matches;
         ret (Recomputed (length matches) saved_count)
     end)
    (fun e => ret (UserFailed e)).

End Scheduler.

End MatchScheduler.

(** ** [routers/matching.py]: the statistics endpoint *)

Module MatchingRouter.
Import Models.

(** What an endpoint answers: the response body, or an [HTTPException]. *)
Inductive Response (A : Type) : Type :=
| Success (body : A)
| HTTPException (status_code : nat) (detail : string).
Arguments Success {A} body.
Arguments HTTPException {A} status_code detail.

(** [MatchingStatsResponse]: every field is required. *)
Record MatchingStatsResponse := {
  total_matches : nat;
  avg_similarity : Q;
  high_matches : nat;
  medium_matches : nat;
  low_matches : nat;
  best_match_score : Q }.

(** The response model built from the keys of the dict of statistics:
    [None] when the validation of the model raises because a key is
    missing. *)
Definition matching_stats_response (stats : JobMatching.MatchingStats)
  : option MatchingStatsResponse :=
  best ← JobMatching.st_best_match_score stats;
  Some {| total_matches := JobMatching.st_total_matches stats;
          avg_similarity := JobMatching.st_avg_similarity stats;
          high_matches := JobMatching.st_high_matches stats;
          medium_matches := JobMatching.st_medium_matches stats;
          low_matches := JobMatching.st_low_matches stats;
          best_match_score := best |}.

(** [users] holds the ids of the rows of [users]. *)
Definition get_matching_stats (arith : Py.FloatArith) (users : list Z)
    (job_matches : list JobMatch) (user_id : Z) : Response MatchingStatsResponse :=
  if negb (existsb (Z.eqb user_id) users) then HTTPException 404 "User not found"
  else
    match matching_stats_response
            (JobMatching.get_matching_stats arith job_matches user_id) with
    | Some response => Success response
    | None => HTTPException 500 "Failed to get matching statistics"
    end.

(** *** [compute_job_matches] *)

(** The body of the answer: the early ["No matches found"], or the counts
    ['total_matches'] and ['saved_matches']. *)
Inductive ComputeAnswer :=
| NoMatchesFound
| MatchesFound (total_matches saved_matches : nat).

Section Compute.
Import Session.

Variable faults : Z → Faults.
Variable vocabulary_fails : Z → bool.
Variable tfidf_body : Z → nat → outcome (list TFIDF.Match).
Variable basic_body : Z → nat → outcome (list JobMatching.Match).
Variable skills : list SkillV2.
(** Whether the response model [JobMatchResponse] accepts the dict of a
    match. *)
Variable tfidf_response_ok : TFIDF.Match → bool.
Variable basic_response_ok : JobMatching.Match → bool.

(** The lines after the matches are computed, for either matcher. *)
Definition answer_with {A} (save : list A → M nat) (response_ok : A → bool)
    (save_results : bool) (matches : list A) : M (Response ComputeAnswer) :=
  match matches with
  | [] => ret (Success NoMatchesFound)
  | _ =>
      saved_count ← (if save_results then save matches else ret 0%nat);
      if forallb response_ok matches
      then ret (Success (MatchesFound (length matches) saved_count))
      else raise "ValidationError"
  end.

Definition compute_job_matches (users : list Z) (user_id : Z) (limit : nat)
    (save_results : bool) (algorithm : MatchScheduler.Algorithm)
  : M (Response ComputeAnswer) :=
  if negb (existsb (Z.eqb user_id) users) then ret (HTTPException 404 "User not found")
  else
    try_except
      (match algorithm with
       | MatchScheduler.tfidf =>
           MatchScheduler.TFIDFJobMatcher vocabulary_fails user_id;;
           matches ← MatchScheduler.compute_matches tfidf_body user_id limit;
           answer_with (TFIDF.save_matches (faults user_id) skills user_id)
             tfidf_response_ok save_results matches
       | MatchScheduler.basic =>
           matches ← MatchScheduler.match_user_to_jobs basic_body user_id limit;
           answer_with (JobMatching.save_job_matches (faults user_id) user_id)
             basic_response_ok save_results matches
       end)
      (fun _ => ret (HTTPException 500 "Failed to compute job matches")).

End Compute.

End MatchingRouter.

(** * Properties *)

#[local] Set Warnings "-clear-no-such-hyp".

(** ** Sample data of the runs *)

Section SampleData.
Import Models Session.

(** A job posting. *)
Definition posting (id : Z) (title : string) : JobPosting :=
  {| jp_id := id; jp_title := title; jp_company := "Acme";
     jp_location := "Remote"; jp_source := "adzuna" |}.

(** The skill catalogue of the vector-space runs. *)
Definition catalogue : list SkillV2 :=
  [ {| sk_id := 1; sk_name := "Python"; sk_skill_type := "TECHNICAL" |};
    {| sk_id := 2; sk_name := "Docker"; sk_skill_type := "TECHNICAL" |};
    {| sk_id := 3; sk_name := "Kubernetes"; sk_skill_type := "TECHNICAL" |};
    {| sk_id := 4; sk_name := "AWS"; sk_skill_type := "TECHNICAL" |};
    {| sk_id := 5; sk_name := "React"; sk_skill_type := "TECHNICAL" |};
    {| sk_id := 6; sk_name := "Bookkeeping"; sk_skill_type := "DOMAIN" |} ].

(** User 7 has one skill, Python. *)
Definition one_skill_user : list UserSkill :=
  [ {| uk_user_id := 7; uk_skill_id := 1;
       uk_proficiency_level := 1; uk_confidence := 1 |} ].

(** The library's answer for the two job documents: the user's document
    shares its terms with the first one only. *)
Definition library_run (_ : list string) (_ : string) : option (list Q) :=
  Some [0.25; 0].

(** A session without rows and without open changes. *)
Definition empty_session : Session.Session :=
  {| committed := {| job_matches := []; skill_gaps := [] |};
     pending := {| job_matches := []; skill_gaps := [] |};
     next_id := 1 |}.

End SampleData.

(** ** Arithmetic of ratios and comparisons *)

Section PyFacts.

Lemma ltb_spec (x y : Q) : Py.ltb x y = true ↔ x < y.
Proof.
  unfold Py.ltb. rewrite negb_true_iff. split.
  - intros Hb. apply Qnot_le_lt. intros Hle.
    apply Qle_bool_iff in Hle. congruence.
  - intros Hlt. destruct (Qle_bool y x) eqn:E; [|reflexivity].
    apply Qle_bool_iff in E. exfalso. apply (Qlt_not_le _ _ Hlt E).
Qed.

Lemma ltb_false (x y : Q) : Py.ltb x y = false ↔ y <= x.
Proof.
  unfold Py.ltb. rewrite negb_false_iff. apply Qle_bool_iff.
Qed.

Lemma leb_spec (x y : Q) : Py.leb x y = true ↔ x <= y.
Proof. apply Qle_bool_iff. Qed.

Lemma leb_false (x y : Q) : Py.leb x y = false ↔ y < x.
Proof.
  unfold Py.leb. split.
  - intros Hb. apply Qnot_le_lt. intros Hle.
    apply Qle_bool_iff in Hle. congruence.
  - intros Hlt. destruct (Qle_bool x y) eqn:E; [|reflexivity].
    apply Qle_bool_iff in E. exfalso. apply (Qlt_not_le _ _ Hlt E).
Qed.

Lemma inject_nat_pos (n : nat) : (0 < n)%nat → 0 < inject_Z (Z.of_nat n).
Proof.
  intros Hn. change 0 with (inject_Z 0). rewrite <- Zlt_Qlt. lia.
Qed.

Lemma ratio_nonneg (a b : nat) : (0 < b)%nat → 0 <= Py.ratio a b.
Proof.
  intros Hb. unfold Py.ratio. apply Qle_shift_div_l.
  - by apply inject_nat_pos.
  - rewrite Qmult_0_l. change 0 with (inject_Z 0). rewrite <- Zle_Qle. lia.
Qed.

Lemma ratio_le_1 (a b : nat) : (0 < b)%nat → (a <= b)%nat → Py.ratio a b <= 1.
Proof.
  intros Hb Hab. unfold Py.ratio. apply Qle_shift_div_r.
  - by apply inject_nat_pos.
  - rewrite Qmult_1_l, <- Zle_Qle. lia.
Qed.

Lemma ratio_eq_1 (a b : nat) : (0 < b)%nat → Py.ratio a b == 1 ↔ a = b.
Proof.
  intros Hb. unfold Py.ratio.
  assert (Hpos : ¬ inject_Z (Z.of_nat b) == 0).
  { intros E. pose proof (inject_nat_pos b Hb) as Hlt. rewrite E in Hlt.
    exact (Qlt_irrefl _ Hlt). }
  split.
  - intros E.
    assert (E' : inject_Z (Z.of_nat a) == inject_Z (Z.of_nat b)).
    { rewrite <- (Qmult_1_l (inject_Z (Z.of_nat b))), <- E.
      field. exact Hpos. }
    apply Nat2Z.inj. by apply inject_Z_injective.
  - intros ->. field. exact Hpos.
Qed.

End PyFacts.

(** ** Sets of skill ids: matched, missing, required *)

Section SkillSets.
Context {K : Type} {EqK : EqDecision K} {CountK : Countable K}.
Implicit Types user_ids job_ids : gset K.

Lemma set_size_pos (X : gset K) : X ≠ ∅ → (0 < size X)%nat.
Proof.
  intros Hne. destruct (size X) eqn:E; [|lia].
  apply size_empty_iff in E. unfold_leibniz. done.
Qed.

Lemma length_elements (X : gset K) : length (elements X) = size X.
Proof. reflexivity. Qed.

Lemma job_ids_split user_ids job_ids :
  job_ids = (user_ids ∩ job_ids) ∪ (job_ids ∖ user_ids).
Proof.
  apply set_eq. intros x.
  rewrite elem_of_union, elem_of_intersection, elem_of_difference.
  destruct (decide (x ∈ user_ids)); naive_solver.
Qed.

Lemma matched_missing_disjoint user_ids job_ids :
  (user_ids ∩ job_ids) ## (job_ids ∖ user_ids).
Proof. set_solver. Qed.

Lemma size_matched_missing user_ids job_ids :
  (size (user_ids ∩ job_ids) + size (job_ids ∖ user_ids) = size job_ids)%nat.
Proof.
  rewrite <- size_union by apply matched_missing_disjoint.
  by rewrite <- job_ids_split.
Qed.

Lemma size_matched_le user_ids job_ids :
  (size (user_ids ∩ job_ids) <= size job_ids)%nat.
Proof. pose proof (size_matched_missing user_ids job_ids). lia. Qed.

Lemma elements_nil_iff (X : gset K) : elements X = [] ↔ X = ∅.
Proof.
  split.
  - intros E. apply set_eq. intros x.
    rewrite <- elem_of_elements, E. set_solver.
  - intros ->. apply elements_empty.
Qed.

(** What both gap analyses establish about their lists and counts. *)
Definition gap_lists_ok (job_ids : gset K) (matching missing : list K)
    (cov : Q) (required n_matching n_missing : nat) : Prop :=
  NoDup matching ∧ NoDup missing
  ∧ (∀ x, x ∈ matching → x ∉ missing)
  ∧ (∀ x, x ∈ job_ids ↔ x ∈ matching ∨ x ∈ missing)
  ∧ required = size job_ids
  ∧ n_matching = length matching
  ∧ n_missing = length missing
  ∧ (n_matching + n_missing = required)%nat
  ∧ cov == (if decide (job_ids = ∅) then 0 else Py.ratio n_matching required)
  ∧ 0 <= cov <= 1
  ∧ (cov == 1 ↔ missing = [] ∧ job_ids ≠ ∅).

Lemma gap_lists_ok_sets user_ids job_ids :
  gap_lists_ok job_ids
    (elements (user_ids ∩ job_ids)) (elements (job_ids ∖ user_ids))
    (if decide (job_ids = ∅) then 0
     else Py.ratio (length (elements (user_ids ∩ job_ids))) (size job_ids))
    (size job_ids)
    (length (elements (user_ids ∩ job_ids)))
    (length (elements (job_ids ∖ user_ids))).
Proof.
  pose proof (size_matched_missing user_ids job_ids) as Hsum.
  rewrite !length_elements.
  split; [apply NoDup_elements|].
  split; [apply NoDup_elements|].
  split. { intros x. rewrite !elem_of_elements. set_solver. }
  split.
  { intros x. rewrite !elem_of_elements, <- elem_of_union.
    by rewrite <- job_ids_split. }
  do 4 (split; [done|]).
  split; [reflexivity|].
  destruct (decide (job_ids = ∅)) as [Hempty|Hne].
  - split; [split; [apply Qle_refl|discriminate]|].
    split; [intros E; discriminate E|]. by intros [_ ?].
  - pose proof (set_size_pos job_ids Hne) as Hpos.
    split; [split|].
    + by apply ratio_nonneg.
    + apply ratio_le_1; [done|lia].
    + rewrite ratio_eq_1 by done. rewrite elements_nil_iff. split.
      * intros E. split; [|done].
        apply leibniz_equiv, size_empty_iff. lia.
      * intros [E _]. rewrite E, size_empty in Hsum. lia.
Qed.

End SkillSets.

(** ** Gap analysis: matched and missing skills, coverage *)

Section GapAnalysis.
Import JobMatching.

Lemma analyze_skill_gaps_ok (user_skills job_skills : gmap string Q) :
  let r := _analyze_skill_gaps user_skills job_skills in
  gap_lists_ok (dom job_skills)
    (ga_matching_skills r) (ga_missing_skills r) (ga_coverage r)
    (ga_total_required r) (ga_total_matching r) (ga_total_missing r).
Proof. apply gap_lists_ok_sets. Qed.

Lemma tfidf_gap_analysis_ok (user_skills job_skills : gmap Z Q) :
  let r := TFIDF.gap_analysis_of user_skills job_skills in
  gap_lists_ok (dom job_skills)
    (TFIDF.matching_skills r) (TFIDF.missing_skills r) (TFIDF.coverage r)
    (TFIDF.total_required r)
    (length (TFIDF.matching_skills r)) (length (TFIDF.missing_skills r)).
Proof.
  unfold TFIDF.gap_analysis_of.
  destruct (fold_left _ _ _) as [weighted_score total_weight]. simpl.
  apply gap_lists_ok_sets.
Qed.

(** C10, as stated, at a job without skills: nothing is missing, yet the
    coverage is 0 and not 1. *)
Lemma coverage_one_iff_nothing_missing_fails :
  let user_skills : gmap string Q := {[ "python" := 0.8 ]} in
  let r := _analyze_skill_gaps user_skills ∅ in
  ga_missing_skills r = [] ∧ ga_coverage r == 0
  ∧ ¬ (ga_coverage r == 1 ↔ ga_missing_skills r = []).
Proof.
  vm_compute. split; [reflexivity|]. split; [reflexivity|].
  intros [_ Hback]. specialize (Hback eq_refl). discriminate Hback.
Qed.

(** C10 (amended).  For all skill maps, both gap analyses
    ([_analyze_skill_gaps] of the pairwise service and the analysis inside
    [_compute_job_gap_analysis] of the vector-space service) return a
    matching list and a missing list without repetitions, which are
    disjoint and together hold exactly the job's skill ids; the counts
    satisfy [total_matching + total_missing = total_required]; the
    coverage is [total_matching / total_required], and 0 for a job
    without skills; it lies in [0,1]; and it is 1 exactly when nothing is
    missing and the job has at least one skill. *)
Theorem gap_analysis_partition_and_coverage :
  (∀ user_skills job_skills : gmap string Q,
     let r := _analyze_skill_gaps user_skills job_skills in
     gap_lists_ok (dom job_skills)
       (ga_matching_skills r) (ga_missing_skills r) (ga_coverage r)
       (ga_total_required r) (ga_total_matching r) (ga_total_missing r))
  ∧ (∀ user_skills job_skills : gmap Z Q,
       let r := TFIDF.gap_analysis_of user_skills job_skills in
       gap_lists_ok (dom job_skills)
         (TFIDF.matching_skills r) (TFIDF.missing_skills r) (TFIDF.coverage r)
         (TFIDF.total_required r)
         (length (TFIDF.matching_skills r)) (length (TFIDF.missing_skills r))).
Proof.
  split.
  - apply analyze_skill_gaps_ok.
  - apply tfidf_gap_analysis_ok.
Qed.

End GapAnalysis.

(** ** The similarity scorer *)

(** *** Sums *)

Section Sums.

Lemma sum_app (l1 l2 : list Q) : Py.sum (l1 ++ l2)%list == Py.sum l1 + Py.sum l2.
Proof.
  induction l1 as [|x l1 IH]; simpl.
  - ring.
  - rewrite IH. ring.
Qed.

Lemma sum_nonneg (l : list Q) : Forall (fun x => 0 <= x) l → 0 <= Py.sum l.
Proof.
  induction 1 as [|x l Hx _ IH]; simpl; [apply Qle_refl|lra].
Qed.

Lemma sum_map_nonneg {A} (f : A → Q) (l : list A) :
  (∀ x, 0 <= f x) → 0 <= Py.sum (map f l).
Proof.
  intros Hf. apply sum_nonneg. apply Forall_forall. intros y Hy.
  apply list_elem_of_In, in_map_iff in Hy as (x & <- & _). apply Hf.
Qed.

Lemma sum_map_le {A} (f g : A → Q) (l : list A) :
  (∀ x, f x <= g x) → Py.sum (map f l) <= Py.sum (map g l).
Proof.
  intros Hfg. induction l as [|x l IH]; simpl; [apply Qle_refl|].
  specialize (Hfg x). lra.
Qed.

(** A sum over the elements that pass a test is the sum with the others
    counted as 0. *)
Lemma sum_map_filter {A} (f : A → Q) (p : A → bool) (l : list A) :
  Py.sum (map f (List.filter p l))
  == Py.sum (map (fun x => if p x then f x else 0) l).
Proof.
  induction l as [|x l IH]; simpl; [reflexivity|].
  destruct (p x); simpl; rewrite IH; ring.
Qed.

End Sums.

(** *** The library's cosine *)

Section Cosine.

(** The dot product, which is the cosine of two vectors of norm 1. *)
Definition dot (u v : list Q) : Q := Py.sum (zip_with Qmult u v).

(** A call that answers [1.0000000000000002], the float next above 1:
    the library computes the cosine in floats (both vectors are divided
    by their norms and then multiplied), and rounding can take the cosine
    of two parallel vectors there. *)
Definition rounded_cosine (u v : list Q) : Q :=
  4503599627370497 # 4503599627370496.

End Cosine.

(** *** The weighted score and the combined score *)

Section SimilarityScorer.
Import JobMatching SkillFilters.

(** [skills.get(skill_id, 0.0)] *)
Definition weight_of (skills : gmap string Q) (skill_id : string) : Q :=
  default 0 (skills !! skill_id).

(** The sums of the specification, over the job's skills. *)
Definition weighted_numerator (user_skills job_skills : gmap string Q) : Q :=
  Py.sum (map (fun s => weight_of user_skills s * weight_of job_skills s)
              (elements (dom job_skills))).

Definition weighted_denominator (job_skills : gmap string Q) : Q :=
  Py.sum (map (weight_of job_skills) (elements (dom job_skills))).

(** A technical job skill that the user has with a positive weight. *)
Definition earns_bonus (user_skills : gmap string Q) (s : string) : bool :=
  Py.ltb 0 (weight_of user_skills s) && is_technical_skill s.

Definition technical_bonus_sum (user_skills job_skills : gmap string Q) : Q :=
  Py.sum (map (fun s => 0.5 * weight_of user_skills s * weight_of job_skills s)
              (List.filter (earns_bonus user_skills) (elements (dom job_skills)))).

Definition weights_nonneg (skills : gmap string Q) : Prop :=
  ∀ s w, skills !! s = Some w → 0 <= w.

Lemma weight_of_nonneg skills s : weights_nonneg skills → 0 <= weight_of skills s.
Proof.
  intros Hw. unfold weight_of. destruct (skills !! s) as [w|] eqn:E; simpl.
  - by apply (Hw s).
  - apply Qle_refl.
Qed.

(** The loop accumulates the three sums. *)
Lemma weighted_fold (user_skills job_skills : gmap string Q) (l : list string)
    (a b c : Q) :
  let r := fold_left (weighted_step user_skills job_skills) l (a, b, c) in
  r.1.1 == a + Py.sum (map (fun s => weight_of user_skills s * weight_of job_skills s) l)
  ∧ r.1.2 == b + Py.sum (map (weight_of job_skills) l)
  ∧ r.2 == c + Py.sum (map (fun s => 0.5 * weight_of user_skills s * weight_of job_skills s)
                           (List.filter (earns_bonus user_skills) l)).
Proof.
  revert a b c. induction l as [|s l IH]; intros a b c; simpl.
  - repeat split; ring.
  - unfold weighted_step at 2. fold (weight_of user_skills s) (weight_of job_skills s).
    fold (earns_bonus user_skills s).
    destruct (earns_bonus user_skills s); simpl;
      match goal with
      | |- context [fold_left _ l (?a', ?b', ?c')] =>
          destruct (IH a' b' c') as (Ha & Hb & Hc)
      end;
      rewrite Ha, Hb, Hc; repeat split; ring.
Qed.

Lemma weighted_denominator_nonneg job_skills :
  weights_nonneg job_skills → 0 <= weighted_denominator job_skills.
Proof. intros Hj. apply sum_map_nonneg. intros s. by apply weight_of_nonneg. Qed.

Lemma weighted_numerator_nonneg user_skills job_skills :
  weights_nonneg user_skills → weights_nonneg job_skills →
  0 <= weighted_numerator user_skills job_skills.
Proof.
  intros Hu Hj. apply sum_map_nonneg. intros s.
  apply Qmult_le_0_compat; by apply weight_of_nonneg.
Qed.

Lemma technical_bonus_nonneg user_skills job_skills :
  weights_nonneg user_skills → weights_nonneg job_skills →
  0 <= technical_bonus_sum user_skills job_skills.
Proof.
  intros Hu Hj. apply sum_map_nonneg. intros s.
  pose proof (weight_of_nonneg user_skills s Hu).
  pose proof (weight_of_nonneg job_skills s Hj). nra.
Qed.

(** The weighted score in closed form. *)
Lemma weighted_similarity_closed (user_skills job_skills : gmap string Q) :
  weights_nonneg job_skills →
  weighted_similarity user_skills job_skills
  == if Qeq_bool (weighted_denominator job_skills) 0 then 0
     else Qmin 1 (weighted_numerator user_skills job_skills
                    / weighted_denominator job_skills
                  + technical_bonus_sum user_skills job_skills
                    / weighted_denominator job_skills).
Proof.
  intros Hj. unfold weighted_similarity.
  pose proof (weighted_fold user_skills job_skills (elements (dom job_skills)) 0 0 0)
    as Hfold.
  pose proof (weighted_denominator_nonneg job_skills Hj) as Hden.
  destruct (fold_left _ _ _) as [[n d] t]. simpl in Hfold.
  destruct Hfold as (Hn & Hd & Ht).
  rewrite Qplus_0_l in Hn, Hd, Ht.
  fold (weighted_numerator user_skills job_skills) in Hn.
  fold (weighted_denominator job_skills) in Hd.
  fold (technical_bonus_sum user_skills job_skills) in Ht.
  destruct (Py.ltb 0 d) eqn:Epos.
  - apply ltb_spec in Epos.
    destruct (Qeq_bool (weighted_denominator job_skills) 0) eqn:Ez.
    + apply Qeq_bool_eq in Ez. lra.
    + rewrite Hn, Hd, Ht. reflexivity.
  - apply ltb_false in Epos.
    destruct (Qeq_bool (weighted_denominator job_skills) 0) eqn:Ez; [reflexivity|].
    apply Qeq_bool_neq in Ez. lra.
Qed.

Lemma weighted_similarity_bounds (user_skills job_skills : gmap string Q) :
  weights_nonneg user_skills → weights_nonneg job_skills →
  0 <= weighted_similarity user_skills job_skills <= 1.
Proof.
  intros Hu Hj. rewrite (weighted_similarity_closed _ _ Hj).
  pose proof (weighted_denominator_nonneg job_skills Hj) as Hden.
  pose proof (weighted_numerator_nonneg _ _ Hu Hj) as Hnum.
  pose proof (technical_bonus_nonneg _ _ Hu Hj) as Hbonus.
  destruct (Qeq_bool (weighted_denominator job_skills) 0) eqn:Ez.
  - split; [apply Qle_refl|discriminate].
  - apply Qeq_bool_neq in Ez.
    assert (Hpos : 0 < weighted_denominator job_skills) by lra.
    split; [|apply Q.le_min_l].
    apply Q.min_glb; [discriminate|].
    assert (0 <= weighted_numerator user_skills job_skills
                 / weighted_denominator job_skills).
    { apply Qle_shift_div_l; [assumption|]. lra. }
    assert (0 <= technical_bonus_sum user_skills job_skills
                 / weighted_denominator job_skills).
    { apply Qle_shift_div_l; [assumption|]. lra. }
    lra.
Qed.

Lemma all_skills_nil (user_skills job_skills : gmap string Q) :
  all_skills user_skills job_skills = [] →
  dom user_skills = (∅ : gset string) ∧ dom job_skills = (∅ : gset string).
Proof.
  unfold all_skills. intros E.
  assert (Hel : elements (dom user_skills ∪ dom job_skills : gset string) = []).
  { apply Permutation_nil. rewrite <- E. apply merge_sort_Permutation. }
  apply elements_nil_iff in Hel. split; set_solver.
Qed.

Lemma skill_vector_nonneg skills l :
  weights_nonneg skills → Forall (fun x => 0 <= x) (skill_vector skills l).
Proof.
  intros Hw. unfold skill_vector. induction l as [|s l IH]; simpl; constructor.
  - by apply weight_of_nonneg.
  - exact IH.
Qed.

Lemma jaccard_bounds (X Y : gset string) :
  0 <= (if decide (X ∪ Y = ∅) then 0 else Py.ratio (size (X ∩ Y)) (size (X ∪ Y))) <= 1.
Proof.
  destruct (decide (X ∪ Y = ∅)) as [|Hne].
  - split; [apply Qle_refl|discriminate].
  - pose proof (set_size_pos _ Hne). split.
    + by apply ratio_nonneg.
    + apply ratio_le_1; [done|]. apply subseteq_size. set_solver.
Qed.

Lemma overall_bounds (j c w : Q) :
  0 <= j <= 1 → 0 <= c <= 1 → 0 <= w <= 1 →
  0 <= j * 0.2 + c * 0.3 + w * 0.5 <= 1.
Proof. intros. lra. Qed.

(** Three skills with the weight 1, for the user and for the job. *)
Definition three_unit_skills : gmap string Q :=
  <["java" := 1]> (<["python" := 1]> (<["sql" := 1]> ∅)).

(** C2, as stated: the cosine score is the answer of the library as it
    comes.  For the vectors [(1, 1, 1)] of [three_unit_skills] and the
    answer [1.0000000000000002] the scorer returns a cosine above 1. *)
Lemma library_cosine_is_not_clamped :
  let r := _calculate_similarity rounded_cosine three_unit_skills three_unit_skills in
  weights_nonneg three_unit_skills
  ∧ skill_vector three_unit_skills
      (all_skills three_unit_skills three_unit_skills) = [1; 1; 1]
  ∧ cosine r == 4503599627370497 # 4503599627370496
  ∧ ¬ cosine r <= 1.
Proof.
  split.
  { intros s w. unfold three_unit_skills. rewrite !lookup_insert.
    repeat case_decide; intros E; inversion E; discriminate. }
  vm_compute. repeat split; try reflexivity. intros E. apply E. reflexivity.
Qed.

(** C2 (amended).  For skill maps with non-negative weights: the weighted
    score is [numerator / denominator + bonus / denominator] clamped to at
    most 1, and 0 when the denominator is 0, where the numerator sums
    [user_weight(s, default 0) * job_weight(s)] and the denominator
    [job_weight(s)] over the job's skills, and the bonus sums
    [0.5 * user_weight(s) * job_weight(s)] over the technical job skills
    the user has with a positive weight; the overall score is
    [0.2 * jaccard + 0.3 * cosine + 0.5 * weighted]; the cosine score is
    the answer of the library for the two skill vectors, which have no
    negative entry, and 0 when both maps are empty; the jaccard and the
    weighted score lie in [0,1]; and the cosine and the overall score lie
    in [0,1] whenever the answer of the library does. *)
Theorem similarity_scores_formula_and_range
    (cosine_similarity : list Q → list Q → Q)
    (user_skills job_skills : gmap string Q) :
  weights_nonneg user_skills →
  weights_nonneg job_skills →
  let r := _calculate_similarity cosine_similarity user_skills job_skills in
  let all := all_skills user_skills job_skills in
  let user_vector := skill_vector user_skills all in
  let job_vector := skill_vector job_skills all in
  weighted r
    == (if Qeq_bool (weighted_denominator job_skills) 0 then 0
        else Qmin 1 (weighted_numerator user_skills job_skills
                       / weighted_denominator job_skills
                     + technical_bonus_sum user_skills job_skills
                       / weighted_denominator job_skills))
  ∧ overall r == 0.2 * jaccard r + 0.3 * cosine r + 0.5 * weighted r
  ∧ cosine r = (if decide (all = []) then 0
                else cosine_similarity user_vector job_vector)
  ∧ Forall (fun x => 0 <= x) user_vector
  ∧ Forall (fun x => 0 <= x) job_vector
  ∧ 0 <= jaccard r <= 1
  ∧ 0 <= weighted r <= 1
  ∧ (0 <= cosine_similarity user_vector job_vector <= 1 →
     0 <= cosine r <= 1 ∧ 0 <= overall r <= 1).
Proof.
  intros Hu Hj. cbv zeta.
  pose proof (skill_vector_nonneg user_skills
                (all_skills user_skills job_skills) Hu) as Huv.
  pose proof (skill_vector_nonneg job_skills
                (all_skills user_skills job_skills) Hj) as Hjv.
  unfold _calculate_similarity. cbv zeta.
  destruct (all_skills user_skills job_skills) as [|s0 rest] eqn:Eall.
  - simpl. apply all_skills_nil in Eall as [_ Hjob].
    unfold weighted_denominator. rewrite Hjob, elements_empty. simpl.
    repeat split; try apply Qle_refl; try discriminate; try reflexivity;
      constructor.
  - simpl.
    pose proof (weighted_similarity_closed user_skills job_skills Hj) as Hw.
    pose proof (weighted_similarity_bounds user_skills job_skills Hu Hj) as Hwb.
    pose proof (jaccard_bounds (dom user_skills) (dom job_skills)) as Hjb.
    split; [exact Hw|].
    split; [ring|].
    split; [reflexivity|].
    split; [exact Huv|].
    split; [exact Hjv|].
    split; [exact Hjb|].
    split; [exact Hwb|].
    intros Hcb. split; [exact Hcb|]. by apply overall_bounds.
Qed.

(** A run of C2: the user's vector [(0.6, 0.8)] and the job's vector
    [(1, 0)] have norm 1, so their cosine is their dot product, 0.6. *)
Lemma similarity_scores_formula_and_range_witness :
  let user_skills : gmap string Q := <["python" := 0.6]> (<["sql" := 0.8]> ∅) in
  let job_skills : gmap string Q := <["python" := 1]> ∅ in
  let r := _calculate_similarity dot user_skills job_skills in
  cosine r == 0.6 ∧ 0 <= overall r <= 1.
Proof.
  intros user_skills job_skills r.
  assert (Hu : weights_nonneg user_skills).
  { intros s w. subst user_skills. rewrite !lookup_insert.
    repeat case_decide; intros E; inversion E; discriminate. }
  assert (Hj : weights_nonneg job_skills).
  { intros s w. subst job_skills. rewrite !lookup_insert.
    repeat case_decide; intros E; inversion E; discriminate. }
  split.
  - vm_compute. reflexivity.
  - apply (similarity_scores_formula_and_range dot user_skills job_skills Hu Hj).
    vm_compute. split; discriminate.
Defined.

End SimilarityScorer.

(** ** Normalization of raw skill assertions *)

Section Normalization.
Import Models JobMatching SkillFilters.

(** [v] is the largest of the weights [ws]. *)
Definition is_max_of (v : Q) (ws : list Q) : Prop :=
  In v ws ∧ Forall (fun w => w <= v) ws.

Lemma Qmax_cases (x y : Q) : Qmax x y = x ∨ Qmax x y = y.
Proof.
  unfold Qmax, GenericMinMax.gmax. destruct (x ?= y); auto.
Qed.

(** *** A loop that keeps the largest weight per key *)
Section KeepMax.
Context {A : Type} (valid : A → bool) (key : A → string) (weight : A → Q).

Definition keep_max_step (m : gmap string Q) (row : A) : gmap string Q :=
  if negb (valid row) then m
  else
    match m !! key row with
    | Some previous => <[key row := Qmax previous (weight row)]> m
    | None => <[key row := weight row]> m
    end.

(** The weights of the valid rows that normalize to [k]. *)
Definition colliding (rows : list A) (k : string) : list Q :=
  map weight (List.filter (fun row => valid row && String.eqb (key row) k) rows).

Lemma is_max_of_merge (v v0 w : Q) (ws : list Q) :
  is_max_of v (Qmax v0 w :: ws) → is_max_of v (v0 :: w :: ws).
Proof.
  intros [Hin Hall]. inversion Hall as [|? ? Hle Hrest]; subst. split.
  - destruct Hin as [<-|Hin].
    + destruct (Qmax_cases v0 w) as [->| ->]; simpl; auto.
    + simpl; auto.
  - pose proof (Q.le_max_l v0 w). pose proof (Q.le_max_r v0 w).
    repeat constructor; try lra. exact Hrest.
Qed.

Lemma keep_max_step_lookup (m : gmap string Q) (row : A) (k : string) :
  keep_max_step m row !! k
  = if valid row && String.eqb (key row) k
    then Some (match m !! k with
               | Some previous => Qmax previous (weight row)
               | None => weight row
               end)
    else m !! k.
Proof.
  unfold keep_max_step. destruct (valid row); simpl; [|reflexivity].
  destruct (String.eqb (key row) k) eqn:Ek.
  - apply String.eqb_eq in Ek. subst k.
    destruct (m !! key row); by rewrite lookup_insert_eq.
  - apply String.eqb_neq in Ek.
    destruct (m !! key row); by rewrite lookup_insert_ne.
Qed.

Lemma colliding_cons (row : A) (rows : list A) (k : string) :
  colliding (row :: rows) k
  = if valid row && String.eqb (key row) k
    then weight row :: colliding rows k
    else colliding rows k.
Proof.
  unfold colliding. simpl. by destruct (valid row && String.eqb (key row) k).
Qed.

Lemma keep_max_fold (rows : list A) (m0 : gmap string Q) (k : string) :
  match m0 !! k with
  | Some v0 =>
      ∃ v, fold_left keep_max_step rows m0 !! k = Some v
           ∧ is_max_of v (v0 :: colliding rows k)
  | None =>
      match fold_left keep_max_step rows m0 !! k with
      | Some v => is_max_of v (colliding rows k)
      | None => colliding rows k = []
      end
  end.
Proof.
  revert m0. induction rows as [|row rows IH]; intros m0.
  - simpl. destruct (m0 !! k) as [v0|] eqn:E; [|reflexivity].
    exists v0. split; [reflexivity|]. split; [simpl; auto|].
    repeat constructor. apply Qle_refl.
  - cbn [fold_left]. specialize (IH (keep_max_step m0 row)).
    rewrite keep_max_step_lookup in IH. rewrite colliding_cons.
    destruct (valid row && String.eqb (key row) k); [|exact IH].
    destruct IH as (v & Hv & Hmax).
    destruct (m0 !! k) as [v0|].
    + exists v. split; [exact Hv|]. by apply is_max_of_merge.
    + rewrite Hv. exact Hmax.
Qed.

Lemma keep_max_from_empty (rows : list A) (k : string) :
  match fold_left keep_max_step rows ∅ !! k with
  | Some v => is_max_of v (colliding rows k)
  | None => colliding rows k = []
  end.
Proof.
  pose proof (keep_max_fold rows ∅ k) as Hfold.
  by rewrite lookup_empty in Hfold.
Qed.
End KeepMax.

(** The weight a user row enters the loop with: boosted when the raw
    label is technical. *)
Definition user_row_weight (row : UserSkillEmsi) : Q :=
  if is_technical_skill (us_skill_name row)
  then Qmin 1 (us_proficiency_level row * 1.2)
  else us_proficiency_level row.

(** The same on the job side; a missing or zero importance counts as 1. *)
Definition job_row_weight (skill : JobSkillEmsi) : Q :=
  if is_technical_skill (js_skill_name skill)
  then Qmin 2 (Py.float_or (js_importance skill) 1 * 1.3)
  else Py.float_or (js_importance skill) 1.

Lemma user_skill_step_keep_max m row :
  user_skill_step m row
  = keep_max_step (fun r => is_valid_skill (us_skill_name r))
                  (fun r => normalize_skill_name (us_skill_name r))
                  user_row_weight m row.
Proof. reflexivity. Qed.

Lemma job_skill_step_keep_max m skill :
  job_skill_step m skill
  = keep_max_step (fun r => is_valid_skill (js_skill_name r))
                  (fun r => normalize_skill_name (js_skill_name r))
                  job_row_weight m skill.
Proof. reflexivity. Qed.

(** C5, as stated, on the user side: the label "Software Development" is
    valid and its canonical name "software engineering" is technical, yet
    its weight 0.5 is retained without the boost (the raw label is not
    technical). *)
Lemma boost_by_canonical_name_fails :
  let row := {| us_emsi_skill_id := "KS1"; us_skill_name := "Software Development";
                us_proficiency_level := 0.5; us_confidence := 1 |} in
  let canonical := normalize_skill_name (us_skill_name row) in
  is_valid_skill (us_skill_name row) = true
  ∧ canonical = "software engineering"
  ∧ is_technical_skill canonical = true
  ∧ _get_user_skills [row] !! canonical = Some 0.5
  ∧ ¬ (0.5 == Qmin 1 (0.5 * 1.2)).
Proof.
  vm_compute. repeat split; try reflexivity. intros E. discriminate E.
Qed.

(** C5 (amended).  During normalization the technical-skill predicate is
    applied to the raw label (lower-cased and stripped): when it matches,
    a user row's weight is multiplied by 1.2 and capped at 1.0, and a job
    row's importance (1.0 when missing or zero) is multiplied by 1.3 and
    capped at 2.0.  For each owner and each skill id, the retained weight
    is the maximum of these weights over the valid rows whose label
    normalizes to that id, and an id to which no valid row normalizes is
    absent. *)
Theorem normalization_keeps_max_boosted_weight :
  (∀ (rows : list UserSkillEmsi) (k : string),
     match _get_user_skills rows !! k with
     | Some v =>
         is_max_of v
           (colliding (fun r => is_valid_skill (us_skill_name r))
                      (fun r => normalize_skill_name (us_skill_name r))
                      user_row_weight rows k)
     | None =>
         colliding (fun r => is_valid_skill (us_skill_name r))
                   (fun r => normalize_skill_name (us_skill_name r))
                   user_row_weight rows k = []
     end)
  ∧ (∀ (job_skills : list JobSkillEmsi) (k : string),
       match job_filtered_skills job_skills !! k with
       | Some v =>
           is_max_of v
             (colliding (fun r => is_valid_skill (js_skill_name r))
                        (fun r => normalize_skill_name (js_skill_name r))
                        job_row_weight job_skills k)
       | None =>
           colliding (fun r => is_valid_skill (js_skill_name r))
                     (fun r => normalize_skill_name (js_skill_name r))
                     job_row_weight job_skills k = []
       end).
Proof.
  split.
  - intros rows k. apply keep_max_from_empty.
  - intros job_skills k. apply keep_max_from_empty.
Qed.

End Normalization.

(** ** Ranking *)

(** *** The stable descending sort *)

Section SortReverse.
Context {A K : Type} (ltb : K → K → bool) (key : A → K).
Hypothesis ltb_asym : ∀ a b, ltb a b = true → ltb b a = false.
Hypothesis geb_trans : ∀ a b c, ltb a b = false → ltb b c = false → ltb a c = false.

(** [x] may stand in front of [y]: the key of [x] is not smaller. *)
Definition not_below (x y : A) : Prop := ltb (key x) (key y) = false.

(** [x] and [k] are tied: neither key is smaller. *)
Definition tied (k : K) (x : A) : bool :=
  negb (ltb (key x) k) && negb (ltb k (key x)).

(** [a] stands somewhere in front of [b] in [l]. *)
Definition ranks_before (a b : A) (l : list A) : Prop :=
  ∃ l1 l2 l3, l = (l1 ++ a :: l2 ++ b :: l3)%list.

Lemma insert_desc_perm (x : A) (l : list A) :
  Py.insert_desc ltb key x l ≡ₚ x :: l.
Proof.
  induction l as [|y l IH]; simpl; [reflexivity|].
  destruct (ltb (key x) (key y)); [|reflexivity].
  rewrite IH. apply Permutation_swap.
Qed.

Lemma sort_reverse_perm (l : list A) : Py.sort_reverse ltb key l ≡ₚ l.
Proof.
  induction l as [|x l IH]; simpl; [reflexivity|].
  rewrite insert_desc_perm. by rewrite IH.
Qed.

Lemma insert_desc_sorted (x : A) (l : list A) :
  StronglySorted not_below l → StronglySorted not_below (Py.insert_desc ltb key x l).
Proof.
  induction 1 as [|y l Hsorted IH Hy]; simpl.
  - repeat constructor.
  - destruct (ltb (key x) (key y)) eqn:E.
    + constructor; [exact IH|].
      rewrite insert_desc_perm. constructor; [|exact Hy].
      by apply ltb_asym.
    + constructor; [by constructor|].
      constructor; [exact E|].
      eapply Forall_impl; [exact Hy|].
      intros z Hz. by apply (geb_trans _ (key y)).
Qed.

Lemma sort_reverse_sorted (l : list A) :
  StronglySorted not_below (Py.sort_reverse ltb key l).
Proof.
  induction l as [|x l IH]; simpl; [constructor|].
  by apply insert_desc_sorted.
Qed.

Lemma take_sorted (n : nat) (l : list A) :
  StronglySorted not_below l → StronglySorted not_below (take n l).
Proof.
  intros Hs. rewrite <- (take_drop n l) in Hs.
  by apply StronglySorted_app_1_l in Hs.
Qed.

(** In a sorted list, an element with a strictly greater key stands in
    front. *)
Lemma sorted_ranks_before (a b : A) (l : list A) :
  StronglySorted not_below l → a ∈ l → b ∈ l →
  ltb (key b) (key a) = true → ranks_before a b l.
Proof.
  intros Hs Ha Hb Hlt.
  apply list_elem_of_split in Hb as (l1 & l3 & ->).
  apply elem_of_app in Ha as [Ha|Ha].
  - apply list_elem_of_split in Ha as (l0 & l2 & ->).
    exists l0, l2, l3. by rewrite <- app_assoc.
  - exfalso. apply StronglySorted_app_1_r in Hs.
    inversion Hs as [|? ? _ Hall]; subst.
    apply elem_of_cons in Ha as [->|Ha].
    + apply ltb_asym in Hlt as Hno. congruence.
    + rewrite Forall_forall in Hall. specialize (Hall a Ha).
      unfold not_below in Hall. congruence.
Qed.

(** Stability: the candidates tied with a key keep their input order. *)
Lemma insert_desc_tied (k : K) (x : A) (l : list A) :
  List.filter (tied k) (Py.insert_desc ltb key x l) = List.filter (tied k) (x :: l).
Proof.
  induction l as [|y l IH]; [reflexivity|].
  cbn [Py.insert_desc]. destruct (ltb (key x) (key y)) eqn:E; [|reflexivity].
  cbn [List.filter] in *. rewrite IH.
  destruct (tied k x) eqn:Ex, (tied k y) eqn:Ey; try reflexivity.
  exfalso. unfold tied in Ex, Ey.
  apply andb_true_iff in Ex as [Ex1 Ex2]. apply andb_true_iff in Ey as [Ey1 Ey2].
  apply negb_true_iff in Ex1, Ex2, Ey1, Ey2.
  pose proof (geb_trans _ _ _ Ex1 Ey2). congruence.
Qed.

Lemma sort_reverse_stable (k : K) (l : list A) :
  List.filter (tied k) (Py.sort_reverse ltb key l) = List.filter (tied k) l.
Proof.
  induction l as [|x l IH]; [reflexivity|].
  cbn [Py.sort_reverse fold_right]. rewrite insert_desc_tied.
  cbn [List.filter]. fold (Py.sort_reverse ltb key l). by rewrite IH.
Qed.

End SortReverse.

(** *** The order on the sort keys *)

Section SortKeys.
Import JobMatching.

Ltac compare_keys :=
  repeat match goal with
    | |- context [Nat.compare ?x ?y] => destruct (Nat.compare_spec x y)
    | |- context [Qcompare ?x ?y] => destruct (Qcompare_spec x y)
    | H : context [Nat.compare ?x ?y] |- _ => destruct (Nat.compare_spec x y)
    | H : context [Qcompare ?x ?y] |- _ => destruct (Qcompare_spec x y)
    end;
  try discriminate; try reflexivity;
  try (exfalso; lia); try (exfalso; lra); try lia.

Lemma key_ltb_irrefl (a : SortKey) : key_ltb a a = false.
Proof. destruct a as [[[m s] j] u]. simpl. compare_keys. Qed.

Lemma key_ltb_asym (a b : SortKey) : key_ltb a b = true → key_ltb b a = false.
Proof.
  destruct a as [[[m1 s1] j1] u1], b as [[[m2 s2] j2] u2]. simpl.
  intros Hab. compare_keys.
Qed.

Lemma key_ltb_trans (a b c : SortKey) :
  key_ltb a b = true → key_ltb b c = true → key_ltb a c = true.
Proof.
  destruct a as [[[m1 s1] j1] u1], b as [[[m2 s2] j2] u2], c as [[[m3 s3] j3] u3].
  simpl. intros Hab Hbc. compare_keys.
Qed.

Lemma key_geb_trans (a b c : SortKey) :
  key_ltb a b = false → key_ltb b c = false → key_ltb a c = false.
Proof.
  destruct a as [[[m1 s1] j1] u1], b as [[[m2 s2] j2] u2], c as [[[m3 s3] j3] u3].
  simpl. intros Hab Hbc. compare_keys.
Qed.

(** Two keys are tied exactly when they agree in every component. *)
Lemma key_tied_iff (m1 m2 : nat) (s1 s2 : Q) (j1 j2 : nat) (u1 u2 : Z) :
  key_ltb (m1, s1, j1, u1) (m2, s2, j2, u2) = false
  ∧ key_ltb (m2, s2, j2, u2) (m1, s1, j1, u1) = false
  ↔ m1 = m2 ∧ s1 == s2 ∧ j1 = j2 ∧ u1 = u2.
Proof.
  simpl. split.
  - intros [Hab Hba]. compare_keys.
    repeat split; try assumption. lia.
  - intros (-> & Hs & -> & ->). compare_keys.
Qed.

Lemma float_ltb_asym (a b : Q) : Py.ltb a b = true → Py.ltb b a = false.
Proof. rewrite ltb_spec, ltb_false. lra. Qed.

Lemma float_geb_trans (a b c : Q) :
  Py.ltb a b = false → Py.ltb b c = false → Py.ltb a c = false.
Proof. rewrite !ltb_false. lra. Qed.

End SortKeys.

(** *** The ranked lists *)

Section Ranking.
Import Models JobMatching.

Lemma match_job_floor cosine_similarity user_skills job_data m :
  m ∈ match_job cosine_similarity user_skills job_data →
  job_id m = jp_id (jd_job job_data)
  ∧ matching_skills m = elements (dom user_skills ∩ dom (jd_skills job_data) : gset string)
  ∧ (2 <= size (dom user_skills ∩ dom (jd_skills job_data) : gset string))%nat.
Proof.
  unfold match_job. cbv zeta.
  destruct (_ <? 2)%nat eqn:E; [by intros ?%elem_of_nil|].
  intros ->%list_elem_of_singleton. simpl.
  apply Nat.ltb_ge in E. simpl in E. rewrite length_elements in E. done.
Qed.

Lemma match_job_excluded cosine_similarity user_skills job_data :
  (size (dom user_skills ∩ dom (jd_skills job_data) : gset string) < 2)%nat →
  match_job cosine_similarity user_skills job_data = [].
Proof.
  intros Hlt. unfold match_job. cbv zeta. simpl. rewrite length_elements.
  apply Nat.ltb_lt in Hlt. by rewrite Hlt.
Qed.

Lemma match_user_to_jobs_from cosine_similarity user_rows jobs limit m :
  m ∈ match_user_to_jobs cosine_similarity user_rows jobs limit →
  ∃ job_data, job_data ∈ _get_jobs_with_skills jobs
              ∧ m ∈ match_job cosine_similarity (_get_user_skills user_rows) job_data.
Proof.
  unfold match_user_to_jobs. cbv zeta.
  destruct (decide _); [by intros ?%elem_of_nil|].
  destruct (_get_jobs_with_skills jobs) as [|jd0 jds] eqn:Ejobs;
    [by intros ?%elem_of_nil|].
  intros Hm. apply elem_of_take in Hm as (i & Hi & _).
  apply list_elem_of_lookup_2 in Hi.
  rewrite sort_reverse_perm in Hi.
  apply list_elem_of_In, in_flat_map in Hi as (job_data & Hjd & Hin).
  exists job_data. by rewrite <- !list_elem_of_In in *.
Qed.

Lemma match_user_to_jobs_sorted cosine_similarity user_rows jobs limit :
  StronglySorted (not_below key_ltb sort_key)
    (match_user_to_jobs cosine_similarity user_rows jobs limit).
Proof.
  unfold match_user_to_jobs. cbv zeta.
  destruct (decide _); [constructor|].
  destruct (_get_jobs_with_skills jobs); [constructor|].
  apply take_sorted, sort_reverse_sorted.
  - apply key_ltb_asym.
  - apply key_geb_trans.
Qed.

Lemma get_job_matches_sorted job_matches job_postings user_skill_count user_id limit :
  StronglySorted (not_below key_ltb result_sort_key)
    (get_job_matches job_matches job_postings user_skill_count user_id limit).
Proof.
  unfold get_job_matches. cbv zeta.
  apply take_sorted, sort_reverse_sorted.
  - apply key_ltb_asym.
  - apply key_geb_trans.
Qed.

(** [a] has 3 matching skills and score 0.5, [b] has 2 matching skills
    and score 0.9. *)
Definition three_at_half_two_at_nine_tenths (a b : SortKey) : Prop :=
  a.1.1.1 = 3%nat ∧ a.1.1.2 == 0.5 ∧ b.1.1.1 = 2%nat ∧ b.1.1.2 == 0.9.

Lemma three_matches_outrank_two (a b : SortKey) :
  three_at_half_two_at_nine_tenths a b → key_ltb b a = true.
Proof.
  destruct a as [[[m1 s1] j1] u1], b as [[[m2 s2] j2] u2].
  intros (Ha & _ & Hb & _). simpl in *. subst. reflexivity.
Qed.

(** The input of the runs below: a user with two skills and two jobs
    that ask for the same two skills.  The skill vectors of the user,
    [(0.6, 0.6)], and of either job, [(1.3, 1.3)], are parallel, so the
    cosine is 1. *)
Definition two_skill_user : list UserSkillEmsi :=
  [ {| us_emsi_skill_id := "KS1"; us_skill_name := "Python";
       us_proficiency_level := 0.5; us_confidence := 1 |};
    {| us_emsi_skill_id := "KS2"; us_skill_name := "SQL";
       us_proficiency_level := 0.5; us_confidence := 1 |} ].

Definition python_sql_rows : list JobSkillEmsi :=
  [ {| js_emsi_skill_id := "KS1"; js_skill_name := "Python"; js_importance := Some 1 |};
    {| js_emsi_skill_id := "KS2"; js_skill_name := "SQL"; js_importance := Some 1 |} ].

Definition twin_jobs : list (JobPosting * list JobSkillEmsi) :=
  [ (posting 1 "Data Engineer", python_sql_rows);
    (posting 2 "Backend Engineer", python_sql_rows) ].

(** C1, as stated: the two candidates of [twin_jobs] are different, and
    neither precedes the other in the tuple order. *)
Lemma tuple_order_not_total_on_candidates :
  ∃ a b,
    match_user_to_jobs (fun _ _ => 1) two_skill_user twin_jobs 50 = [a; b]
    ∧ a ≠ b
    ∧ key_ltb (sort_key a) (sort_key b) = false
    ∧ key_ltb (sort_key b) (sort_key a) = false.
Proof.
  eexists _, _. split; [vm_compute; reflexivity|].
  split; [|split; vm_compute; reflexivity].
  intros E. apply (f_equal job_id) in E. vm_compute in E. discriminate E.
Qed.

(** C1 (amended).  The lists returned by [match_user_to_jobs] and by
    [get_job_matches] are sorted in descending lexicographic order of the
    tuple (count of matching skill ids, overall similarity score, count of
    job skill ids, negated count of user skill ids): no candidate stands
    in front of one with a greater tuple.  The tuple order is a strict
    weak order: it is irreflexive, asymmetric and transitive, being not
    smaller is transitive, and two candidates that it does not separate
    agree in all four components.  A candidate with 3 matching skills and
    score 0.5 stands in front of a candidate with 2 matching skills and
    score 0.9. *)
Theorem match_lists_sorted_by_tuple :
  (∀ cosine_similarity user_rows jobs limit,
     StronglySorted (not_below key_ltb sort_key)
       (match_user_to_jobs cosine_similarity user_rows jobs limit))
  ∧ (∀ job_matches job_postings user_skill_count user_id limit,
       StronglySorted (not_below key_ltb result_sort_key)
         (get_job_matches job_matches job_postings user_skill_count user_id limit))
  ∧ (∀ a, key_ltb a a = false)
  ∧ (∀ a b, key_ltb a b = true → key_ltb b a = false)
  ∧ (∀ a b c, key_ltb a b = true → key_ltb b c = true → key_ltb a c = true)
  ∧ (∀ a b c, key_ltb a b = false → key_ltb b c = false → key_ltb a c = false)
  ∧ (∀ m1 m2 s1 s2 j1 j2 u1 u2,
       key_ltb (m1, s1, j1, u1) (m2, s2, j2, u2) = false
       ∧ key_ltb (m2, s2, j2, u2) (m1, s1, j1, u1) = false
       ↔ m1 = m2 ∧ s1 == s2 ∧ j1 = j2 ∧ u1 = u2)
  ∧ (∀ cosine_similarity user_rows jobs limit a b,
       let out := match_user_to_jobs cosine_similarity user_rows jobs limit in
       a ∈ out → b ∈ out →
       three_at_half_two_at_nine_tenths (sort_key a) (sort_key b) →
       ranks_before a b out)
  ∧ (∀ job_matches job_postings user_skill_count user_id limit a b,
       let out :=
         get_job_matches job_matches job_postings user_skill_count user_id limit in
       a ∈ out → b ∈ out →
       three_at_half_two_at_nine_tenths (result_sort_key a) (result_sort_key b) →
       ranks_before a b out).
Proof.
  split; [intros; apply match_user_to_jobs_sorted|].
  split; [intros; apply get_job_matches_sorted|].
  split; [apply key_ltb_irrefl|].
  split; [apply key_ltb_asym|].
  split; [apply key_ltb_trans|].
  split; [apply key_geb_trans|].
  split; [apply key_tied_iff|].
  split.
  - intros cosine_similarity user_rows jobs limit a b out Ha Hb Hab.
    apply (sorted_ranks_before key_ltb sort_key key_ltb_asym); try done.
    + apply match_user_to_jobs_sorted.
    + by apply three_matches_outrank_two.
  - intros job_matches job_postings user_skill_count user_id limit a b out Ha Hb Hab.
    apply (sorted_ranks_before key_ltb result_sort_key key_ltb_asym); try done.
    + apply get_job_matches_sorted.
    + by apply three_matches_outrank_two.
Qed.

(** Two stored matches of user 7, in the order the table returns them:
    2 matching skills at score 0.9, then 3 matching skills at score 0.5. *)
Definition stored_match (id : nat) (job : Z) (score : Q) (matching missing : list string)
  : JobMatch :=
  {| jm_id := id; jm_user_id := 7; jm_job_id := job;
     jm_alignment_score := None; jm_similarity_score := Some score;
     jm_jaccard_score := None; jm_cosine_score := None; jm_weighted_score := None;
     jm_skill_coverage := None; jm_algorithm_version := "v1";
     jm_missing_skills := Some (map JStr missing);
     jm_matched_skills := None;
     jm_matching_skills := Some (map JStr matching) |}.

Definition stored_matches : list JobMatch :=
  [ stored_match 1 1 0.9 ["python"; "sql"] ["aws"];
    stored_match 2 2 0.5 ["python"; "sql"; "aws"] [] ].

Definition stored_postings : list JobPosting :=
  [ posting 1 "Data Engineer"; posting 2 "Backend Engineer" ].

(** A run of C1: the stored match with 3 matching skills and score 0.5
    is returned in front of the one with 2 matching skills and score
    0.9. *)
Lemma match_lists_sorted_by_tuple_witness :
  ∃ a b,
    get_job_matches stored_matches stored_postings 3 7 20 = [a; b]
    ∧ mr_job_id a = 2%Z ∧ mr_job_id b = 1%Z
    ∧ ranks_before a b (get_job_matches stored_matches stored_postings 3 7 20).
Proof.
  eexists _, _. split; [vm_compute; reflexivity|].
  split; [reflexivity|]. split; [reflexivity|].
  apply (match_lists_sorted_by_tuple).
  - vm_compute. apply list_elem_of_here.
  - vm_compute. apply list_elem_of_further, list_elem_of_here.
  - vm_compute. repeat split; reflexivity.
Defined.

(** Job 10 asks for five skills, of which user 7 has one. *)
Definition five_skill_job : list JobSkillV2 :=
  map (fun id => {| jk_job_id := 10; jk_skill_id := id; jk_importance := Some 1 |})
      [1; 2; 3; 4; 5]%Z
  ++ [ {| jk_job_id := 11; jk_skill_id := 6; jk_importance := Some 1 |} ].

(** C4, as stated, on the vector-space matcher: the pair of user 7 and
    job 10 overlaps in one skill id, and job 10 is returned. *)
Lemma single_overlap_is_returned_by_vector_space_matcher :
  ∃ m,
    TFIDF.compute_matches library_run catalogue five_skill_job one_skill_user
      [posting 10 "Platform Engineer"; posting 11 "Bookkeeper"] 7 50 = [m]
    ∧ TFIDF.m_job_id m = 10%Z
    ∧ TFIDF.m_matching_skills m = [1%Z]
    ∧ TFIDF.m_total_job_skills m = 5%nat
    ∧ TFIDF.m_skill_coverage m == 1 # 5.
Proof.
  eexists. split; [vm_compute; reflexivity|].
  repeat split; reflexivity.
Qed.

(** The only floor of the vector-space matcher: the similarity. *)
Lemma compute_matches_floor tfidf_similarities skills job_skills_v2 user_skills jobs
    user_id limit m :
  m ∈ TFIDF.compute_matches tfidf_similarities skills job_skills_v2 user_skills jobs
        user_id limit →
  0.01 < TFIDF.m_similarity_score m.
Proof.
  unfold TFIDF.compute_matches.
  destruct (TFIDF._create_job_skill_documents _ _ _) as [|doc docs];
    [by intros ?%elem_of_nil|].
  destruct (TFIDF.user_text _ _ _) as [text|]; [|by intros ?%elem_of_nil].
  destruct (tfidf_similarities _ _) as [similarities|]; [|by intros ?%elem_of_nil].
  intros Hm. apply elem_of_take in Hm as (i & Hi & _).
  apply list_elem_of_lookup_2 in Hi. rewrite sort_reverse_perm in Hi.
  apply list_elem_of_In, in_flat_map in Hi as ([job_doc similarity] & _ & Hin).
  unfold TFIDF.match_of in Hin.
  destruct (Py.ltb 0.01 similarity) eqn:E; [|destruct Hin].
  destruct Hin as [<-|[]]. simpl. by apply ltb_spec.
Qed.

(** C4 (amended).  In the pairwise matcher ([match_user_to_jobs]) every
    returned match stems from a job whose normalized skill set shares at
    least 2 skill ids with the user's; a pair that shares fewer than 2
    yields no match, whatever its scores; in particular a pair with 1
    shared id and a job of 5 skills yields no match although its coverage
    is positive.  The vector-space matcher ([compute_matches]) returns
    only jobs whose similarity exceeds 0.01. *)
Theorem pairwise_matcher_needs_two_matching_skills :
  ∀ cosine_similarity user_rows jobs limit,
    let user_skills := _get_user_skills user_rows in
    (∀ m, m ∈ match_user_to_jobs cosine_similarity user_rows jobs limit →
          (2 <= length (matching_skills m))%nat
          ∧ ∃ job_data,
              job_data ∈ _get_jobs_with_skills jobs
              ∧ job_id m = jp_id (jd_job job_data)
              ∧ (2 <= size (dom user_skills ∩ dom (jd_skills job_data) : gset string))%nat)
    ∧ (∀ job_data,
         (size (dom user_skills ∩ dom (jd_skills job_data) : gset string) < 2)%nat →
         match_job cosine_similarity user_skills job_data = [])
    ∧ (∀ job_data,
         size (dom user_skills ∩ dom (jd_skills job_data) : gset string) = 1%nat →
         size (dom (jd_skills job_data) : gset string) = 5%nat →
         match_job cosine_similarity user_skills job_data = []
         ∧ 0 < ga_coverage (_analyze_skill_gaps user_skills (jd_skills job_data)))
    ∧ (∀ tfidf_similarities skills job_skills_v2 user_skills_v2 postings user_id m,
         m ∈ TFIDF.compute_matches tfidf_similarities skills job_skills_v2
               user_skills_v2 postings user_id limit →
         0.01 < TFIDF.m_similarity_score m).
Proof.
  intros cosine_similarity user_rows jobs limit user_skills.
  split; [|split; [|split]];
    [| | |intros; by eapply compute_matches_floor].
  - intros m Hm.
    apply match_user_to_jobs_from in Hm as (job_data & Hjd & Hm).
    apply match_job_floor in Hm as (Hid & Hmatching & Hsize).
    split.
    + rewrite Hmatching, length_elements. exact Hsize.
    + by exists job_data.
  - intros job_data Hlt. by apply match_job_excluded.
  - intros job_data Hone Hfive. split.
    + apply match_job_excluded. lia.
    + unfold _analyze_skill_gaps. cbv zeta. simpl.
      destruct (decide _) as [Hempty|_].
      * rewrite Hempty, size_empty in Hfive. discriminate.
      * rewrite length_elements, Hone, Hfive. reflexivity.
Qed.

(** A run of C4: both matches of [twin_jobs] share two skill ids with
    the user. *)
Lemma pairwise_matcher_needs_two_matching_skills_witness :
  ∃ a b,
    match_user_to_jobs (fun _ _ => 1) two_skill_user twin_jobs 50 = [a; b]
    ∧ (2 <= length (matching_skills a))%nat
    ∧ (2 <= length (matching_skills b))%nat.
Proof.
  eexists _, _. split; [vm_compute; reflexivity|].
  destruct (pairwise_matcher_needs_two_matching_skills
              (fun _ _ => 1) two_skill_user twin_jobs 50) as [Hfloor _].
  split.
  - apply Hfloor. vm_compute. apply list_elem_of_here.
  - apply Hfloor. vm_compute. apply list_elem_of_further, list_elem_of_here.
Defined.

End Ranking.

(** ** Industry alignment *)

Section Alignment.
Import SkillAlignment SkillFilters.

(** The importance a matched skill is scored with. *)
Definition scored_importance (info : IndustrySkillInfo) : Q :=
  if is_technical_skill (i_name info) then importance info * 1.2 else importance info.

(** The score of one industry skill: 0 when the user lacks it. *)
Definition skill_score (user_skills : gmap string UserSkillInfo)
    (item : string * IndustrySkillInfo) : Q :=
  match user_skills !! item.1 with
  | Some user_skill =>
      proficiency user_skill * scored_importance item.2 * confidence user_skill
  | None => 0
  end.

Definition has_skill (user_skills : gmap string UserSkillInfo)
    (item : string * IndustrySkillInfo) : bool :=
  bool_decide (is_Some (user_skills !! item.1)).

(** The industry skills the user has. *)
Definition matched_items (user_skills : gmap string UserSkillInfo)
    (industry_skills : gmap string IndustrySkillInfo) : list (string * IndustrySkillInfo) :=
  List.filter (has_skill user_skills) (map_to_list industry_skills).

Definition alignment_numerator (user_skills : gmap string UserSkillInfo)
    (industry_skills : gmap string IndustrySkillInfo) : Q :=
  Py.sum (map (skill_score user_skills) (matched_items user_skills industry_skills)).

(** The denominator sums the importances as they are. *)
Definition alignment_denominator (industry_skills : gmap string IndustrySkillInfo) : Q :=
  Py.sum (map (fun item => importance item.2) (map_to_list industry_skills)).

Definition few_matches_factor (matched : nat) : Q :=
  if (matched <? 3)%nat then inject_Z (Z.of_nat matched) / 3 else 1.

(** The alignment in closed form. *)
Definition alignment_formula (user_skills : gmap string UserSkillInfo)
    (industry_skills : gmap string IndustrySkillInfo) : Q :=
  let quotient :=
    if Py.ltb 0 (alignment_denominator industry_skills)
    then alignment_numerator user_skills industry_skills
         / alignment_denominator industry_skills
    else 0 in
  Qmin 1 (quotient
          * few_matches_factor (length (matched_items user_skills industry_skills))).

(** The formula C3 states: the technical boost in the denominator. *)
Definition stated_alignment (user_skills : gmap string UserSkillInfo)
    (industry_skills : gmap string IndustrySkillInfo) : Q :=
  let numerator :=
    Py.sum (map (fun item =>
                   match user_skills !! item.1 with
                   | Some user_skill =>
                       proficiency user_skill * importance item.2 * confidence user_skill
                   | None => 0
                   end)
                (matched_items user_skills industry_skills)) in
  let denominator :=
    Py.sum (map (fun item => scored_importance item.2) (map_to_list industry_skills)) in
  Qmin 1 (Qmax 0 (numerator / denominator
                  * few_matches_factor
                      (length (matched_items user_skills industry_skills)))).

Definition user_weights_nonneg (user_skills : gmap string UserSkillInfo) : Prop :=
  ∀ k u, user_skills !! k = Some u → 0 <= proficiency u ∧ 0 <= confidence u.

Definition importances_nonneg (industry_skills : gmap string IndustrySkillInfo) : Prop :=
  ∀ k info, industry_skills !! k = Some info → 0 <= importance info.

Lemma alignment_step_matched user_skills a b n item :
  has_skill user_skills item = true →
  alignment_step user_skills (a, b, n) item
  = (a + skill_score user_skills item, b + importance item.2, S n).
Proof.
  destruct item as [k info]. unfold has_skill, alignment_step, skill_score. simpl.
  intros Hhas. apply bool_decide_eq_true in Hhas as [u Eu]. by rewrite Eu.
Qed.

Lemma alignment_step_unmatched user_skills a b n item :
  has_skill user_skills item = false →
  alignment_step user_skills (a, b, n) item = (a, b + importance item.2, n).
Proof.
  destruct item as [k info]. unfold has_skill, alignment_step. simpl.
  intros Hhas. apply bool_decide_eq_false in Hhas.
  destruct (user_skills !! k) as [u|] eqn:Eu; [|reflexivity].
  exfalso. apply Hhas. eauto.
Qed.

Lemma alignment_fold (user_skills : gmap string UserSkillInfo)
    (l : list (string * IndustrySkillInfo)) (a b : Q) (n : nat) :
  let r := fold_left (alignment_step user_skills) l (a, b, n) in
  r.1.1 == a + Py.sum (map (skill_score user_skills) (List.filter (has_skill user_skills) l))
  ∧ r.1.2 == b + Py.sum (map (fun item => importance item.2) l)
  ∧ r.2 = (n + length (List.filter (has_skill user_skills) l))%nat.
Proof.
  revert a b n. induction l as [|item l IH]; intros a b n.
  - simpl. repeat split; try ring. lia.
  - cbn [fold_left List.filter]. destruct (has_skill user_skills item) eqn:Ehas.
    + rewrite alignment_step_matched by exact Ehas.
      destruct (IH (a + skill_score user_skills item) (b + importance item.2) (S n))
        as (Ha & Hb & Hn).
      cbv zeta. rewrite Ha, Hb, Hn. simpl. repeat split; try ring. lia.
    + rewrite alignment_step_unmatched by exact Ehas.
      destruct (IH a (b + importance item.2) n) as (Ha & Hb & Hn).
      cbv zeta. rewrite Ha, Hb, Hn. simpl. repeat split; try ring.
Qed.

Lemma calculate_industry_alignment_closed user_skills industry_skills :
  _calculate_industry_alignment user_skills industry_skills
  == alignment_formula user_skills industry_skills.
Proof.
  unfold _calculate_industry_alignment, alignment_formula.
  pose proof (alignment_fold user_skills (map_to_list industry_skills) 0 0 0) as Hfold.
  destruct (fold_left _ _ _) as [[total_score max_possible_score] matched_skills].
  simpl in Hfold. destruct Hfold as (Ht & Hm & Hn).
  rewrite Qplus_0_l in Ht, Hm.
  fold (matched_items user_skills industry_skills) in Ht, Hn.
  fold (alignment_numerator user_skills industry_skills) in Ht.
  fold (alignment_denominator industry_skills) in Hm.
  cbv zeta. subst matched_skills. unfold few_matches_factor.
  assert (Hlt : Py.ltb 0 max_possible_score
                = Py.ltb 0 (alignment_denominator industry_skills)).
  { destruct (Py.ltb 0 (alignment_denominator industry_skills)) eqn:E.
    - apply ltb_spec. apply ltb_spec in E. lra.
    - apply ltb_false. apply ltb_false in E. lra. }
  rewrite Hlt.
  destruct (Py.ltb 0 (alignment_denominator industry_skills));
    destruct (_ <? 3)%nat; rewrite ?Ht, ?Hm; apply Q.min_compat; try reflexivity; ring.
Qed.

Lemma skill_score_nonneg user_skills industry_skills item :
  user_weights_nonneg user_skills → importances_nonneg industry_skills →
  item ∈ map_to_list industry_skills → 0 <= skill_score user_skills item.
Proof.
  intros Hu Hi Hitem. destruct item as [k info].
  apply elem_of_map_to_list in Hitem. specialize (Hi k info Hitem).
  unfold skill_score, scored_importance. simpl.
  destruct (user_skills !! k) as [u|] eqn:Eu; [|apply Qle_refl].
  destruct (Hu k u Eu) as [Hp Hc].
  destruct (is_technical_skill (i_name info)).
  - assert (0 <= importance info * 1.2) by lra.
    apply Qmult_le_0_compat; [apply Qmult_le_0_compat|]; assumption.
  - apply Qmult_le_0_compat; [apply Qmult_le_0_compat|]; assumption.
Qed.

Lemma few_matches_factor_nonneg n : 0 <= few_matches_factor n.
Proof.
  unfold few_matches_factor. destruct (n <? 3)%nat; [|discriminate].
  apply Qle_shift_div_l; [reflexivity|]. rewrite Qmult_0_l.
  change 0 with (inject_Z 0). rewrite <- Zle_Qle. lia.
Qed.

Lemma alignment_numerator_nonneg user_skills industry_skills :
  user_weights_nonneg user_skills → importances_nonneg industry_skills →
  0 <= alignment_numerator user_skills industry_skills.
Proof.
  intros Hu Hi. unfold alignment_numerator, matched_items.
  apply sum_nonneg. apply Forall_forall. intros x Hx.
  apply list_elem_of_In, in_map_iff in Hx as (item & <- & Hitem).
  apply filter_In in Hitem as [Hitem _].
  apply (skill_score_nonneg user_skills industry_skills); try assumption.
  by apply list_elem_of_In.
Qed.

Lemma filter_none {A} (p : A → bool) (l : list A) :
  (∀ x, x ∈ l → p x = false) → List.filter p l = [].
Proof.
  induction l as [|x l IH]; intros Hp; [reflexivity|].
  cbn [List.filter]. rewrite (Hp x) by left.
  apply IH. intros y Hy. apply Hp. by right.
Qed.

Lemma no_shared_skill_no_match user_skills industry_skills :
  (∀ k, is_Some (industry_skills !! k) → user_skills !! k = None) →
  matched_items user_skills industry_skills = [].
Proof.
  intros Hnone. apply filter_none. intros [k info] Hitem.
  apply elem_of_map_to_list in Hitem.
  unfold has_skill. simpl. rewrite (Hnone k) by eauto.
  apply bool_decide_eq_false_2. intros [? ?]. discriminate.
Qed.

(** The input of the runs below: three technical skills of importance 1,
    which the user has at proficiency 0.5 with full confidence. *)
Definition half_proficient_user : gmap string UserSkillInfo :=
  <["KS1" := {| u_name := "Python"; proficiency := 0.5; confidence := 1 |}]>
  (<["KS2" := {| u_name := "Java"; proficiency := 0.5; confidence := 1 |}]>
  (<["KS3" := {| u_name := "SQL"; proficiency := 0.5; confidence := 1 |}]> ∅)).

Definition technical_industry : gmap string IndustrySkillInfo :=
  <["KS1" := {| i_name := "Python"; importance := 1 |}]>
  (<["KS2" := {| i_name := "Java"; importance := 1 |}]>
  (<["KS3" := {| i_name := "SQL"; importance := 1 |}]> ∅)).

(** C3, as stated: with the boost in the denominator the alignment would
    be [1.5 / 3.6]; the code returns [1.8 / 3]. *)
Lemma technical_boost_not_in_denominator :
  _calculate_industry_alignment half_proficient_user technical_industry == 3 # 5
  ∧ stated_alignment half_proficient_user technical_industry == 5 # 12
  ∧ ¬ (_calculate_industry_alignment half_proficient_user technical_industry
       == stated_alignment half_proficient_user technical_industry).
Proof.
  vm_compute. repeat split; try reflexivity. intros E. discriminate E.
Qed.

(** C3 (amended).  The industry alignment score equals the sum of
    [user_proficiency(s) * importance(s) * confidence(s)] over the industry
    skills the user has, where the importance of a technical skill is
    multiplied by 1.2 in this sum, divided by the sum of the importances of
    all the industry's skills as they are (0 when that sum is not
    positive); if fewer than 3 industry skills matched, the quotient is
    scaled by [matched / 3]; the result is clamped to at most 1, is at least
    0 for non-negative proficiencies, confidences and importances, and is 0
    whenever the user has none of the industry's skills. *)
Theorem industry_alignment_formula_and_range :
  ∀ (user_skills : gmap string UserSkillInfo)
    (industry_skills : gmap string IndustrySkillInfo),
    _calculate_industry_alignment user_skills industry_skills
    == alignment_formula user_skills industry_skills
    ∧ _calculate_industry_alignment user_skills industry_skills <= 1
    ∧ (user_weights_nonneg user_skills → importances_nonneg industry_skills →
       0 <= _calculate_industry_alignment user_skills industry_skills)
    ∧ ((∀ k, is_Some (industry_skills !! k) → user_skills !! k = None) →
       _calculate_industry_alignment user_skills industry_skills == 0).
Proof.
  intros user_skills industry_skills.
  pose proof (calculate_industry_alignment_closed user_skills industry_skills) as Hclosed.
  split; [exact Hclosed|]. rewrite Hclosed. unfold alignment_formula. cbv zeta.
  split; [apply Q.le_min_l|]. split.
  - intros Hu Hi. apply Q.min_glb; [discriminate|].
    apply Qmult_le_0_compat; [|apply few_matches_factor_nonneg].
    destruct (Py.ltb 0 (alignment_denominator industry_skills)) eqn:E;
      [|apply Qle_refl].
    apply ltb_spec in E. apply Qle_shift_div_l; [exact E|].
    rewrite Qmult_0_l. by apply alignment_numerator_nonneg.
  - intros Hnone. rewrite (no_shared_skill_no_match _ _ Hnone).
    unfold few_matches_factor. simpl.
    change (inject_Z (Z.of_nat 0)) with 0.
    match goal with
    | |- Qmin 1 (?q * _) == 0 =>
        assert (Hzero : q * (0 / 3) == 0) by field; rewrite Hzero
    end.
    apply Q.min_r. discriminate.
Qed.

(** A run of C3 on [half_proficient_user] and [technical_industry]. *)
Lemma industry_alignment_formula_and_range_witness :
  0 <= _calculate_industry_alignment half_proficient_user technical_industry
  ∧ _calculate_industry_alignment half_proficient_user technical_industry == 0.6.
Proof.
  split; [|vm_compute; reflexivity].
  apply (industry_alignment_formula_and_range half_proficient_user technical_industry).
  - intros k u. unfold half_proficient_user. rewrite !lookup_insert.
    repeat case_decide; intros E; inversion E; subst; simpl; split; discriminate.
  - intros k info. unfold technical_industry. rewrite !lookup_insert.
    repeat case_decide; intros E; inversion E; subst; simpl; discriminate.
Defined.

End Alignment.

(** ** Documents of the vector-space matcher *)

Section Documents.
Import Models TFIDF PyStr.







(** The terms one row of the user contributes. *)
Definition user_row_terms (skills : list SkillV2) (user_skill : UserSkill) : list string :=
  match find_skill skills (uk_skill_id user_skill) with
  | Some skill =>
      skill_terms (sk_name skill)
        (Z.to_nat (Z.max 1 (Py.int (uk_proficiency_level user_skill
                                    * uk_confidence user_skill * 5))))
  | None => []
  end.


Lemma user_document_fold skills rows names :
  fold_left (user_document_step skills) rows names
  = (names ++ flat_map (user_row_terms skills) rows)%list.
Proof.
  revert names. induction rows as [|row rows IH]; intros names.
  - simpl. by rewrite app_nil_r.
  - cbn [fold_left flat_map]. unfold user_document_step at 2, user_row_terms at 1.
    destruct (find_skill skills (uk_skill_id row)) as [skill|].
    + rewrite IH. by rewrite <- app_assoc.
    + by rewrite IH.
Qed.









End Documents.

(** ** Saving matches *)

Section Saving.
Import Models Session.

Lemma run_bind {A B} (m : M A) (k : A → M B) (s : Session) :
  (m ≫= k) s
  = match m s with
    | (Ok a, s') => k a s'
    | (Raise e, s') => (Raise e, s')
    end.
Proof. reflexivity. Qed.

(** The session after gap rows were added to the open transaction. *)
Definition with_gaps (s : Session) (gaps : list SkillGap) : Session :=
  {| committed := committed s;
     pending := {| job_matches := job_matches (pending s);
                   skill_gaps := (skill_gaps (pending s) ++ gaps)%list |};
     next_id := next_id s |}.

(** A step that adds gap rows at most and never raises. *)
Definition adds_gaps_only {A} (extra : nat → A → M unit) : Prop :=
  ∀ id a s, ∃ gaps, extra id a s = (Ok tt, with_gaps s gaps).

(** The shape both saves share. *)
Definition save_loop {A} (F : Faults) (row : A → nat → JobMatch)
    (extra : nat → A → M unit) (matches : list A) (count : nat) : M nat :=
  for_each
    (fun saved_count match_data =>
       id ← add_and_flush F (row match_data);
       extra id match_data;;
       mret (S saved_count))
    matches count.

Definition save_with {A} (F : Faults) (row : A → nat → JobMatch)
    (extra : nat → A → M unit) (user_id : Z) (matches : list A) : M nat :=
  try_except
    (delete_matches (delete_fails F) user_id;;
     saved_count ← save_loop F row extra matches 0%nat;
     commit F;;
     mret saved_count)
    (fun _ => rollback F;; mret 0%nat).

(** The rows a save inserts: one per match, with consecutive ids. *)
Fixpoint new_rows {A} (row : A → nat → JobMatch) (matches : list A) (id : nat)
  : list JobMatch :=
  match matches with
  | [] => []
  | match_data :: rest => row match_data id :: new_rows row rest (S id)
  end.

Definition flushes_ok {A} (F : Faults) (row : A → nat → JobMatch) (matches : list A) : bool :=
  forallb (fun match_data => negb (flush_fails F (jm_job_id (row match_data 0%nat)))) matches.

(** No statement of the save itself fails. *)
Definition persistence_ok {A} (F : Faults) (row : A → nat → JobMatch)
    (matches : list A) : bool :=
  negb (delete_fails F) && flushes_ok F row matches && negb (commit_fails F).

Section SaveWith.
Context {A : Type} (F : Faults) (row : A → nat → JobMatch) (extra : nat → A → M unit).
Hypothesis row_job_id : ∀ a id id', jm_job_id (row a id) = jm_job_id (row a id').
Variable owner : Z.
Hypothesis row_user_id : ∀ a id, jm_user_id (row a id) = owner.
Hypothesis extra_quiet : adds_gaps_only extra.

Lemma save_loop_cons (a : A) (matches : list A) (count : nat) (s : Session) :
  save_loop F row extra (a :: matches) count s
  = match add_and_flush F (row a) s with
    | (Ok id, s1) =>
        match extra id a s1 with
        | (Ok _, s2) => save_loop F row extra matches (S count) s2
        | (Raise e, s2) => (Raise e, s2)
        end
    | (Raise e, s1) => (Raise e, s1)
    end.
Proof.
  unfold save_loop. cbn [for_each]. rewrite run_bind, run_bind.
  destruct (add_and_flush F (row a) s) as [[id|e] s1]; [|reflexivity].
  rewrite run_bind. by destruct (extra id a s1) as [[[]|e] s2].
Qed.

Lemma add_and_flush_run (a : A) (s : Session) :
  add_and_flush F (row a) s
  = if flush_fails F (jm_job_id (row a 0%nat)) then (Raise "flush", s)
    else (Ok (next_id s),
          {| committed := committed s;
             pending := {| job_matches := (job_matches (pending s)
                                           ++ [row a (next_id s)])%list;
                           skill_gaps := skill_gaps (pending s) |};
             next_id := S (next_id s) |}).
Proof. unfold add_and_flush. by rewrite (row_job_id a (next_id s) 0%nat). Qed.

Lemma save_loop_ok (matches : list A) (count : nat) (s : Session) :
  flushes_ok F row matches = true →
  ∃ gaps,
    save_loop F row extra matches count s
    = (Ok (count + length matches)%nat,
       {| committed := committed s;
          pending := {| job_matches :=
                          (job_matches (pending s) ++ new_rows row matches (next_id s))%list;
                        skill_gaps := (skill_gaps (pending s) ++ gaps)%list |};
          next_id := (next_id s + length matches)%nat |}).
Proof.
  revert count s. induction matches as [|a matches IH]; intros count s Hok.
  - exists []. unfold save_loop. simpl. unfold mret, session_ret, ret.
    destruct s as [c [jm sg] n]. simpl. by rewrite !app_nil_r, !Nat.add_0_r.
  - simpl in Hok. apply andb_true_iff in Hok as [Hflush Hrest].
    apply negb_true_iff in Hflush.
    rewrite save_loop_cons, add_and_flush_run, Hflush.
    match goal with
    | |- context [extra ?id a ?s1] => destruct (extra_quiet id a s1) as [gaps1 ->]
    end.
    match goal with
    | |- context [save_loop F row extra matches (S count) ?s2] =>
        destruct (IH (S count) s2 Hrest) as [gaps2 ->]
    end.
    exists (gaps1 ++ gaps2)%list. simpl.
    rewrite <- !app_assoc. simpl. do 3 f_equal; lia.
Qed.

Lemma save_loop_raises (matches : list A) (count : nat) (s : Session) :
  flushes_ok F row matches = false →
  ∃ e s', save_loop F row extra matches count s = (Raise e, s')
          ∧ committed s' = committed s.
Proof.
  revert count s. induction matches as [|a matches IH]; intros count s Hbad;
    [discriminate|].
  simpl in Hbad. rewrite save_loop_cons, add_and_flush_run.
  destruct (flush_fails F (jm_job_id (row a 0%nat))) eqn:Hflush.
  - by eexists _, _.
  - simpl in Hbad.
    match goal with
    | |- context [extra ?id a ?s1] => destruct (extra_quiet id a s1) as [gaps1 ->]
    end.
    match goal with
    | |- context [save_loop F row extra matches (S count) ?s2] =>
        destruct (IH (S count) s2 Hbad) as (e & s' & -> & Hcommitted)
    end.
    by eexists _, _.
Qed.

Lemma save_with_run (user_id : Z) (matches : list A) (s : Session) :
  save_with F row extra user_id matches s
  = match delete_matches (delete_fails F) user_id s with
    | (Ok _, s1) =>
        match save_loop F row extra matches 0%nat s1 with
        | (Ok saved_count, s2) =>
            match commit F s2 with
            | (Ok _, s3) => (Ok saved_count, s3)
            | (Raise _, s3) => (rollback F;; mret 0%nat) s3
            end
        | (Raise _, s2) => (rollback F;; mret 0%nat) s2
        end
    | (Raise _, s1) => (rollback F;; mret 0%nat) s1
    end.
Proof.
  unfold save_with, try_except. rewrite run_bind.
  destruct (delete_matches (delete_fails F) user_id s) as [[n|e] s1]; [|reflexivity].
  rewrite run_bind.
  destruct (save_loop F row extra matches 0%nat s1) as [[c|e] s2]; [|reflexivity].
  rewrite run_bind. by destruct (commit F s2) as [[[]|e] s3].
Qed.

Lemma delete_matches_run (fails : bool) (user_id : Z) (s : Session) :
  delete_matches fails user_id s
  = if fails then (Raise "delete", s)
    else (Ok (length (List.filter (fun m => (jm_user_id m =? user_id)%Z)
                                  (job_matches (pending s)))),
          {| committed := committed s;
             pending := delete_user_rows user_id (pending s);
             next_id := next_id s |}).
Proof. unfold delete_matches. by destruct fails. Qed.

Lemma rollback_run (s : Session) :
  (rollback F;; mret 0%nat) s
  = if rollback_fails F then (Raise "rollback", s)
    else (Ok 0%nat, {| committed := committed s; pending := committed s;
                       next_id := next_id s |}).
Proof. rewrite run_bind. unfold rollback. by destruct (rollback_fails F). Qed.

(** What a save does, case by case. *)
Lemma save_with_cases (user_id : Z) (matches : list A) (s : Session) :
  let result := save_with F row extra user_id matches s in
  if persistence_ok F row matches then
    result.1 = Ok (length matches)
    ∧ pending result.2 = committed result.2
    ∧ job_matches (committed result.2)
      = (job_matches (delete_user_rows user_id (pending s))
         ++ new_rows row matches (next_id s))%list
  else if rollback_fails F then
    ∃ e, result.1 = Raise e
  else
    result.1 = Ok 0%nat
    ∧ committed result.2 = committed s
    ∧ pending result.2 = committed s.
Proof.
  cbv zeta. rewrite save_with_run, delete_matches_run. unfold persistence_ok.
  destruct (delete_fails F) eqn:Hdelete; simpl.
  - rewrite rollback_run. destruct (rollback_fails F); simpl; [by eexists|done].
  - destruct (flushes_ok F row matches) eqn:Hflush; simpl.
    + match goal with
      | |- context [save_loop F row extra matches 0%nat ?s1] =>
          destruct (save_loop_ok matches 0%nat s1 Hflush) as [gaps ->]
      end.
      unfold commit. destruct (commit_fails F) eqn:Hcommit; simpl; [|done].
      rewrite rollback_run. destruct (rollback_fails F); simpl; [by eexists|done].
    + match goal with
      | |- context [save_loop F row extra matches 0%nat ?s1] =>
          destruct (save_loop_raises matches 0%nat s1 Hflush) as (e & s' & -> & Hc)
      end.
      rewrite rollback_run. destruct (rollback_fails F); simpl; [by eexists|].
      simpl in Hc. by rewrite Hc.
Qed.

Lemma new_rows_job_ids (matches : list A) (id : nat) :
  map jm_job_id (new_rows row matches id)
  = map (fun a => jm_job_id (row a 0%nat)) matches.
Proof.
  revert id. induction matches as [|a matches IH]; intros id; [reflexivity|].
  simpl. by rewrite IH, (row_job_id a id 0%nat).
Qed.

Lemma new_rows_of_owner (matches : list A) (id : nat) :
  List.filter (fun m => (jm_user_id m =? owner)%Z) (new_rows row matches id)
  = new_rows row matches id.
Proof.
  revert id. induction matches as [|a matches IH]; intros id; [reflexivity|].
  simpl. by rewrite row_user_id, Z.eqb_refl, IH.
Qed.

Lemma deleted_rows_of_owner (t : Tables) :
  List.filter (fun m => (jm_user_id m =? owner)%Z)
              (job_matches (delete_user_rows owner t)) = [].
Proof.
  unfold delete_user_rows. simpl.
  induction (job_matches t) as [|m l IH]; [reflexivity|].
  simpl. destruct (jm_user_id m =? owner)%Z eqn:E; simpl; [exact IH|].
  by rewrite E.
Qed.

(** After a successful save the owner's stored matches are the new rows;
    they have distinct job ids when the saved list has. *)
Lemma save_with_unique (matches : list A) (s : Session) :
  persistence_ok F row matches = true →
  let stored :=
    List.filter (fun m => (jm_user_id m =? owner)%Z)
                (job_matches (committed (save_with F row extra owner matches s).2)) in
  stored = new_rows row matches (next_id s)
  ∧ (NoDup (map (fun a => jm_job_id (row a 0%nat)) matches) →
     NoDup (map jm_job_id stored)).
Proof.
  intros Hok. pose proof (save_with_cases owner matches s) as Hcases.
  cbv zeta in *. rewrite Hok in Hcases. destruct Hcases as (_ & _ & ->).
  rewrite List.filter_app, deleted_rows_of_owner, new_rows_of_owner. simpl.
  split; [reflexivity|]. by rewrite new_rows_job_ids.
Qed.

End SaveWith.

Lemma with_gaps_nil (s : Session) : with_gaps s [] = s.
Proof. destruct s as [c [jm sg] n]. unfold with_gaps. simpl. by rewrite app_nil_r. Qed.

Lemma with_gaps_app (s : Session) (g1 g2 : list SkillGap) :
  with_gaps (with_gaps s g1) g2 = with_gaps s (g1 ++ g2).
Proof. unfold with_gaps. simpl. by rewrite <- app_assoc. Qed.

(** The gap row [_create_skill_gaps] writes for a missing skill: the
    importance is the constant 1, so the priority is always high. *)
Definition stored_gap (match_id : nat) (skill_id : Z) (skill : SkillV2) : SkillGap :=
  {| sg_match_id := match_id;
     sg_skill_id := JInt skill_id;
     sg_gap_type := "missing";
     sg_importance := 1;
     sg_user_proficiency := 0;
     sg_required_proficiency := 0.7;
     sg_priority := high;
     sg_estimated_learning_time := TFIDF._estimate_learning_time skill |}.

Lemma create_gap_step_run (F : Faults) (skills : list SkillV2) (match_id : nat)
    (skill_id : Z) (s : Session) :
  TFIDF.create_gap_step F skills match_id tt skill_id s
  = if skill_query_fails F skill_id then (Raise "query", s)
    else match TFIDF.find_skill skills skill_id with
         | Some skill => (Ok tt, with_gaps s [stored_gap match_id skill_id skill])
         | None => (Ok tt, s)
         end.
Proof.
  unfold TFIDF.create_gap_step, TFIDF.query_skill. rewrite run_bind.
  destruct (skill_query_fails F skill_id); [reflexivity|].
  by destruct (TFIDF.find_skill skills skill_id).
Qed.

(** The loop of [_create_skill_gaps] adds gaps until it ends or a query
    raises. *)
Lemma create_gap_loop (F : Faults) (skills : list SkillV2) (match_id : nat)
    (missing : list Z) (s : Session) :
  ∃ gaps,
    for_each (TFIDF.create_gap_step F skills match_id) missing tt s
    = (Ok tt, with_gaps s gaps)
    ∨ ∃ e, for_each (TFIDF.create_gap_step F skills match_id) missing tt s
           = (Raise e, with_gaps s gaps).
Proof.
  revert s. induction missing as [|skill_id missing IH]; intros s.
  - exists []. left. by rewrite with_gaps_nil.
  - cbn [for_each]. rewrite run_bind, create_gap_step_run.
    destruct (skill_query_fails F skill_id).
    + exists []. right. exists "query". by rewrite with_gaps_nil.
    + destruct (TFIDF.find_skill skills skill_id) as [skill|].
      * destruct (IH (with_gaps s [stored_gap match_id skill_id skill]))
          as [gaps Hloop].
        exists (stored_gap match_id skill_id skill :: gaps).
        rewrite with_gaps_app in Hloop. exact Hloop.
      * apply IH.
Qed.

Lemma create_skill_gaps_quiet (F : Faults) (skills : list SkillV2) :
  adds_gaps_only (TFIDF._create_skill_gaps F skills).
Proof.
  intros id match_data s. unfold TFIDF._create_skill_gaps, try_except.
  destruct (create_gap_loop F skills id (TFIDF.m_missing_skills match_data) s)
    as [gaps [->|[e ->]]]; by exists gaps.
Qed.

Lemma no_extra_quiet {A} : adds_gaps_only (fun (_ : nat) (_ : A) => mret tt : M unit).
Proof. intros id a s. exists []. by rewrite with_gaps_nil. Qed.

Lemma save_job_matches_shape F user_id matches :
  JobMatching.save_job_matches F user_id matches
  = save_with F (JobMatching.job_match_row user_id) (fun _ _ => mret tt) user_id matches.
Proof. reflexivity. Qed.

Lemma save_matches_shape F skills user_id matches :
  TFIDF.save_matches F skills user_id matches
  = save_with F (TFIDF.job_match_row user_id) (TFIDF._create_skill_gaps F skills)
      user_id matches.
Proof. reflexivity. Qed.


(** What a save establishes, for a row constructor [row] and the job id
    [job_of] of a match. *)
Definition replaces_atomically {A} (F : Faults) (row : A → nat → JobMatch)
    (job_of : A → Z) (user_id : Z) (matches : list A) (s : Session)
    (result : outcome nat * Session) : Prop :=
  let stored :=
    List.filter (fun m => (jm_user_id m =? user_id)%Z)
                (job_matches (committed result.2)) in
  if persistence_ok F row matches then
    result.1 = Ok (length matches)
    ∧ pending result.2 = committed result.2
    ∧ job_matches (committed result.2)
      = (job_matches (delete_user_rows user_id (pending s))
         ++ new_rows row matches (next_id s))%list
    ∧ stored = new_rows row matches (next_id s)
    ∧ (NoDup (map job_of matches) → NoDup (map jm_job_id stored))
  else if rollback_fails F then
    ∃ e, result.1 = Raise e
  else
    result.1 = Ok 0%nat
    ∧ committed result.2 = committed s
    ∧ pending result.2 = committed s.

Lemma save_with_replaces {A} (F : Faults) (row : A → nat → JobMatch)
    (extra : nat → A → M unit) (user_id : Z) (matches : list A) (s : Session) :
  (∀ a id id', jm_job_id (row a id) = jm_job_id (row a id')) →
  (∀ a id, jm_user_id (row a id) = user_id) →
  adds_gaps_only extra →
  replaces_atomically F row (fun a => jm_job_id (row a 0%nat)) user_id matches s
    (save_with F row extra user_id matches s).
Proof.
  intros Hjob Huser Hextra. unfold replaces_atomically. cbv zeta.
  pose proof (save_with_cases F row extra Hjob Hextra user_id matches s) as Hcases.
  cbv zeta in Hcases.
  destruct (persistence_ok F row matches) eqn:Hok; [|exact Hcases].
  destruct Hcases as (Hresult & Hpending & Hrows).
  pose proof (save_with_unique F row extra Hjob user_id Huser Hextra matches s Hok)
    as [Hstored Hunique].
  done.
Qed.

(** A match of job 10 with two missing skills, and a fault plan in which
    the query of the second one raises. *)
Definition two_gap_match : TFIDF.Match :=
  {| TFIDF.m_job_id := 10; TFIDF.m_job_title := "Platform Engineer";
     TFIDF.m_job_company := "Acme"; TFIDF.m_job_location := "Remote";
     TFIDF.m_job_source := "adzuna";
     TFIDF.m_similarity_score := 0.25; TFIDF.m_tfidf_score := 0.25;
     TFIDF.m_cosine_score := 0.25; TFIDF.m_jaccard_score := 1 # 3;
     TFIDF.m_weighted_score := 1 # 3; TFIDF.m_skill_coverage := 1 # 3;
     TFIDF.m_matching_skills := [1%Z]; TFIDF.m_missing_skills := [4%Z; 5%Z];
     TFIDF.m_total_job_skills := 3; TFIDF.m_total_user_skills := 1 |}.

Definition second_query_fails : Faults :=
  {| update_fails := false; invalidate_delete_fails := false;
     delete_fails := false; flush_fails := fun _ => false;
     skill_query_fails := fun skill_id => (skill_id =? 5)%Z;
     commit_fails := false; rollback_fails := false |}.

(** C9, as stated, on the vector-space save: a statement fails while the
    gaps of the match are written, the save does not return 0, and the
    match is committed with one of its two gaps. *)
Lemma failed_gap_step_is_not_rolled_back :
  ∃ s gap,
    TFIDF.save_matches second_query_fails catalogue 7 [two_gap_match] empty_session
    = (Ok 1%nat, s)
    ∧ map jm_job_id (job_matches (committed s)) = [10%Z]
    ∧ skill_gaps (committed s) = [gap]
    ∧ sg_skill_id gap = JInt 4.
Proof.
  eexists _, _. split; [vm_compute; reflexivity|].
  split; [reflexivity|]. split; reflexivity.
Qed.

(** A list that names a job twice is stored twice. *)
Lemma repeated_job_is_stored_twice :
  ∃ s,
    TFIDF.save_matches no_faults catalogue 7 [two_gap_match; two_gap_match] empty_session
    = (Ok 2%nat, s)
    ∧ map (fun m => (jm_user_id m, jm_job_id m)) (job_matches (committed s))
      = [(7, 10); (7, 10)]%Z.
Proof. eexists. split; [vm_compute; reflexivity|reflexivity]. Qed.

(** C9 (amended).  Saving matches for a user deletes every stored match of
    that user and inserts one row per given match within one transaction,
    returning the number inserted; if the delete, a flush or the commit
    fails, the transaction is rolled back, the committed tables are as
    before the call and the call returns 0 (it raises when the rollback
    itself fails).  After a successful save the user's stored matches are
    exactly the new rows, so that there is at most one per (user, job) pair
    when the saved list names each job once.  This holds for
    [save_job_matches] and for [save_matches]; a failure inside
    [_create_skill_gaps] is not among these steps. *)
Theorem save_replaces_matches_atomically :
  (∀ F user_id matches s,
     replaces_atomically F (JobMatching.job_match_row user_id) JobMatching.job_id
       user_id matches s (JobMatching.save_job_matches F user_id matches s))
  ∧ (∀ F skills user_id matches s,
       replaces_atomically F (TFIDF.job_match_row user_id) TFIDF.m_job_id
         user_id matches s (TFIDF.save_matches F skills user_id matches s)).
Proof.
  split.
  - intros F user_id matches s. rewrite save_job_matches_shape.
    apply (save_with_replaces F (JobMatching.job_match_row user_id)); try done.
    apply no_extra_quiet.
  - intros F skills user_id matches s. rewrite save_matches_shape.
    apply (save_with_replaces F (TFIDF.job_match_row user_id)); try done.
    apply create_skill_gaps_quiet.
Qed.

(** A run of C9: with a failing commit nothing of the save is kept. *)
Lemma save_replaces_matches_atomically_witness :
  let F := {| update_fails := false; invalidate_delete_fails := false;
              delete_fails := false; flush_fails := fun _ => false;
              skill_query_fails := fun _ => false;
              commit_fails := true; rollback_fails := false |} in
  let result := TFIDF.save_matches F catalogue 7 [two_gap_match] empty_session in
  result.1 = Ok 0%nat ∧ committed result.2 = committed empty_session.
Proof.
  intros F result.
  destruct save_replaces_matches_atomically as [_ Htfidf].
  specialize (Htfidf F catalogue 7%Z [two_gap_match] empty_session).
  unfold replaces_atomically in Htfidf. cbv zeta in Htfidf.
  change (persistence_ok F (TFIDF.job_match_row 7) [two_gap_match]) with false in Htfidf.
  change (rollback_fails F) with false in Htfidf.
  destruct Htfidf as (Hresult & Hcommitted & _). done.
Defined.

End Saving.

(** ** Priorities of skill gaps *)

Section GapPriorities.
Import Models JobMatching Session.

(** The rule of the specification. *)
Definition priority_rule (importance : Q) (priority : Priority) : Prop :=
  (1 <= importance → priority = high)
  ∧ (0.7 <= importance → importance < 1 → priority = medium)
  ∧ (importance < 0.7 → priority = low).

(** A gap of the report: a skill the job asks for with this importance,
    which the user lacks, with the priority of the rule. *)
Definition gap_ok (user_skills job_skill_dict : gmap string Q) (gap : GapInfo) : Prop :=
  job_skill_dict !! gi_skill_id gap = Some (gi_importance gap)
  ∧ user_skills !! gi_skill_id gap = None
  ∧ priority_rule (gi_importance gap) (gi_priority gap).

Definition gaps_of (by_category : gmap string (list GapInfo)) (gap : GapInfo) : Prop :=
  ∃ category gaps, by_category !! category = Some gaps ∧ gap ∈ gaps.

Lemma threshold_priority_rule (importance : Q) :
  priority_rule importance
    (if Py.leb 1 importance then high
     else if Py.leb 0.7 importance then medium else low).
Proof.
  unfold priority_rule.
  destruct (Py.leb 1 importance) eqn:E1.
  - apply leb_spec in E1. repeat split; intros; try reflexivity; exfalso; lra.
  - apply leb_false in E1. destruct (Py.leb 0.7 importance) eqn:E2.
    + apply leb_spec in E2. repeat split; intros; try reflexivity; exfalso; lra.
    + apply leb_false in E2. repeat split; intros; try reflexivity; exfalso; lra.
Qed.

(** What one turn of the loop adds to the report. *)
Lemma gap_step_gaps emsi_skills job_skill_dict acc skill_id gap :
  gaps_of (gap_step emsi_skills job_skill_dict acc skill_id).1.1.1 gap →
  gaps_of acc.1.1.1 gap
  ∨ (gi_skill_id gap = skill_id
     ∧ gi_importance gap = default 0 (job_skill_dict !! skill_id)
     ∧ priority_rule (gi_importance gap) (gi_priority gap)).
Proof.
  destruct acc as [[[by_category high_count] medium_count] low_count].
  unfold gap_step. destruct (find_emsi_skill emsi_skills skill_id) as [skill_result|];
    [|by left].
  set (importance := default 0 (job_skill_dict !! skill_id)).
  pose proof (threshold_priority_rule importance) as Hrule.
  destruct (Py.leb 1 importance); [|destruct (Py.leb 0.7 importance)]; simpl;
    intros (category & gaps & Hlookup & Hin);
    (destruct (decide (es_skill_type skill_result = category)) as [<-|Hne];
     [ rewrite lookup_insert_eq in Hlookup; injection Hlookup as <-;
       apply elem_of_app in Hin as [Hin|Hin];
       [ left; destruct (by_category !! es_skill_type skill_result) as [old|] eqn:Eold;
         [ by exists (es_skill_type skill_result), old | by apply elem_of_nil in Hin ]
       | right; apply list_elem_of_singleton in Hin; subst gap; simpl; done ]
     | rewrite lookup_insert_ne in Hlookup by done; left; by exists category, gaps ]).
Qed.

Lemma gap_step_keeps emsi_skills job_skill_dict acc skill_id gap :
  gaps_of acc.1.1.1 gap →
  gaps_of (gap_step emsi_skills job_skill_dict acc skill_id).1.1.1 gap.
Proof.
  destruct acc as [[[by_category high_count] medium_count] low_count].
  unfold gap_step. destruct (find_emsi_skill emsi_skills skill_id) as [skill_result|];
    [|done].
  intros (category & gaps & Hlookup & Hin). simpl in *.
  destruct (Py.leb 1 _); [|destruct (Py.leb 0.7 _)]; simpl;
    (destruct (decide (es_skill_type skill_result = category)) as [<-|Hne];
     [ eexists _, _; rewrite lookup_insert_eq; split; [reflexivity|];
       rewrite Hlookup; simpl; apply elem_of_app; by left
     | exists category, gaps; by rewrite lookup_insert_ne ]).
Qed.

Lemma gap_step_adds emsi_skills job_skill_dict acc skill_id skill_result :
  find_emsi_skill emsi_skills skill_id = Some skill_result →
  ∃ gap, gaps_of (gap_step emsi_skills job_skill_dict acc skill_id).1.1.1 gap
         ∧ gi_skill_id gap = skill_id.
Proof.
  destruct acc as [[[by_category high_count] medium_count] low_count].
  unfold gap_step. intros ->.
  destruct (Py.leb 1 _); [|destruct (Py.leb 0.7 _)]; simpl;
    (eexists; split;
     [ eexists _, _; rewrite lookup_insert_eq; split; [reflexivity|];
       apply elem_of_app; right; apply list_elem_of_singleton; reflexivity
     | reflexivity ]).
Qed.

Lemma gap_fold_gaps emsi_skills job_skill_dict (l : list string) acc gap :
  gaps_of (fold_left (gap_step emsi_skills job_skill_dict) l acc).1.1.1 gap →
  gaps_of acc.1.1.1 gap
  ∨ (gi_skill_id gap ∈ l
     ∧ gi_importance gap = default 0 (job_skill_dict !! gi_skill_id gap)
     ∧ priority_rule (gi_importance gap) (gi_priority gap)).
Proof.
  revert acc. induction l as [|skill_id l IH]; intros acc; [by left|].
  cbn [fold_left]. intros Hgap. apply IH in Hgap as [Hgap|(Hin & Himp & Hrule)].
  - apply gap_step_gaps in Hgap as [Hgap|(Hid & Himp & Hrule)]; [by left|].
    right. subst skill_id. split; [left|done].
  - right. split; [by right|done].
Qed.

Lemma gap_fold_keeps emsi_skills job_skill_dict (l : list string) acc gap :
  gaps_of acc.1.1.1 gap →
  gaps_of (fold_left (gap_step emsi_skills job_skill_dict) l acc).1.1.1 gap.
Proof.
  revert acc. induction l as [|skill_id l IH]; intros acc Hgap; [done|].
  cbn [fold_left]. by apply IH, gap_step_keeps.
Qed.

Lemma gap_fold_adds emsi_skills job_skill_dict (l : list string) acc skill_id skill_result :
  skill_id ∈ l →
  find_emsi_skill emsi_skills skill_id = Some skill_result →
  ∃ gap, gaps_of (fold_left (gap_step emsi_skills job_skill_dict) l acc).1.1.1 gap
         ∧ gi_skill_id gap = skill_id.
Proof.
  revert acc. induction l as [|s l IH]; intros acc Hin Hfind;
    [by apply elem_of_nil in Hin|].
  cbn [fold_left]. apply elem_of_cons in Hin as [->|Hin].
  - destruct (gap_step_adds emsi_skills job_skill_dict acc s skill_result Hfind)
      as (gap & Hgap & Hid).
    exists gap. split; [|exact Hid]. by apply gap_fold_keeps.
  - by apply IH.
Qed.

Lemma gaps_of_filtered (by_category : gmap string (list GapInfo)) (gap : GapInfo) :
  gaps_of (filter (fun kv => length kv.2 ≠ 0%nat) by_category) gap
  ↔ gaps_of by_category gap.
Proof.
  split; intros (category & gaps & Hlookup & Hin).
  - apply map_lookup_filter_Some in Hlookup as [Hlookup _]. by exists category, gaps.
  - exists category, gaps. split; [|exact Hin].
    apply map_lookup_filter_Some. split; [exact Hlookup|]. simpl.
    destruct gaps; [by apply elem_of_nil in Hin|discriminate].
Qed.

(** Every gap row written by [_create_skill_gaps] has importance 1 and
    priority high. *)
Lemma create_gap_step_rows (F : Faults) (skills : list SkillV2) (match_id : nat)
    (skill_id : Z) (s : Session) :
  ∃ gaps,
    (TFIDF.create_gap_step F skills match_id tt skill_id s).2 = with_gaps s gaps
    ∧ Forall (fun g => sg_importance g = 1 ∧ sg_priority g = high) gaps.
Proof.
  rewrite create_gap_step_run.
  destruct (skill_query_fails F skill_id);
    [exists []; by rewrite with_gaps_nil|].
  destruct (TFIDF.find_skill skills skill_id) as [skill|].
  - exists [stored_gap match_id skill_id skill]. split; [reflexivity|].
    by repeat constructor.
  - exists []. by rewrite with_gaps_nil.
Qed.

(** The scenario of C7. *)
Definition scenario_user : gmap string Q := <["python" := 0.8]> (<["sql" := 0.6]> ∅).

Definition scenario_job : gmap string Q :=
  <["python" := 1]> (<["sql" := 1]> (<["aws" := 1]> ∅)).

Definition scenario_catalogue : list EmsiSkill :=
  [ {| es_skill_id := "aws"; es_skill_name := "Amazon Web Services";
       es_skill_type := "Technical" |} ].

Definition scenario_gap : GapInfo :=
  {| gi_skill_id := "aws"; gi_skill_name := "Amazon Web Services";
     gi_skill_type := "Technical"; gi_gap_type := "missing";
     gi_importance := 1; gi_user_proficiency := 0; gi_required_proficiency := 0.7;
     gi_priority := high; gi_estimated_learning_time := 40 |}.

(** The rows of a vector-space run: job 10 asks for Python at importance 1
    and for AWS at importance 0.5; user 7 has Python. *)
Definition cloud_job : list JobSkillV2 :=
  [ {| jk_job_id := 10; jk_skill_id := 1; jk_importance := Some 1 |};
    {| jk_job_id := 10; jk_skill_id := 4; jk_importance := Some 0.5 |};
    {| jk_job_id := 11; jk_skill_id := 6; jk_importance := Some 1 |} ].

(** C7, as stated, on the gaps stored with a match: AWS is missing with a
    job-side importance of 0.5, below 0.7, and its stored gap carries
    priority high. *)
Lemma stored_gap_priority_ignores_importance :
  ∃ m s gap,
    TFIDF.compute_matches library_run catalogue cloud_job one_skill_user
      [posting 10 "Platform Engineer"; posting 11 "Bookkeeper"] 7 50 = [m]
    ∧ TFIDF.m_missing_skills m = [4%Z]
    ∧ TFIDF.job_skill_map (TFIDF.skills_of_job cloud_job 10) !! 4%Z = Some 0.5
    ∧ TFIDF.save_matches no_faults catalogue 7 [m] empty_session = (Ok 1%nat, s)
    ∧ skill_gaps (committed s) = [gap]
    ∧ sg_skill_id gap = JInt 4
    ∧ sg_priority gap = high.
Proof.
  eexists _, _, _. split; [vm_compute; reflexivity|].
  split; [reflexivity|]. split; [vm_compute; reflexivity|].
  split; [vm_compute; reflexivity|].
  split; [reflexivity|]. split; reflexivity.
Qed.

(** C7 (amended).  In the gap report of [calculate_skill_gaps_dynamic]
    every gap belongs to a skill the job asks for and the user lacks,
    carries the job-side importance of that skill, and has priority 'high'
    when the importance is at least 1.0, 'medium' when it is at least 0.7
    but below 1.0, and 'low' otherwise; every missing skill with an entry
    in the skill catalogue has a gap.  For user {python: 0.8, sql: 0.6} and
    job {python: 1.0, sql: 1.0, aws: 1.0} the coverage is 2/3 and the
    single missing skill aws gets priority 'high'.  The gap rows written
    while matches are saved ([_create_skill_gaps]) carry the constant
    importance 1.0 and priority 'high'. *)
Theorem gap_report_priority_by_importance :
  (∀ cosine_similarity user_rows job_skills emsi_skills,
     let report :=
       calculate_skill_gaps_dynamic cosine_similarity user_rows job_skills emsi_skills in
     (∀ gap, gaps_of (gr_gaps_by_category report) gap →
             gap_ok (_get_user_skills user_rows) (job_skill_dict job_skills) gap)
     ∧ (∀ skill_id skill_result,
          is_Some (job_skill_dict job_skills !! skill_id) →
          _get_user_skills user_rows !! skill_id = None →
          find_emsi_skill emsi_skills skill_id = Some skill_result →
          ∃ gap, gaps_of (gr_gaps_by_category report) gap ∧ gi_skill_id gap = skill_id))
  ∧ ga_coverage (_analyze_skill_gaps scenario_user scenario_job) == 2 # 3
  ∧ ga_missing_skills (_analyze_skill_gaps scenario_user scenario_job) = ["aws"]
  ∧ fold_left (gap_step scenario_catalogue scenario_job)
              (ga_missing_skills (_analyze_skill_gaps scenario_user scenario_job))
              (∅, 0, 0, 0)%nat
    = ({[ "Technical" := [scenario_gap] ]}, 1, 0, 0)%nat
  ∧ (∀ F skills match_id skill_id s,
       ∃ gaps,
         (TFIDF.create_gap_step F skills match_id tt skill_id s).2 = with_gaps s gaps
         ∧ Forall (fun g => sg_importance g = 1 ∧ sg_priority g = high) gaps).
Proof.
  split; [|split; [|split; [|split]];
           [vm_compute; reflexivity|vm_compute; reflexivity|vm_compute; reflexivity
           |apply create_gap_step_rows]].
  intros cosine_similarity user_rows job_skills emsi_skills.
  unfold calculate_skill_gaps_dynamic. cbv zeta.
  set (user_skills := _get_user_skills user_rows).
  set (required := job_skill_dict job_skills).
  set (missing := elements (dom required ∖ dom user_skills : gset string)).
  pose proof (gap_fold_gaps emsi_skills required missing (∅, 0, 0, 0)%nat) as Hgaps.
  pose proof (gap_fold_adds emsi_skills required missing (∅, 0, 0, 0)%nat) as Hadds.
  destruct (fold_left _ missing _) as [[[by_category high_count] medium_count] low_count].
  simpl in *. split.
  - intros gap Hgap. apply (proj1 (gaps_of_filtered _ _)) in Hgap.
    apply Hgaps in Hgap as [Hgap|(Hin & Himp & Hrule)].
    + destruct Hgap as (category & gaps & Hlookup & _).
      by rewrite lookup_empty in Hlookup.
    + subst missing. apply elem_of_elements, elem_of_difference in Hin as [Hjob Huser].
      apply elem_of_dom in Hjob as [importance Hjob].
      apply not_elem_of_dom in Huser.
      rewrite Hjob in Himp. simpl in Himp.
      unfold gap_ok. rewrite Hjob, <- Himp. done.
  - intros skill_id skill_result Hjob Huser Hfind.
    destruct (Hadds skill_id skill_result) as (gap & Hgap & Hid);
      [|exact Hfind|exists gap; split; [by apply (proj2 (gaps_of_filtered _ _))|exact Hid]].
    subst missing. apply elem_of_elements, elem_of_difference.
    split; [by apply elem_of_dom|by apply not_elem_of_dom].
Qed.

(** A run of C7 through the whole report: the skill ids of the job's rows
    are the normalized names of the user's skills. *)
Lemma gap_report_priority_by_importance_witness :
  let user_rows :=
    [ {| us_emsi_skill_id := "python"; us_skill_name := "Python";
         us_proficiency_level := 0.8; us_confidence := 1 |};
      {| us_emsi_skill_id := "sql"; us_skill_name := "SQL";
         us_proficiency_level := 0.6; us_confidence := 1 |} ] in
  let job_skills :=
    [ {| js_emsi_skill_id := "python"; js_skill_name := "Python"; js_importance := Some 1 |};
      {| js_emsi_skill_id := "sql"; js_skill_name := "SQL"; js_importance := Some 1 |};
      {| js_emsi_skill_id := "aws"; js_skill_name := "AWS"; js_importance := Some 1 |} ] in
  let report :=
    calculate_skill_gaps_dynamic (fun _ _ => 0) user_rows job_skills scenario_catalogue in
  gr_skill_coverage report == 2 # 3
  ∧ gr_gaps_by_category report = {[ "Technical" := [scenario_gap] ]}
  ∧ gap_ok (_get_user_skills user_rows) (job_skill_dict job_skills) scenario_gap.
Proof.
  intros user_rows job_skills report.
  split; [vm_compute; reflexivity|].
  assert (Hreport : gr_gaps_by_category report = {[ "Technical" := [scenario_gap] ]})
    by (vm_compute; reflexivity).
  split; [exact Hreport|].
  destruct gap_report_priority_by_importance as [Hgeneral _].
  destruct (Hgeneral (fun _ _ => 0) user_rows job_skills scenario_catalogue) as [Hok _].
  apply Hok. fold report. rewrite Hreport.
  exists "Technical", [scenario_gap]. split; [reflexivity|]. left.
Defined.

End GapPriorities.

(** ** The batch scheduler *)

Section Scheduling.
Import Models Session MatchScheduler.

Variable faults : Z → Faults.
Variable vocabulary_fails : Z → bool.
Variable tfidf_body : Z → nat → outcome (list TFIDF.Match).
Variable basic_body : Z → nat → outcome (list JobMatching.Match).
Variable skills : list SkillV2.

(** What a matcher hands to the save: its matches, or nothing when its
    body raised. *)
Definition computed {A} (body : outcome (list A)) : list A :=
  match body with
  | Ok matches => matches
  | Raise _ => []
  end.

(** The save raises: one of its statements fails and so does the rollback. *)
Definition save_raises {A} (F : Faults) (row : A → nat → JobMatch) (matches : list A) : bool :=
  negb (persistence_ok F row matches) && rollback_fails F.

(** The number a save returns when it does not raise. *)
Definition saved {A} (F : Faults) (row : A → nat → JobMatch) (matches : list A) : nat :=
  if persistence_ok F row matches then length matches else 0%nat.

(** An exception escapes the [try] block of this user. *)
Definition user_raises (algorithm : Algorithm) (limit : nat) (user_id : Z) : bool :=
  match algorithm with
  | tfidf =>
      vocabulary_fails user_id
      || save_raises (faults user_id) (TFIDF.job_match_row user_id)
                     (computed (tfidf_body user_id limit))
  | basic =>
      save_raises (faults user_id) (JobMatching.job_match_row user_id)
                  (computed (basic_body user_id limit))
  end.

Definition saved_count (algorithm : Algorithm) (limit : nat) (user_id : Z) : nat :=
  match algorithm with
  | tfidf => saved (faults user_id) (TFIDF.job_match_row user_id)
                   (computed (tfidf_body user_id limit))
  | basic => saved (faults user_id) (JobMatching.job_match_row user_id)
                   (computed (basic_body user_id limit))
  end.

Lemma invalidate_returns (user_id : Z) (s : Session) :
  ∃ s', _invalidate_old_matches faults user_id s = (Ok tt, s').
Proof.
  unfold _invalidate_old_matches, try_except.
  destruct (update_fails (faults user_id)) eqn:Hupdate,
           (invalidate_delete_fails (faults user_id)) eqn:Hdelete;
    eexists; rewrite run_bind, ?Hupdate; simpl; rewrite ?run_bind, ?Hdelete; reflexivity.
Qed.

Lemma compute_matches_returns (user_id : Z) (limit : nat) (s : Session) :
  MatchScheduler.compute_matches tfidf_body user_id limit s
  = (Ok (computed (tfidf_body user_id limit)), s).
Proof.
  unfold MatchScheduler.compute_matches, try_except.
  by destruct (tfidf_body user_id limit).
Qed.

Lemma match_user_to_jobs_returns (user_id : Z) (limit : nat) (s : Session) :
  MatchScheduler.match_user_to_jobs basic_body user_id limit s
  = (Ok (computed (basic_body user_id limit)), s).
Proof.
  unfold MatchScheduler.match_user_to_jobs, try_except.
  by destruct (basic_body user_id limit).
Qed.

(** The outcome of a save, by its fault plan alone. *)
Lemma save_outcome {A} (F : Faults) (row : A → nat → JobMatch)
    (extra : nat → A → M unit) (user_id : Z) (matches : list A) (s : Session) :
  (∀ a id id', jm_job_id (row a id) = jm_job_id (row a id')) →
  adds_gaps_only extra →
  if save_raises F row matches
  then ∃ e, (save_with F row extra user_id matches s).1 = Raise e
  else (save_with F row extra user_id matches s).1 = Ok (saved F row matches).
Proof.
  intros Hjob Hextra.
  pose proof (save_with_cases F row extra Hjob Hextra user_id matches s) as Hcases.
  cbv zeta in Hcases. unfold save_raises, saved.
  destruct (persistence_ok F row matches); simpl.
  - by destruct Hcases as [-> _].
  - destruct (rollback_fails F); [exact Hcases|]. by destruct Hcases as [-> _].
Qed.

(** The [try] block of one user raises exactly when [user_raises] says so,
    and otherwise returns [saved_count]. *)
Lemma recompute_user_outcome (algorithm : Algorithm) (limit : nat) (user_id : Z)
    (s : Session) :
  if user_raises algorithm limit user_id
  then ∃ e, (recompute_user faults vocabulary_fails tfidf_body basic_body skills
               algorithm limit user_id s).1 = Raise e
  else (recompute_user faults vocabulary_fails tfidf_body basic_body skills
          algorithm limit user_id s).1 = Ok (saved_count algorithm limit user_id).
Proof.
  unfold recompute_user, user_raises, saved_count. rewrite run_bind.
  destruct (invalidate_returns user_id s) as [s1 ->].
  destruct algorithm.
  - rewrite run_bind. unfold TFIDFJobMatcher, try_except.
    destruct (vocabulary_fails user_id); simpl; [by eexists|].
    rewrite run_bind, compute_matches_returns, save_matches_shape.
    apply save_outcome; [done|apply create_skill_gaps_quiet].
  - rewrite run_bind, match_user_to_jobs_returns, save_job_matches_shape.
    apply save_outcome; [done|apply no_extra_quiet].
Qed.

Definition count_user (algorithm : Algorithm) (limit : nat) (stats : Stats)
    (user_id : Z) : Stats :=
  if user_raises algorithm limit user_id
  then {| total_users := total_users stats;
          processed_users := processed_users stats;
          failed_users := S (failed_users stats);
          total_matches := total_matches stats |}
  else {| total_users := total_users stats;
          processed_users := S (processed_users stats);
          failed_users := failed_users stats;
          total_matches := total_matches stats + saved_count algorithm limit user_id |}.

Lemma process_user_counts (algorithm : Algorithm) (limit : nat) (stats : Stats)
    (user_id : Z) (s : Session) :
  ∃ s', process_user faults vocabulary_fails tfidf_body basic_body skills
          algorithm limit stats user_id s
        = (Ok (count_user algorithm limit stats user_id), s').
Proof.
  unfold process_user, try_except, count_user. rewrite run_bind.
  pose proof (recompute_user_outcome algorithm limit user_id s) as Hout.
  destruct (recompute_user _ _ _ _ _ _ _ _ s) as [[n|e] s1]; simpl in Hout.
  - destruct (user_raises algorithm limit user_id).
    + destruct Hout as [e He]. discriminate He.
    + injection Hout as ->. by eexists.
  - destruct (user_raises algorithm limit user_id).
    + by eexists.
    + discriminate Hout.
Qed.

Lemma process_users_counts (algorithm : Algorithm) (limit : nat)
    (user_ids : list Z) (stats : Stats) (s : Session) :
  ∃ s', for_each (process_user faults vocabulary_fails tfidf_body basic_body skills
                    algorithm limit) user_ids stats s
        = (Ok (fold_left (count_user algorithm limit) user_ids stats), s').
Proof.
  revert stats s. induction user_ids as [|user_id user_ids IH]; intros stats s.
  - by eexists.
  - cbn [for_each fold_left]. rewrite run_bind.
    destruct (process_user_counts algorithm limit stats user_id s) as [s1 ->].
    apply IH.
Qed.

Lemma count_users_totals (algorithm : Algorithm) (limit : nat)
    (user_ids : list Z) (stats : Stats) :
  let final := fold_left (count_user algorithm limit) user_ids stats in
  total_users final = total_users stats
  ∧ failed_users final
    = (failed_users stats
       + length (List.filter (user_raises algorithm limit) user_ids))%nat
  ∧ processed_users final
    = (processed_users stats
       + length (List.filter (fun u => negb (user_raises algorithm limit u)) user_ids))%nat.
Proof.
  revert stats. induction user_ids as [|user_id user_ids IH]; intros stats.
  - simpl. repeat split; lia.
  - cbn [fold_left List.filter].
    destruct (IH (count_user algorithm limit stats user_id)) as (Ht & Hf & Hp).
    cbv zeta. rewrite Ht, Hf, Hp. unfold count_user.
    destruct (user_raises algorithm limit user_id); simpl; repeat split; lia.
Qed.

Lemma filter_split_length {A} (p : A → bool) (l : list A) :
  (length (List.filter p l) + length (List.filter (fun x => negb (p x)) l)
   = length l)%nat.
Proof.
  induction l as [|x l IH]; [reflexivity|].
  simpl. destruct (p x); simpl; lia.
Qed.

(** C8 (amended).  During a recompute-all batch run, an exception that
    escapes a single user's recompute step is caught, increments the
    failed-users counter, and the loop continues with the remaining users;
    the run itself returns and never raises.  An exception escapes the step
    when the vector-space matcher cannot be built, or when a save fails and
    its rollback fails too; an exception raised inside [compute_matches],
    [match_user_to_jobs] or [_invalidate_old_matches] is handled there, and
    the user counts as processed.  So a batch over 10 users in which exactly
    one user's step raises reports processed=9, failed=1. *)
Theorem batch_counts_escaped_failures (users_query : outcome (list Z))
    (limit : nat) (algorithm : Algorithm) (s : Session) :
  let run := recompute_all_matches faults vocabulary_fails tfidf_body basic_body skills
               users_query limit algorithm s in
  match users_query with
  | Raise e => run.1 = Ok (Failed e)
  | Ok user_ids =>
      ∃ stats,
        run.1 = Ok (Completed stats)
        ∧ total_users stats = length user_ids
        ∧ failed_users stats
          = length (List.filter (user_raises algorithm limit) user_ids)
        ∧ processed_users stats
          = length (List.filter (fun u => negb (user_raises algorithm limit u)) user_ids)
        ∧ (processed_users stats + failed_users stats = total_users stats)%nat
        ∧ (∀ user_id s0,
             if user_raises algorithm limit user_id
             then ∃ e, (recompute_user faults vocabulary_fails tfidf_body basic_body
                          skills algorithm limit user_id s0).1 = Raise e
             else (recompute_user faults vocabulary_fails tfidf_body basic_body
                     skills algorithm limit user_id s0).1
                  = Ok (saved_count algorithm limit user_id))
        ∧ (length user_ids = 10%nat →
           length (List.filter (user_raises algorithm limit) user_ids) = 1%nat →
           processed_users stats = 9%nat ∧ failed_users stats = 1%nat)
  end.
Proof.
  cbv zeta. unfold recompute_all_matches, try_except. rewrite run_bind.
  destruct users_query as [user_ids|e]; [|reflexivity].
  rewrite run_bind.
  match goal with
  | |- context [for_each _ user_ids ?stats0 s] =>
      destruct (process_users_counts algorithm limit user_ids stats0 s) as [s' ->];
      destruct (count_users_totals algorithm limit user_ids stats0) as (Ht & Hf & Hp)
  end.
  pose proof (filter_split_length (user_raises algorithm limit) user_ids) as Hsplit.
  cbv zeta in Ht, Hf, Hp. simpl in Ht, Hf, Hp.
  eexists. split; [reflexivity|].
  rewrite Ht, Hf, Hp.
  split; [reflexivity|]. split; [reflexivity|]. split; [reflexivity|].
  split; [lia|]. split; [|lia].
  intros user_id s0. apply recompute_user_outcome.
Qed.

End Scheduling.

Section BatchRuns.
Import Models Session MatchScheduler.

Definition ten_users : list Z := [1; 2; 3; 4; 5; 6; 7; 8; 9; 10]%Z.

(** The skill store cannot be read for user 4: the body of
    [compute_matches] raises for that user. *)
Definition skill_store_fails_for_4 (user_id : Z) (_ : nat) : outcome (list TFIDF.Match) :=
  if (user_id =? 4)%Z then Raise "user_skills" else Ok [].

Definition no_matches {A} (_ : Z) (_ : nat) : outcome (list A) := Ok [].

(** C8, as stated: user 4's computation throws, the run completes, and it
    reports 10 processed users and no failed one. *)
Lemma swallowed_failure_counts_as_processed :
  (recompute_all_matches (fun _ => no_faults) (fun _ => false)
     skill_store_fails_for_4 no_matches catalogue
     (Ok ten_users) 50 tfidf empty_session).1
  = Ok (Completed {| total_users := 10; processed_users := 10;
                     failed_users := 0; total_matches := 0 |}).
Proof. vm_compute. reflexivity. Qed.

(** A run of C8: the matcher cannot be built for user 4, and the run
    reports 9 processed users and 1 failed one. *)
Lemma batch_counts_escaped_failures_witness :
  ∃ stats,
    (recompute_all_matches (fun _ => no_faults) (fun u => (u =? 4)%Z)
       no_matches no_matches catalogue
       (Ok ten_users) 50 tfidf empty_session).1 = Ok (Completed stats)
    ∧ processed_users stats = 9%nat ∧ failed_users stats = 1%nat.
Proof.
  destruct (batch_counts_escaped_failures (fun _ => no_faults) (fun u => (u =? 4)%Z)
              no_matches no_matches catalogue (Ok ten_users) 50 tfidf empty_session)
    as (stats & Hrun & _ & _ & _ & _ & _ & Hten).
  exists stats. split; [exact Hrun|].
  apply Hten; reflexivity.
Defined.

End BatchRuns.

(** * Further properties of the services *)

(** ** Case and white space in the skill filters *)

Section FilterInput.
Import PyStr SkillFilters.

Lemma lower_ascii_idem (c : ascii) : lower_ascii (lower_ascii c) = lower_ascii c.
Proof. destruct c as [[] [] [] [] [] [] [] []]; reflexivity. Qed.

Lemma is_space_lower_ascii (c : ascii) : is_space (lower_ascii c) = is_space c.
Proof. destruct c as [[] [] [] [] [] [] [] []]; reflexivity. Qed.

Lemma lower_idem (s : string) : lower (lower s) = lower s.
Proof. induction s as [|c s IH]; simpl; [done|]. by rewrite lower_ascii_idem, IH. Qed.

Lemma lstrip_lower (s : string) : lstrip (lower s) = lower (lstrip s).
Proof.
  induction s as [|c s IH]; simpl; [done|].
  rewrite is_space_lower_ascii. by destruct (is_space c).
Qed.

Lemma rstrip_lower (s : string) : rstrip (lower s) = lower (rstrip s).
Proof.
  induction s as [|c s IH]; simpl; [done|].
  rewrite IH, is_space_lower_ascii.
  destruct (rstrip s); simpl; [by destruct (is_space c)|done].
Qed.

Lemma strip_lower (s : string) : strip (lower s) = lower (strip s).
Proof. unfold strip. by rewrite lstrip_lower, rstrip_lower. Qed.

Lemma rstrip_idem (s : string) : rstrip (rstrip s) = rstrip s.
Proof.
  induction s as [|c s IH]; simpl; [done|].
  destruct (rstrip s) as [|a r] eqn:E.
  - destruct (is_space c) eqn:Ec; simpl; [done|]. by rewrite Ec.
  - change (rstrip (String c (String a r))) with
      (match rstrip (String a r) with
       | EmptyString => if is_space c then EmptyString else String c EmptyString
       | r' => String c r'
       end).
    by rewrite IH.
Qed.

Lemma rstrip_cons (c : ascii) (s : string) :
  is_space c = false → rstrip (String c s) = String c (rstrip s).
Proof. intros Ec. simpl. destruct (rstrip s); [by rewrite Ec|done]. Qed.

Lemma lstrip_head (s : string) :
  lstrip s = EmptyString
  ∨ ∃ c t, lstrip s = String c t ∧ is_space c = false.
Proof.
  induction s as [|c s IH]; simpl; [by left|].
  destruct (is_space c) eqn:Ec; [done|]. right. by exists c, s.
Qed.

Lemma strip_idem (s : string) : strip (strip s) = strip s.
Proof.
  unfold strip. destruct (lstrip_head s) as [->|(c & t & -> & Ec)]; [done|].
  rewrite (rstrip_cons c t Ec). simpl lstrip. rewrite Ec.
  rewrite <- (rstrip_cons c t Ec). apply rstrip_idem.
Qed.

Lemma strip_lower_strip (s : string) : strip (lower (strip s)) = strip (lower s).
Proof. by rewrite <- strip_lower, strip_idem, strip_lower. Qed.

(** X1.  The three filters read a name through [lower] and [strip] only: they
    give the same answer for a name, for the name in lower case and for the
    name without the white space around it. *)
Theorem filters_ignore_case_and_outer_space (skill_name : string) :
  (is_valid_skill (lower skill_name) = is_valid_skill skill_name
   ∧ is_valid_skill (strip skill_name) = is_valid_skill skill_name)
  ∧ (normalize_skill_name (lower skill_name) = normalize_skill_name skill_name
     ∧ normalize_skill_name (strip skill_name) = normalize_skill_name skill_name)
  ∧ (is_technical_skill (lower skill_name) = is_technical_skill skill_name
     ∧ is_technical_skill (strip skill_name) = is_technical_skill skill_name).
Proof.
  unfold is_valid_skill, normalize_skill_name, is_technical_skill.
  rewrite lower_idem, strip_lower_strip. done.
Qed.

End FilterInput.

(** ** The range of the normalized weights *)

Section NormalizedWeights.
Import Models JobMatching SkillFilters.

Lemma float_or_pos (x : option Q) :
  (∀ v, x = Some v → 0 <= v) → 0 < Py.float_or x 1.
Proof.
  intros Hx. unfold Py.float_or. destruct x as [v|]; [|reflexivity].
  destruct (Qeq_bool v 0) eqn:E; [reflexivity|].
  apply Qeq_bool_neq in E. specialize (Hx v eq_refl).
  apply Qle_lteq in Hx as [Hlt|Heq]; [exact Hlt|]. by destruct E.
Qed.

Lemma float_or_le (x : option Q) (b : Q) :
  1 <= b → (∀ v, x = Some v → v <= b) → Py.float_or x 1 <= b.
Proof.
  intros Hb Hx. unfold Py.float_or. destruct x as [v|]; [|exact Hb].
  destruct (Qeq_bool v 0); [exact Hb|]. by apply Hx.
Qed.

Lemma user_row_weight_range (row : UserSkillEmsi) :
  0 <= us_proficiency_level row <= 1 → 0 <= user_row_weight row <= 1.
Proof.
  intros [H0 H1]. unfold user_row_weight.
  destruct (is_technical_skill (us_skill_name row)); [|done].
  split.
  - apply Q.min_glb; [discriminate|]. apply Qmult_le_0_compat; [exact H0|discriminate].
  - apply Q.le_min_l.
Qed.

Lemma job_row_weight_pos (skill : JobSkillEmsi) :
  (∀ v, js_importance skill = Some v → 0 <= v) → 0 < job_row_weight skill.
Proof.
  intros Hv. pose proof (float_or_pos _ Hv) as Hpos. unfold job_row_weight.
  destruct (is_technical_skill (js_skill_name skill)); [|exact Hpos].
  apply Q.min_glb_lt; [reflexivity|].
  apply Qmult_lt_0_compat; [exact Hpos|reflexivity].
Qed.

Lemma job_row_weight_le_2 (skill : JobSkillEmsi) :
  (∀ v, js_importance skill = Some v → v <= 2) → job_row_weight skill <= 2.
Proof.
  intros Hv. unfold job_row_weight.
  destruct (is_technical_skill (js_skill_name skill)); [apply Q.le_min_l|].
  apply float_or_le; [discriminate|exact Hv].
Qed.

(** A retained weight is the weight of a valid row with that name. *)
Lemma retained_weight_of_row {A} (valid : A → bool) (key : A → string)
    (weight : A → Q) (rows : list A) (k : string) (v : Q) :
  fold_left (keep_max_step valid key weight) rows ∅ !! k = Some v →
  ∃ row, row ∈ rows ∧ valid row = true ∧ key row = k ∧ v = weight row.
Proof.
  intros Hk. pose proof (keep_max_from_empty valid key weight rows k) as Hmax.
  rewrite Hk in Hmax. destruct Hmax as [Hin _].
  unfold colliding in Hin. apply in_map_iff in Hin as (row & Hw & Hin).
  apply filter_In in Hin as [Hin Hrow].
  apply andb_true_iff in Hrow as [Hvalid Hkey].
  apply String.eqb_eq in Hkey.
  exists row. by rewrite list_elem_of_In.
Qed.

(** X2.  [_get_user_skills]: every retained name is the normalized name of a
    valid row, and when the stored proficiencies lie between 0 and 1 so
    does every retained weight, boosted or not. *)
Theorem user_skill_weights_in_range (rows : list UserSkillEmsi) (k : string) (v : Q) :
  (∀ row, row ∈ rows → 0 <= us_proficiency_level row <= 1) →
  _get_user_skills rows !! k = Some v →
  0 <= v <= 1
  ∧ ∃ row, row ∈ rows
           ∧ is_valid_skill (us_skill_name row) = true
           ∧ normalize_skill_name (us_skill_name row) = k.
Proof.
  intros Hrows Hk.
  apply (retained_weight_of_row
           (fun r => is_valid_skill (us_skill_name r))
           (fun r => normalize_skill_name (us_skill_name r))
           user_row_weight) in Hk as (row & Hin & Hvalid & Hkey & ->).
  split; [by apply user_row_weight_range, Hrows|].
  by exists row.
Qed.

(** A run of X2: a technical skill at 0.9 is boosted to the cap 1.0. *)
Lemma user_skill_weights_in_range_witness :
  _get_user_skills
    [ {| us_emsi_skill_id := "KS1"; us_skill_name := " Python ";
         us_proficiency_level := 0.9; us_confidence := 1 |} ] !! "python" = Some 1
  ∧ 0 <= 1 <= 1.
Proof.
  split; [vm_compute; reflexivity|].
  apply (user_skill_weights_in_range
           [ {| us_emsi_skill_id := "KS1"; us_skill_name := " Python ";
                us_proficiency_level := 0.9; us_confidence := 1 |} ] "python" 1).
  - intros row Hrow. apply list_elem_of_singleton in Hrow as ->.
    split; discriminate.
  - vm_compute. reflexivity.
Defined.

(** X3.  [_get_jobs_with_skills]: when no stored importance is negative, every
    weight of a job is positive (a missing or zero importance counts as
    1.0), and when no stored importance exceeds 2 no weight does. *)
Theorem job_skill_weights_positive (job_skills : list JobSkillEmsi) (k : string) (w : Q) :
  (∀ skill v, skill ∈ job_skills → js_importance skill = Some v → 0 <= v) →
  job_filtered_skills job_skills !! k = Some w →
  0 < w
  ∧ ((∀ skill v, skill ∈ job_skills → js_importance skill = Some v → v <= 2) → w <= 2).
Proof.
  intros Hrows Hk.
  apply (retained_weight_of_row
           (fun r => is_valid_skill (js_skill_name r))
           (fun r => normalize_skill_name (js_skill_name r))
           job_row_weight) in Hk as (skill & Hin & _ & _ & ->).
  split.
  - apply job_row_weight_pos. intros v. by apply Hrows.
  - intros Hle. apply job_row_weight_le_2. intros v. by apply Hle.
Qed.

(** A run of X3: a stored importance of 0 enters the dict as 1.0. *)
Lemma job_skill_weights_positive_witness :
  job_filtered_skills
    [ {| js_emsi_skill_id := "KS9"; js_skill_name := "Bookkeeping";
         js_importance := Some 0 |} ] !! "bookkeeping" = Some 1
  ∧ 0 < 1.
Proof.
  split; [vm_compute; reflexivity|].
  apply (job_skill_weights_positive
           [ {| js_emsi_skill_id := "KS9"; js_skill_name := "Bookkeeping";
                js_importance := Some 0 |} ] "bookkeeping" 1).
  - intros skill v Hin Hv. apply list_elem_of_singleton in Hin as ->.
    simpl in Hv. inversion Hv. discriminate.
  - vm_compute. reflexivity.
Defined.

End NormalizedWeights.

(** ** The list of matches of the pairwise matcher *)

Section MatchList.
Import Models JobMatching SkillFilters.

(** The matches before they are sorted and cut. *)
Definition candidates (cosine_similarity : list Q → list Q → Q)
    (user_rows : list UserSkillEmsi) (jobs : list (JobPosting * list JobSkillEmsi))
  : list Match :=
  flat_map (match_job cosine_similarity (_get_user_skills user_rows))
           (_get_jobs_with_skills jobs).

Lemma flat_map_nil {A B} (f : A → list B) (l : list A) :
  (∀ x, f x = []) → flat_map f l = [].
Proof. intros Hf. induction l as [|x l IH]; simpl; [done|]. by rewrite Hf, IH. Qed.

Lemma no_user_skill_no_candidate cosine_similarity jobs_with_skills :
  flat_map (match_job cosine_similarity ∅) jobs_with_skills = [].
Proof.
  apply flat_map_nil. intros job_data. apply match_job_excluded.
  rewrite dom_empty_L, intersection_empty_l_L, size_empty. lia.
Qed.

(** Both early returns of [match_user_to_jobs] agree with its last line. *)
Lemma match_user_to_jobs_unfold cosine_similarity user_rows jobs limit :
  match_user_to_jobs cosine_similarity user_rows jobs limit
  = take limit (Py.sort_reverse key_ltb sort_key
                  (candidates cosine_similarity user_rows jobs)).
Proof.
  unfold match_user_to_jobs, candidates. cbv zeta.
  destruct (decide _) as [E|_].
  - rewrite E, no_user_skill_no_candidate. simpl. by rewrite take_nil.
  - destruct (_get_jobs_with_skills jobs); [simpl; by rewrite take_nil|done].
Qed.

Lemma no_valid_row_no_skill (rows : list UserSkillEmsi) :
  (∀ row, row ∈ rows → is_valid_skill (us_skill_name row) = false) →
  _get_user_skills rows = ∅.
Proof.
  intros Hrows. apply map_eq. intros k. rewrite lookup_empty.
  destruct (_get_user_skills rows !! k) as [v|] eqn:Hk; [|done].
  apply (retained_weight_of_row
           (fun r => is_valid_skill (us_skill_name r))
           (fun r => normalize_skill_name (us_skill_name r))
           user_row_weight) in Hk as (row & Hin & Hvalid & _).
  rewrite (Hrows row Hin) in Hvalid. discriminate.
Qed.

Lemma jobs_with_skills_ids (jobs : list (JobPosting * list JobSkillEmsi)) :
  map (fun job_data => jp_id (jd_job job_data)) (_get_jobs_with_skills jobs)
  `sublist_of` map (fun p => jp_id p.1) jobs.
Proof.
  unfold _get_jobs_with_skills.
  induction jobs as [|[job job_skills] jobs IH]; [constructor|].
  cbn [flat_map map fst].
  destruct (2 <=? size (job_filtered_skills job_skills))%nat; cbn [app map jd_job].
  - by apply sublist_skip.
  - by apply sublist_cons.
Qed.

Lemma candidates_ids cosine_similarity user_skills (jobs_with_skills : list JobData) :
  map job_id (flat_map (match_job cosine_similarity user_skills) jobs_with_skills)
  `sublist_of` map (fun job_data => jp_id (jd_job job_data)) jobs_with_skills.
Proof.
  induction jobs_with_skills as [|job_data l IH]; [constructor|].
  cbn [flat_map map]. rewrite map_app. unfold match_job at 1. cbv zeta.
  destruct (_ <? 2)%nat; cbn [app map job_id].
  - by apply sublist_cons.
  - by apply sublist_skip.
Qed.

Lemma jobs_with_skills_from (jobs : list (JobPosting * list JobSkillEmsi)) job_data :
  job_data ∈ _get_jobs_with_skills jobs →
  ∃ job_skills, (jd_job job_data, job_skills) ∈ jobs
                ∧ jd_skills job_data = job_filtered_skills job_skills
                ∧ (2 <= size (jd_skills job_data))%nat.
Proof.
  unfold _get_jobs_with_skills. intros Hin.
  apply list_elem_of_In, in_flat_map in Hin as ([job job_skills] & Hjob & Hin).
  apply list_elem_of_In in Hjob.
  destruct (2 <=? size (job_filtered_skills job_skills))%nat eqn:E; [|by destruct Hin].
  destruct Hin as [<-|[]]. cbn [jd_job jd_skills].
  exists job_skills. repeat split; [done|]. by apply Nat.leb_le in E.
Qed.

(** X4.  [match_user_to_jobs]: the list has at most [limit] entries and is the
    front of the list a greater limit gives; every entry carries the id
    and title of a job of the query whose rows leave at least two skills;
    no job is listed twice when the query lists none twice; and a user
    without a valid skill row gets the empty list. *)
Theorem pairwise_match_list_shape cosine_similarity
    (user_rows : list UserSkillEmsi) (jobs : list (JobPosting * list JobSkillEmsi))
    (limit : nat) :
  let out := match_user_to_jobs cosine_similarity user_rows jobs limit in
  (length out <= limit)%nat
  ∧ (∀ limit', (limit <= limit')%nat →
       out = take limit (match_user_to_jobs cosine_similarity user_rows jobs limit'))
  ∧ (∀ m, m ∈ out →
       ∃ job job_skills,
         (job, job_skills) ∈ jobs
         ∧ job_id m = jp_id job ∧ job_title m = jp_title job
         ∧ job_company m = jp_company job ∧ job_location m = jp_location job
         ∧ job_source m = jp_source job
         ∧ total_job_skills m = size (job_filtered_skills job_skills)
         ∧ (2 <= total_job_skills m)%nat)
  ∧ (NoDup (map (fun p => jp_id p.1) jobs) → NoDup (map job_id out))
  ∧ ((∀ row, row ∈ user_rows → is_valid_skill (us_skill_name row) = false) →
     out = []).
Proof.
  intros out. subst out. rewrite match_user_to_jobs_unfold.
  split; [rewrite length_take; lia|].
  split.
  { intros limit' Hle. rewrite match_user_to_jobs_unfold, take_take.
    f_equal. lia. }
  split.
  { intros m Hm. rewrite <- match_user_to_jobs_unfold in Hm.
    apply match_user_to_jobs_from in Hm as (job_data & Hjd & Hm).
    apply jobs_with_skills_from in Hjd as (job_skills & Hin & Hskills & Hsize).
    exists (jd_job job_data), job_skills. split; [done|].
    unfold match_job in Hm. cbv zeta in Hm.
    destruct (_ <? 2)%nat; [by apply elem_of_nil in Hm|].
    apply list_elem_of_singleton in Hm as ->. simpl.
    rewrite <- Hskills. done. }
  split.
  { intros Hnodup.
    assert (Hc : NoDup (map job_id (candidates cosine_similarity user_rows jobs))).
    { eapply sublist_NoDup; [|apply candidates_ids].
      eapply sublist_NoDup; [exact Hnodup|apply jobs_with_skills_ids]. }
    eapply sublist_NoDup; [|apply (fmap_sublist job_id), sublist_take].
    eapply NoDup_Permutation_proper; [|exact Hc].
    apply fmap_Permutation, sort_reverse_perm. }
  intros Hrows. unfold candidates.
  rewrite (no_valid_row_no_skill _ Hrows), no_user_skill_no_candidate.
  simpl. by rewrite take_nil.
Qed.

Lemma match_entry_fields cosine_similarity
    (user_rows : list UserSkillEmsi) (jobs : list (JobPosting * list JobSkillEmsi))
    (limit : nat) (m : Match) :
  m ∈ match_user_to_jobs cosine_similarity user_rows jobs limit →
  ∃ job_skills : gmap string Q,
    total_user_skills m = size (_get_user_skills user_rows)
    ∧ total_job_skills m = size job_skills
    ∧ matching_skills m
      = ga_matching_skills (_analyze_skill_gaps (_get_user_skills user_rows) job_skills)
    ∧ missing_skills m
      = ga_missing_skills (_analyze_skill_gaps (_get_user_skills user_rows) job_skills)
    ∧ skill_coverage m
      = ga_coverage (_analyze_skill_gaps (_get_user_skills user_rows) job_skills)
    ∧ (2 <= length (matching_skills m))%nat.
Proof.
  intros Hm. apply match_user_to_jobs_from in Hm as (job_data & _ & Hm).
  exists (jd_skills job_data).
  unfold match_job in Hm. cbv zeta in Hm.
  destruct (_ <? 2)%nat eqn:E; [by apply elem_of_nil in Hm|].
  apply list_elem_of_singleton in Hm as ->. simpl.
  apply Nat.ltb_ge in E. simpl in E. done.
Qed.

Lemma match_entry_totals cosine_similarity
    (user_rows : list UserSkillEmsi) (jobs : list (JobPosting * list JobSkillEmsi))
    (limit : nat) (m : Match) :
  m ∈ match_user_to_jobs cosine_similarity user_rows jobs limit →
  total_user_skills m = size (_get_user_skills user_rows)
  ∧ total_job_skills m = (length (matching_skills m) + length (missing_skills m))%nat
  ∧ skill_coverage m == Py.ratio (length (matching_skills m)) (total_job_skills m)
  ∧ 0 < skill_coverage m <= 1.
Proof.
  intros Hm.
  destruct (match_entry_fields _ _ _ _ _ Hm) as (ja & Hua & Hja & Hma & Hmia & Hca & H2a).
  pose proof (analyze_skill_gaps_ok (_get_user_skills user_rows) ja) as Hok.
  cbv zeta in Hok.
  destruct Hok as (_ & _ & _ & _ & Hreq & Hnm & Hnmi & Hsum & Hcov & Hrange & _).
  rewrite Hnm, Hnmi, <- Hma, <- Hmia in Hsum. rewrite Hreq in Hsum.
  assert (Hne : dom ja ≠ (∅ : gset string)).
  { intros E. rewrite E, size_empty in Hsum. lia. }
  rewrite Hnm, Hreq, <- Hma in Hcov. rewrite decide_False in Hcov by done.
  rewrite size_dom in Hsum, Hcov.
  split; [done|]. split; [by rewrite Hja|].
  split; [by rewrite Hca, Hja|].
  rewrite Hca. split; [|apply Hrange].
  rewrite Hcov. unfold Py.ratio. apply Qlt_shift_div_l.
  - apply inject_nat_pos. lia.
  - rewrite Qmult_0_l. apply inject_nat_pos. lia.
Qed.

(** A user with Python and SQL, and two jobs that ask for both. *)
Definition python_sql_user : list UserSkillEmsi :=
  [ {| us_emsi_skill_id := "KS1"; us_skill_name := "Python";
       us_proficiency_level := 0.5; us_confidence := 1 |};
    {| us_emsi_skill_id := "KS2"; us_skill_name := "SQL";
       us_proficiency_level := 0.5; us_confidence := 1 |} ].

Definition python_sql_jobs : list (JobPosting * list JobSkillEmsi) :=
  let rows :=
    [ {| js_emsi_skill_id := "KS1"; js_skill_name := "Python"; js_importance := Some 1 |};
      {| js_emsi_skill_id := "KS2"; js_skill_name := "SQL"; js_importance := Some 1 |} ] in
  [ (posting 1 "Data Engineer", rows); (posting 2 "Backend Engineer", rows) ].

(** X5.  [match_user_to_jobs]: every entry reports the same count of user
    skills, the number of normalized skills of the user, so the fourth
    component of the sort key never separates two entries; its count of
    job skills is the sum of its matching and missing skills, and its
    coverage the share of the matching ones. *)
Theorem match_entries_consistent cosine_similarity
    (user_rows : list UserSkillEmsi) (jobs : list (JobPosting * list JobSkillEmsi))
    (limit : nat) (a b : Match) :
  a ∈ match_user_to_jobs cosine_similarity user_rows jobs limit →
  b ∈ match_user_to_jobs cosine_similarity user_rows jobs limit →
  total_user_skills a = size (_get_user_skills user_rows)
  ∧ total_job_skills a = (length (matching_skills a) + length (missing_skills a))%nat
  ∧ skill_coverage a == Py.ratio (length (matching_skills a)) (total_job_skills a)
  ∧ 0 < skill_coverage a <= 1
  ∧ (length (matching_skills a) = length (matching_skills b) →
     similarity_score a == similarity_score b →
     total_job_skills a = total_job_skills b →
     key_ltb (sort_key a) (sort_key b) = false
     ∧ key_ltb (sort_key b) (sort_key a) = false).
Proof.
  intros Ha Hb.
  destruct (match_entry_totals _ _ _ _ _ Ha) as (Hua & Hja & Hca & Hra).
  destruct (match_entry_totals _ _ _ _ _ Hb) as (Hub & _).
  repeat (split; [done|]).
  intros Hm Hs Hj.
  apply key_tied_iff. unfold sort_key. rewrite Hua, Hub. done.
Qed.

(** A run of X5: both matches of [python_sql_jobs] report the two skills
    of the user. *)
Lemma match_entries_consistent_witness :
  ∃ a b,
    match_user_to_jobs (fun _ _ => 1) python_sql_user python_sql_jobs 10 = [a; b]
    ∧ total_user_skills a = 2%nat
    ∧ 0 < skill_coverage a <= 1.
Proof.
  eexists _, _. split; [vm_compute; reflexivity|].
  edestruct (match_entries_consistent (fun _ _ => 1) python_sql_user python_sql_jobs 10)
    as (Hu & _ & _ & Hc & _);
    [vm_compute; apply list_elem_of_here
    |vm_compute; apply list_elem_of_further, list_elem_of_here|].
  split; [exact Hu|exact Hc].
Defined.

End MatchList.

(** ** Reading saved matches back *)

Section SortedInput.
Context {A K : Type} (ltb : K → K → bool) (key : A → K).

(** A list that is in descending key order already is left as it is. *)
Lemma sort_reverse_of_sorted (l : list A) :
  StronglySorted (not_below ltb key) l → Py.sort_reverse ltb key l = l.
Proof.
  induction 1 as [|x l Hsorted IH Hx]; [done|].
  unfold Py.sort_reverse in *. simpl. rewrite IH.
  destruct l as [|y l']; [done|]. simpl.
  apply Forall_cons in Hx as [Hxy _]. unfold not_below in Hxy. by rewrite Hxy.
Qed.
End SortedInput.

Section ReadBack.
Import Models JobMatching Session.

Lemma float_or_zero (x : Q) : Py.float_or (Some x) 0 == x.
Proof.
  unfold Py.float_or. destruct (Qeq_bool x 0) eqn:E; [|reflexivity].
  apply Qeq_bool_eq in E. by rewrite E.
Qed.

Lemma list_or_some {A} (l : list A) : Py.list_or (Some l) [] = l.
Proof. by destruct l. Qed.

(** What [get_job_matches] makes of a row that [save_job_matches] wrote. *)
Definition read_back (r : MatchResult) (m : Match) : Prop :=
  mr_job_id r = job_id m
  ∧ mr_similarity_score r == similarity_score m
  ∧ mr_jaccard_score r == jaccard_score m
  ∧ mr_cosine_score r == cosine_score m
  ∧ mr_weighted_score r == weighted_score m
  ∧ mr_skill_coverage r == skill_coverage m
  ∧ mr_matching_skills r = map JStr (matching_skills m)
  ∧ mr_missing_skills r = map JStr (missing_skills m)
  ∧ mr_total_job_skills r
    = (length (missing_skills m) + length (matching_skills m))%nat.

Lemma match_result_of_row job_postings user_skill_count user_id m id job :
  find_job job_postings (job_id m) = Some job →
  ∃ r, match_result job_postings user_skill_count (job_match_row user_id m id) = [r]
       ∧ read_back r m
       ∧ mr_total_user_skills r = user_skill_count.
Proof.
  intros Hjob. unfold match_result. cbn [jm_job_id job_match_row]. rewrite Hjob.
  eexists. split; [reflexivity|].
  cbn [job_match_row jm_id jm_job_id jm_similarity_score jm_alignment_score
       jm_jaccard_score jm_cosine_score jm_weighted_score jm_skill_coverage
       jm_matching_skills jm_matched_skills jm_missing_skills].
  unfold read_back.
  cbn [mr_job_id mr_similarity_score mr_jaccard_score mr_cosine_score
       mr_weighted_score mr_skill_coverage mr_matching_skills mr_missing_skills
       mr_total_job_skills mr_total_user_skills].
  change (Py.list_or None []) with (@nil json_id).
  change (Py.float_or None 0) with 0.
  rewrite !list_or_some, !length_map.
  repeat split; try apply float_or_zero.
Qed.

Lemma read_rows job_postings user_skill_count user_id (matches : list Match) id :
  (∀ m, m ∈ matches → is_Some (find_job job_postings (job_id m))) →
  ∃ results,
    flat_map (match_result job_postings user_skill_count)
             (new_rows (job_match_row user_id) matches id) = results
    ∧ Forall2 read_back results matches
    ∧ Forall (fun r => mr_total_user_skills r = user_skill_count) results.
Proof.
  revert id. induction matches as [|m matches IH]; intros id Hjobs.
  - exists []. simpl. repeat constructor.
  - destruct (Hjobs m) as [job Hjob]; [left|].
    destruct (match_result_of_row job_postings user_skill_count user_id m id job Hjob)
      as (r & Hr & Hback & Hcount).
    destruct (IH (S id)) as (results & Hres & Hall & Hcounts).
    { intros m' Hm'. apply Hjobs. by right. }
    exists (r :: results). cbn [new_rows flat_map]. rewrite Hr, Hres.
    repeat split; [by constructor|by constructor].
Qed.

Lemma key_ltb_compat (m1 m2 : nat) (s1 s1' s2 s2' : Q) (j1 j2 : nat) (u u' : Z) :
  s1 == s1' → s2 == s2' →
  key_ltb (m1, s1, j1, u) (m2, s2, j2, u) = key_ltb (m1, s1', j1, u') (m2, s2', j2, u').
Proof.
  intros H1 H2. unfold key_ltb. rewrite (Qcompare_comp _ _ H1 _ _ H2).
  by rewrite !Z.ltb_irrefl.
Qed.

Lemma read_back_sorted (user_skill_count total_user : nat)
    (results : list MatchResult) (matches : list Match) :
  Forall2 read_back results matches →
  Forall (fun r => mr_total_user_skills r = user_skill_count) results →
  Forall (fun m => total_user_skills m = total_user
                   ∧ total_job_skills m
                     = (length (matching_skills m) + length (missing_skills m))%nat)
         matches →
  StronglySorted (not_below key_ltb sort_key) matches →
  StronglySorted (not_below key_ltb result_sort_key) results.
Proof.
  intros Hback. induction Hback as [|r m results matches Hrm Hback IH];
    intros Hres Hms Hsorted; [constructor|].
  apply Forall_cons in Hres as [Hr Hres]. apply Forall_cons in Hms as [Hm Hms].
  apply StronglySorted_inv in Hsorted as [Hsorted Hfirst].
  constructor; [by apply IH|].
  clear IH Hsorted.
  induction Hback as [|r' m' results matches Hrm' Hback IH]; [constructor|].
  apply Forall_cons in Hres as [Hr' Hres]. apply Forall_cons in Hms as [Hm' Hms].
  apply Forall_cons in Hfirst as [Hmm' Hfirst].
  constructor; [|by apply IH].
  unfold not_below in *. unfold result_sort_key, sort_key in *.
  destruct Hrm as (_ & Hs & _ & _ & _ & _ & Hmatching & _ & Htotal).
  destruct Hrm' as (_ & Hs' & _ & _ & _ & _ & Hmatching' & _ & Htotal').
  destruct Hm as [Hu Hj], Hm' as [Hu' Hj'].
  rewrite Hmatching, Hmatching', !length_map, Htotal, Htotal', Hr, Hr'.
  rewrite Hu, Hu', Hj, Hj' in Hmm'.
  rewrite (Nat.add_comm (length (missing_skills m))),
          (Nat.add_comm (length (missing_skills m'))).
  rewrite <- Hmm'. apply key_ltb_compat; done.
Qed.

(** X6.  [save_job_matches] followed by [get_job_matches]: when the save goes
    through and the jobs of the matches are still in the table, the
    matches of [match_user_to_jobs] come back in the order in which they
    were computed, cut to the limit of the read, with their scores and
    skill lists. *)
Theorem saved_matches_are_read_back cosine_similarity
    (user_rows : list UserSkillEmsi) (jobs : list (JobPosting * list JobSkillEmsi))
    (limit : nat) (F : Faults) (user_id : Z) (s : Session)
    (job_postings : list JobPosting) (user_skill_count limit' : nat) :
  let matches := match_user_to_jobs cosine_similarity user_rows jobs limit in
  let saved := save_job_matches F user_id matches s in
  persistence_ok F (job_match_row user_id) matches = true →
  (∀ m, m ∈ matches → is_Some (find_job job_postings (job_id m))) →
  saved.1 = Ok (length matches)
  ∧ Forall2 read_back
      (get_job_matches (job_matches (committed saved.2)) job_postings
         user_skill_count user_id limit')
      (take limit' matches).
Proof.
  intros matches saved Hok Hjobs. subst saved.
  rewrite save_job_matches_shape.
  pose proof (save_with_cases F (job_match_row user_id) (fun _ _ => mret tt)
                (fun _ _ _ => eq_refl) no_extra_quiet user_id matches s) as Hcases.
  cbv zeta in Hcases. rewrite Hok in Hcases. destruct Hcases as (Hret & _ & _).
  split; [exact Hret|].
  pose proof (save_with_unique F (job_match_row user_id) (fun _ _ => mret tt)
                (fun _ _ _ => eq_refl) user_id (fun _ _ => eq_refl) no_extra_quiet
                matches s Hok) as Hstored.
  cbv zeta in Hstored. destruct Hstored as [Hstored _].
  unfold get_job_matches. cbv zeta. rewrite Hstored.
  destruct (read_rows job_postings user_skill_count user_id matches (next_id s) Hjobs)
    as (results & -> & Hback & Hcounts).
  rewrite sort_reverse_of_sorted.
  - by apply Forall2_take.
  - eapply (read_back_sorted user_skill_count (size (_get_user_skills user_rows)));
      [exact Hback|exact Hcounts| |apply match_user_to_jobs_sorted].
    apply Forall_forall. intros m Hm.
    destruct (match_entry_totals _ _ _ _ _ Hm) as (Hu & Hj & _). done.
Qed.

(** A run of X6: the two matches of [python_sql_jobs] are saved for user
    7 and read back in the same order. *)
Lemma saved_matches_are_read_back_witness :
  ∃ a b r1 r2,
    match_user_to_jobs (fun _ _ => 1) python_sql_user python_sql_jobs 10 = [a; b]
    ∧ get_job_matches
        (job_matches (committed
           (save_job_matches no_faults 7
              (match_user_to_jobs (fun _ _ => 1) python_sql_user python_sql_jobs 10)
              empty_session).2))
        [posting 1 "Data Engineer"; posting 2 "Backend Engineer"] 2 7 20 = [r1; r2]
    ∧ read_back r1 a ∧ read_back r2 b.
Proof.
  eexists _, _, _, _. split; [vm_compute; reflexivity|].
  split; [vm_compute; reflexivity|].
  destruct (saved_matches_are_read_back (fun _ _ => 1) python_sql_user python_sql_jobs 10
              no_faults 7 empty_session
              [posting 1 "Data Engineer"; posting 2 "Backend Engineer"] 2 20)
    as [_ Hback].
  - vm_compute. reflexivity.
  - intros m Hm. vm_compute in Hm.
    apply elem_of_cons in Hm as [->|Hm]; [by eexists|].
    apply list_elem_of_singleton in Hm as ->. by eexists.
  - vm_compute in Hback.
    apply Forall2_cons in Hback as [H1 Hback].
    apply Forall2_cons in Hback as [H2 _]. split; [exact H1|exact H2].
Defined.

End ReadBack.

(** ** The stored matches as they are read *)

Section StoredMatches.
Import Models JobMatching.

Lemma match_result_fields job_postings user_skill_count m r :
  r ∈ match_result job_postings user_skill_count m →
  ∃ job,
    find_job job_postings (jm_job_id m) = Some job
    ∧ mr_match_id r = jm_id m
    ∧ mr_job_id r = jm_job_id m
    ∧ mr_job_title r = jp_title job
    ∧ mr_job_company r = jp_company job
    ∧ mr_total_job_skills r
      = (length (mr_missing_skills r) + length (mr_matching_skills r))%nat
    ∧ mr_total_user_skills r = user_skill_count.
Proof.
  unfold match_result.
  destruct (find_job job_postings (jm_job_id m)) as [job|]; [|by intros ?%elem_of_nil].
  intros ->%list_elem_of_singleton. by exists job.
Qed.

Lemma find_job_id job_postings id job :
  find_job job_postings id = Some job → job ∈ job_postings ∧ jp_id job = id.
Proof.
  unfold find_job. intros Hfind. apply find_some in Hfind as [Hin Hid].
  split; [by apply list_elem_of_In|by apply Z.eqb_eq].
Qed.

(** X7.  [get_job_matches]: the list has at most [limit] entries; every entry
    is made from a stored match of this user whose job is still in
    [job_postings], and carries the title of that job; its count of job
    skills is the sum of its two skill lists; and when none of the user's
    matches has a job left, the list is empty. *)
Theorem read_match_list_shape (job_matches : list JobMatch)
    (job_postings : list JobPosting) (user_skill_count : nat) (user_id : Z)
    (limit : nat) :
  let out := get_job_matches job_matches job_postings user_skill_count user_id limit in
  (length out <= limit)%nat
  ∧ (∀ r, r ∈ out →
       ∃ m job,
         m ∈ job_matches ∧ jm_user_id m = user_id
         ∧ job ∈ job_postings ∧ jp_id job = jm_job_id m
         ∧ mr_match_id r = jm_id m ∧ mr_job_id r = jm_job_id m
         ∧ mr_job_title r = jp_title job
         ∧ mr_total_job_skills r
           = (length (mr_missing_skills r) + length (mr_matching_skills r))%nat
         ∧ mr_total_user_skills r = user_skill_count)
  ∧ ((∀ m, m ∈ job_matches → jm_user_id m = user_id →
           find_job job_postings (jm_job_id m) = None) →
     out = []).
Proof.
  intros out. subst out. unfold get_job_matches. cbv zeta.
  split; [rewrite length_take; lia|]. split.
  - intros r Hr. apply elem_of_take in Hr as (i & Hi & _).
    apply list_elem_of_lookup_2 in Hi. rewrite sort_reverse_perm in Hi.
    apply list_elem_of_In, in_flat_map in Hi as (m & Hm & Hin).
    apply filter_In in Hm as [Hm Huser]. apply Z.eqb_eq in Huser.
    apply list_elem_of_In, match_result_fields in Hin
      as (job & Hjob & Hid & Hjid & Htitle & _ & Htotal & Hcount).
    apply find_job_id in Hjob as [Hjob Hjobid].
    exists m, job. rewrite list_elem_of_In. done.
  - intros Hgone.
    assert (Hnone : flat_map (match_result job_postings user_skill_count)
                      (List.filter (fun m => (jm_user_id m =? user_id)%Z) job_matches)
                    = []).
    { induction job_matches as [|m l IH]; simpl; [done|].
      destruct (jm_user_id m =? user_id)%Z eqn:E; simpl.
      - apply Z.eqb_eq in E. unfold match_result at 1.
        rewrite (Hgone m (list_elem_of_here _ _) E). simpl.
        apply IH. intros m' Hm'. apply Hgone. by right.
      - apply IH. intros m' Hm'. apply Hgone. by right. }
    rewrite Hnone. simpl. by rewrite take_nil.
Qed.

(** ** The search link of a gap *)

Lemma blank_cons (c : ascii) (s : string) :
  PyStr.contains " " (String c s) = Ascii.eqb " " c || PyStr.contains " " s.
Proof.
  change (PyStr.contains " " (String c s))
    with ((Ascii.eqb " " c && PyStr.startswith "" s) || PyStr.contains " " s).
  replace (PyStr.startswith "" s) with true by (by destruct s).
  by rewrite andb_true_r.
Qed.

Lemma no_blank_app (a b : string) :
  PyStr.contains " " (a ++ b)
  = PyStr.contains " " a || PyStr.contains " " b.
Proof.
  induction a as [|c a IH].
  - reflexivity.
  - change (String c a ++ b) with (String c (a ++ b)).
    rewrite !blank_cons, IH. apply orb_assoc.
Qed.

Lemma string_length_app (a b : string) :
  String.length (a ++ b) = (String.length a + String.length b)%nat.
Proof. induction a as [|c a IH]; simpl; [done|]. by rewrite IH. Qed.

Lemma blanks_replaced (s : string) :
  PyStr.contains " " (PyStr.replace_from 0 " " "+" s) = false
  ∧ String.length (PyStr.replace_from 0 " " "+" s) = String.length s.
Proof.
  induction s as [|c s [IH1 IH2]]; [done|].
  change (PyStr.replace_from 0 " " "+" (String c s))
    with (if Ascii.eqb " " c && PyStr.startswith "" s
          then String "+" (PyStr.replace_from 0 " " "+" s)
          else String c (PyStr.replace_from 0 " " "+" s)).
  replace (PyStr.startswith "" s) with true by (by destruct s).
  rewrite andb_true_r.
  destruct (Ascii.eqb " " c) eqn:E; rewrite blank_cons, IH1; cbn [String.length].
  - by rewrite IH2.
  - by rewrite E, IH2.
Qed.

(** X8.  [_get_simple_learning_resources]: the list has one entry; every blank
    of the skill name is replaced by one [+] in its link, so the link has
    no blank and is as long as its fixed part and the name together. *)
Theorem search_link_has_no_blank (skill_name : string) :
  ∃ resource,
    _get_simple_learning_resources skill_name = [resource]
    ∧ lr_title resource = "Learn " ++ skill_name
    ∧ PyStr.contains " " (lr_url resource) = false
    ∧ String.length (lr_url resource) = (38 + String.length skill_name)%nat.
Proof.
  eexists. split; [reflexivity|]. split; [reflexivity|].
  cbn [lr_url]. unfold PyStr.replace.
  destruct (blanks_replaced skill_name) as [Hblank Hlength].
  split.
  - rewrite no_blank_app, Hblank. reflexivity.
  - rewrite string_length_app, Hlength. reflexivity.
Qed.

End StoredMatches.

(** ** The counters of the gap report *)

Section GapCounters.
Import Models JobMatching.

Definition priority_is (p q : Priority) : bool :=
  match p, q with
  | high, high | medium, medium | low, low => true
  | _, _ => false
  end.

(** The number of listed gaps that satisfy [P]. *)
Definition count_gaps (P : GapInfo → bool) (by_category : gmap string (list GapInfo))
  : nat :=
  sum_list_with (fun kv => length (List.filter P kv.2)) (map_to_list by_category).

Lemma count_gaps_empty P : count_gaps P ∅ = 0%nat.
Proof. unfold count_gaps. by rewrite map_to_list_empty. Qed.

Lemma count_gaps_insert P (g : gmap string (list GapInfo)) k v :
  g !! k = None →
  count_gaps P (<[k := v]> g) = (length (List.filter P v) + count_gaps P g)%nat.
Proof.
  intros Hk. unfold count_gaps.
  by rewrite (sum_list_with_Permutation_proper _ _ _ (map_to_list_insert g k v Hk)).
Qed.

Lemma count_gaps_append P (g : gmap string (list GapInfo)) k gap :
  count_gaps P (<[k := (default [] (g !! k) ++ [gap])%list]> g)
  = ((if P gap then 1 else 0) + count_gaps P g)%nat.
Proof.
  destruct (g !! k) as [v|] eqn:Hk; simpl.
  - rewrite <- (insert_delete_id g k v Hk) at 2.
    rewrite <- insert_delete_eq.
    rewrite !count_gaps_insert by apply lookup_delete_eq.
    rewrite List.filter_app, length_app. simpl. destruct (P gap); simpl; lia.
  - rewrite count_gaps_insert by done. simpl. destruct (P gap); simpl; lia.
Qed.

(** The skill ids of [l] that the catalogue knows. *)
Definition known_ids (emsi_skills : list EmsiSkill) (l : list string) : list string :=
  List.filter (fun skill_id => bool_decide (is_Some (find_emsi_skill emsi_skills skill_id))) l.

(** What the loop over the missing ids keeps true of its accumulator. *)
Definition counters_ok (acc : GapAcc) : Prop :=
  let '(gaps_by_category, high_count, medium_count, low_count) := acc in
  high_count = count_gaps (fun gap => priority_is (gi_priority gap) high) gaps_by_category
  ∧ medium_count = count_gaps (fun gap => priority_is (gi_priority gap) medium) gaps_by_category
  ∧ low_count = count_gaps (fun gap => priority_is (gi_priority gap) low) gaps_by_category
  ∧ (∀ category gaps, gaps_by_category !! category = Some gaps →
       gaps ≠ [] ∧ Forall (fun gap => gi_skill_type gap = category) gaps).

Lemma gap_step_counters emsi_skills job_skill_dict acc skill_id :
  counters_ok acc → counters_ok (gap_step emsi_skills job_skill_dict acc skill_id).
Proof.
  destruct acc as [[[g h] m] l]. intros (Hh & Hm & Hl & Hlists).
  unfold gap_step. destruct (find_emsi_skill emsi_skills skill_id) as [skill_result|];
    [|done].
  cbv zeta.
  assert (Hnew : ∀ gap category gaps,
            gi_skill_type gap = es_skill_type skill_result →
            <[es_skill_type skill_result :=
                (default [] (g !! es_skill_type skill_result) ++ [gap])%list]> g
              !! category = Some gaps →
            gaps ≠ [] ∧ Forall (fun gap => gi_skill_type gap = category) gaps).
  { intros gap category gaps Htype Hlook.
    destruct (decide (es_skill_type skill_result = category)) as [<-|Hne].
    - rewrite lookup_insert_eq in Hlook. inversion Hlook as [Heq]. split.
      + by destruct (default [] _).
      + apply Forall_app. split; [|by constructor].
        destruct (g !! es_skill_type skill_result) as [old|] eqn:Hold; [|constructor].
        by apply (Hlists _ _ Hold).
    - rewrite lookup_insert_ne in Hlook by done. by apply Hlists. }
  destruct (Py.leb 1 _); [|destruct (Py.leb 0.7 _)]; unfold counters_ok;
    rewrite !count_gaps_append; simpl;
    (split; [lia|split; [lia|split; [lia|]]]);
    intros category gaps; by apply Hnew.
Qed.

Lemma gap_fold_counters emsi_skills job_skill_dict (l : list string) acc :
  counters_ok acc →
  counters_ok (fold_left (gap_step emsi_skills job_skill_dict) l acc).
Proof.
  revert acc. induction l as [|skill_id l IH]; intros acc Hacc; [done|].
  simpl. by apply IH, gap_step_counters.
Qed.

Lemma gap_step_listed emsi_skills job_skill_dict acc skill_id :
  count_gaps (fun _ => true) (gap_step emsi_skills job_skill_dict acc skill_id).1.1.1
  = (count_gaps (fun _ => true) acc.1.1.1 + length (known_ids emsi_skills [skill_id]))%nat.
Proof.
  destruct acc as [[[g h] m] l]. unfold gap_step, known_ids. simpl.
  destruct (find_emsi_skill emsi_skills skill_id) as [skill_result|]; simpl.
  - destruct (Py.leb 1 _); [|destruct (Py.leb 0.7 _)]; simpl;
      rewrite count_gaps_append; lia.
  - lia.
Qed.

Lemma gap_fold_listed emsi_skills job_skill_dict (l : list string) acc :
  count_gaps (fun _ => true) (fold_left (gap_step emsi_skills job_skill_dict) l acc).1.1.1
  = (count_gaps (fun _ => true) acc.1.1.1 + length (known_ids emsi_skills l))%nat.
Proof.
  revert acc. induction l as [|skill_id l IH]; intros acc; simpl; [unfold known_ids; simpl; lia|].
  rewrite IH, gap_step_listed. unfold known_ids. simpl.
  destruct (bool_decide _); simpl; lia.
Qed.

Lemma count_gaps_split (g : gmap string (list GapInfo)) :
  count_gaps (fun _ => true) g
  = (count_gaps (fun gap => priority_is (gi_priority gap) high) g
     + count_gaps (fun gap => priority_is (gi_priority gap) medium) g
     + count_gaps (fun gap => priority_is (gi_priority gap) low) g)%nat.
Proof.
  unfold count_gaps. induction (map_to_list g) as [|[k v] l IH]; simpl; [done|].
  rewrite IH. clear IH.
  assert (Hv : length (List.filter (fun _ : GapInfo => true) v)
               = (length (List.filter (fun gap => priority_is (gi_priority gap) high) v)
                  + length (List.filter (fun gap => priority_is (gi_priority gap) medium) v)
                  + length (List.filter (fun gap => priority_is (gi_priority gap) low) v))%nat).
  { induction v as [|gap v IHv]; simpl; [done|].
    destruct (gi_priority gap); simpl; lia. }
  lia.
Qed.

(** X9.  [calculate_skill_gaps_dynamic]: the three counters count the listed
    gaps of each priority; together they are the number of missing ids that
    [emsi_skills] knows, which is at most ['total_gaps'], the number of all
    missing ids; no category is listed with an empty list, and a gap is
    listed under its skill type. *)
Theorem gap_report_counters cosine_similarity
    (user_rows : list UserSkillEmsi) (job_skills : list JobSkillEmsi)
    (emsi_skills : list EmsiSkill) :
  let report :=
    calculate_skill_gaps_dynamic cosine_similarity user_rows job_skills emsi_skills in
  let missing_skill_ids : gset string :=
    dom (job_skill_dict job_skills) ∖ dom (_get_user_skills user_rows) in
  gr_high_priority_gaps report
  = count_gaps (fun gap => priority_is (gi_priority gap) high) (gr_gaps_by_category report)
  ∧ gr_medium_priority_gaps report
    = count_gaps (fun gap => priority_is (gi_priority gap) medium) (gr_gaps_by_category report)
  ∧ gr_low_priority_gaps report
    = count_gaps (fun gap => priority_is (gi_priority gap) low) (gr_gaps_by_category report)
  ∧ (gr_high_priority_gaps report + gr_medium_priority_gaps report
     + gr_low_priority_gaps report)%nat
    = length (known_ids emsi_skills (elements missing_skill_ids))
  ∧ gr_total_gaps report = size missing_skill_ids
  ∧ (gr_high_priority_gaps report + gr_medium_priority_gaps report
     + gr_low_priority_gaps report <= gr_total_gaps report)%nat
  ∧ (∀ category gaps, gr_gaps_by_category report !! category = Some gaps →
       gaps ≠ [] ∧ Forall (fun gap => gi_skill_type gap = category) gaps).
Proof.
  intros report missing_skill_ids. subst report.
  unfold calculate_skill_gaps_dynamic. cbv zeta.
  fold missing_skill_ids.
  pose proof (gap_fold_counters emsi_skills (job_skill_dict job_skills)
                (elements missing_skill_ids) (∅, 0, 0, 0)%nat) as Hinv.
  pose proof (gap_fold_listed emsi_skills (job_skill_dict job_skills)
                (elements missing_skill_ids) (∅, 0, 0, 0)%nat) as Hlisted.
  destruct (fold_left _ _ _) as [[[g h] m] l].
  destruct Hinv as (Hh & Hm & Hl & Hlists).
  { unfold counters_ok. rewrite !count_gaps_empty.
    repeat split; try done; intros ? ? E; by rewrite lookup_empty in E. }
  simpl in Hlisted. rewrite count_gaps_empty in Hlisted.
  assert (Hfilter : filter (fun kv : string * list GapInfo => length kv.2 ≠ 0%nat) g = g).
  { apply map_filter_id. intros category gaps Hlook. simpl.
    destruct (Hlists _ _ Hlook) as [Hne _]. by destruct gaps. }
  cbn [gr_high_priority_gaps gr_medium_priority_gaps gr_low_priority_gaps
       gr_gaps_by_category gr_total_gaps].
  rewrite Hfilter.
  assert (Hsum : (h + m + l)%nat = length (known_ids emsi_skills (elements missing_skill_ids))).
  { rewrite Hh, Hm, Hl, <- count_gaps_split. by rewrite Hlisted. }
  split; [done|]. split; [done|]. split; [done|]. split; [done|].
  split; [done|]. split; [|exact Hlists].
  rewrite Hsum. unfold known_ids.
  etransitivity; [apply List.filter_length_le|]. by rewrite length_elements.
Qed.

End GapCounters.

(** ** Statistics of the stored matches *)

Section MatchingStatistics.
Import Models JobMatching.
Context (arith : Py.FloatArith).

Lemma bands_partition (similarities : list Q) :
  (length (List.filter (fun s => Py.leb 0.7 s) similarities)
   + length (List.filter (fun s => Py.leb 0.4 s && Py.ltb s 0.7) similarities)
   + length (List.filter (fun s => Py.ltb s 0.4) similarities)
   = length similarities)%nat.
Proof.
  induction similarities as [|s l IH]; simpl; [done|].
  destruct (Py.leb 0.7 s) eqn:Ehigh.
  - apply leb_spec in Ehigh.
    assert (Hlow : Py.ltb s 0.4 = false) by (apply ltb_false; lra).
    assert (Hmid : Py.ltb s 0.7 = false) by (by apply ltb_false).
    rewrite Hlow, Hmid, andb_false_r. simpl. lia.
  - apply leb_false in Ehigh.
    assert (Hmid : Py.ltb s 0.7 = true) by (by apply ltb_spec).
    rewrite Hmid, andb_true_r.
    destruct (Py.leb 0.4 s) eqn:Emid.
    + apply leb_spec in Emid.
      assert (Hlow : Py.ltb s 0.4 = false) by (by apply ltb_false).
      rewrite Hlow. simpl. lia.
    + apply leb_false in Emid.
      assert (Hlow : Py.ltb s 0.4 = true) by (by apply ltb_spec).
      rewrite Hlow. simpl. lia.
Qed.

Lemma max_of_spec (l : list Q) (x : Q) :
  x <= Py.max_of x l
  ∧ Forall (fun s => s <= Py.max_of x l) l
  ∧ In (Py.max_of x l) (x :: l).
Proof.
  revert x. induction l as [|s l IH]; intros x; unfold Py.max_of; simpl.
  - repeat split; [apply Qle_refl|constructor|by left].
  - destruct (Py.ltb x s) eqn:E.
    + apply ltb_spec in E. destruct (IH s) as (H1 & H2 & H3).
      fold (Py.max_of s l). repeat split.
      * apply Qlt_le_weak in E. by apply (Qle_trans _ s).
      * by constructor.
      * destruct H3 as [<-|H3]; [right; by left|by do 2 right].
    + apply ltb_false in E. destruct (IH x) as (H1 & H2 & H3).
      fold (Py.max_of x l). repeat split; [done| |].
      * constructor; [by apply (Qle_trans _ x)|done].
      * destruct H3 as [<-|H3]; [by left|by do 2 right].
Qed.

(** A band is empty exactly when no score lies in it. *)
Lemma high_band_positive (similarities : list Q) (best : Q) :
  In best similarities → Forall (fun s => s <= best) similarities →
  (0 < length (List.filter (fun s => Py.leb 0.7 s) similarities))%nat ↔ 0.7 <= best.
Proof.
  intros Hin Hall. split.
  - intros Hpos.
    destruct (List.filter (fun s => Py.leb 0.7 s) similarities) as [|s l] eqn:E;
      [simpl in Hpos; lia|].
    assert (Hs : In s (List.filter (fun s => Py.leb 0.7 s) similarities))
      by (rewrite E; by left).
    apply filter_In in Hs as [Hs Hhigh]. apply leb_spec in Hhigh.
    rewrite List.Forall_forall in Hall. specialize (Hall s Hs).
    by apply (Qle_trans _ s).
  - intros Hbest.
    assert (Hb : In best (List.filter (fun s => Py.leb 0.7 s) similarities)).
    { apply filter_In. split; [done|]. by apply leb_spec. }
    destruct (List.filter _ similarities); [done|]. simpl. lia.
Qed.

(** The rows of a user in [job_matches]. *)
Definition rows_of (job_matches : list JobMatch) (user_id : Z) : list JobMatch :=
  List.filter (fun m => (jm_user_id m =? user_id)%Z) job_matches.

Lemma stats_without_best (job_matches : list JobMatch) (user_id : Z) :
  st_best_match_score (get_matching_stats arith job_matches user_id) = None
  ↔ rows_of job_matches user_id = []
    ∨ ∃ m, m ∈ rows_of job_matches user_id ∧ jm_similarity_score m = None.
Proof.
  unfold get_matching_stats. cbv zeta. fold (rows_of job_matches user_id).
  destruct (rows_of job_matches user_id) as [|m rows] eqn:Erows.
  { simpl. split; [by left|done]. }
  cbn [length Nat.eqb].
  destruct (mapM jm_similarity_score (m :: rows)) as [similarities|] eqn:Emap.
  - pose proof (length_mapM _ _ _ Emap) as Hlen.
    destruct similarities as [|first rest]; [discriminate|].
    cbn [st_best_match_score].
    split; [done|]. intros [?|(m' & Hm' & Hnone)]; [done|].
    apply mapM_Some_1 in Emap.
    apply list_elem_of_lookup_1 in Hm' as [i Hi].
    destruct (Forall2_lookup_l _ _ _ _ _ Emap Hi) as (s & _ & Hs). congruence.
  - split; [|done]. intros _. right.
    apply mapM_None_1 in Emap. apply Exists_exists in Emap as (m' & Hm' & Hnone).
    by exists m'.
Qed.

Lemma stats_bands (job_matches : list JobMatch) (user_id : Z) :
  let stats := get_matching_stats arith job_matches user_id in
  (st_high_matches stats + st_medium_matches stats + st_low_matches stats
   = st_total_matches stats)%nat.
Proof.
  unfold get_matching_stats. cbv zeta.
  destruct (_ =? 0)%nat; [done|].
  destruct (mapM _ _) as [[|first rest]|] eqn:Emap; [done| |done].
  cbn [st_high_matches st_medium_matches st_low_matches st_total_matches].
  rewrite bands_partition. symmetry. by apply (length_mapM _ _ _ Emap).
Qed.

Lemma stats_with_best (job_matches : list JobMatch) (user_id : Z) (best : Q) :
  let stats := get_matching_stats arith job_matches user_id in
  st_best_match_score stats = Some best →
  st_total_matches stats = length (rows_of job_matches user_id)
  ∧ (∃ m, m ∈ job_matches ∧ jm_user_id m = user_id
          ∧ jm_similarity_score m = Some best)
  ∧ (∀ m s, m ∈ rows_of job_matches user_id →
            jm_similarity_score m = Some s → s <= best)
  ∧ ((0 < st_high_matches stats)%nat ↔ 0.7 <= best)
  ∧ ∃ similarities,
      mapM jm_similarity_score (rows_of job_matches user_id) = Some similarities
      ∧ st_avg_similarity stats
        = Py.float_div arith (Py.float_sum arith similarities)
            (inject_Z (Z.of_nat (length (rows_of job_matches user_id)))).
Proof.
  unfold get_matching_stats. cbv zeta.
  fold (rows_of job_matches user_id).
  destruct (_ =? 0)%nat; [done|].
  destruct (mapM _ _) as [[|first rest]|] eqn:Emap; [done| |done].
  cbn [st_best_match_score st_total_matches st_avg_similarity st_high_matches].
  intros [= <-]. split; [done|].
  destruct (max_of_spec rest first) as (Hfirst & Hrest & Hin).
  pose proof (length_mapM _ _ _ Emap) as Hlen.
  apply mapM_Some_1 in Emap.
  split; [|split; [|split]].
  - apply list_elem_of_In, list_elem_of_lookup_1 in Hin as [i Hi].
    destruct (Forall2_lookup_r _ _ _ _ _ Emap Hi) as (m & Hm & Hs).
    apply list_elem_of_lookup_2 in Hm.
    apply list_elem_of_In, filter_In in Hm as [Hm Huser].
    exists m. rewrite list_elem_of_In. repeat split; [done| |done].
    by apply Z.eqb_eq.
  - intros m s Hm Hs.
    apply list_elem_of_lookup_1 in Hm as [i Hi].
    destruct (Forall2_lookup_l _ _ _ _ _ Emap Hi) as (s' & Hs' & Hms).
    assert (s' = s) as -> by congruence.
    apply list_elem_of_lookup_2, list_elem_of_In in Hs'.
    destruct Hs' as [<-|Hs']; [done|].
    rewrite List.Forall_forall in Hrest. by apply Hrest.
  - apply high_band_positive; [done|]. by constructor.
  - exists (first :: rest). split; [done|]. by rewrite Hlen.
Qed.

Lemma stats_none_total (job_matches : list JobMatch) (user_id : Z) :
  st_best_match_score (get_matching_stats arith job_matches user_id) = None →
  st_total_matches (get_matching_stats arith job_matches user_id) = 0%nat.
Proof.
  unfold get_matching_stats. cbv zeta.
  destruct (_ =? 0)%nat; [done|].
  by destruct (mapM _ _) as [[|first rest]|].
Qed.

(** X10.  [get_matching_stats], whatever the rounding of the average: the
    three bands count every match of the user once; when a best score is
    reported it is the score of one of the user's matches, no score of the
    user exceeds it, the band of high matches is not empty exactly when it
    reaches 0.7, and the average is the float quotient of the float sum of
    the user's scores, in the order of the rows, by their number; no best
    score is reported exactly when the user has no match or one of the
    scores is [NULL], in which case all counts are zero. *)
Theorem matching_stats_bands (job_matches : list JobMatch) (user_id : Z) :
  let stats := get_matching_stats arith job_matches user_id in
  (st_high_matches stats + st_medium_matches stats + st_low_matches stats
   = st_total_matches stats)%nat
  ∧ (∀ best, st_best_match_score stats = Some best →
       st_total_matches stats = length (rows_of job_matches user_id)
       ∧ (∃ m, m ∈ job_matches ∧ jm_user_id m = user_id
               ∧ jm_similarity_score m = Some best)
       ∧ (∀ m s, m ∈ rows_of job_matches user_id →
                 jm_similarity_score m = Some s → s <= best)
       ∧ ((0 < st_high_matches stats)%nat ↔ 0.7 <= best)
       ∧ ∃ similarities,
           mapM jm_similarity_score (rows_of job_matches user_id) = Some similarities
           ∧ st_avg_similarity stats
             = Py.float_div arith (Py.float_sum arith similarities)
                 (inject_Z (Z.of_nat (length (rows_of job_matches user_id)))))
  ∧ (st_best_match_score stats = None
     ↔ rows_of job_matches user_id = []
       ∨ ∃ m, m ∈ rows_of job_matches user_id ∧ jm_similarity_score m = None)
  ∧ (st_best_match_score stats = None → st_total_matches stats = 0%nat).
Proof.
  intros stats. subst stats.
  split; [apply stats_bands|].
  split; [intros best; apply stats_with_best|].
  split; [apply stats_without_best|apply stats_none_total].
Qed.

End MatchingStatistics.

(** ** The statistics endpoint *)

Section StatisticsEndpoint.
Import Models MatchingRouter.
Context (arith : Py.FloatArith).

(** X11.  [get_matching_stats] of the router, whatever the rounding of the
    average: for a user who exists, the answer is the error 500 exactly
    when the service reports no best score, that is when the user has no
    stored match or a stored score is [NULL]; otherwise the response
    counts every stored match of the user once over its three bands and
    its best score is the score of one of them that none exceeds; an
    unknown user gets 404. *)
Theorem statistics_endpoint_answers (users : list Z) (job_matches : list JobMatch)
    (user_id : Z) :
  (user_id ∉ users →
   get_matching_stats arith users job_matches user_id
   = HTTPException 404 "User not found")
  ∧ (user_id ∈ users →
     (rows_of job_matches user_id = []
      ∨ ∃ m, m ∈ rows_of job_matches user_id ∧ jm_similarity_score m = None) →
     get_matching_stats arith users job_matches user_id
     = HTTPException 500 "Failed to get matching statistics")
  ∧ (user_id ∈ users →
     rows_of job_matches user_id ≠ [] →
     (∀ m, m ∈ rows_of job_matches user_id → is_Some (jm_similarity_score m)) →
     ∃ response,
       get_matching_stats arith users job_matches user_id = Success response
       ∧ total_matches response = length (rows_of job_matches user_id)
       ∧ (high_matches response + medium_matches response + low_matches response
          = total_matches response)%nat
       ∧ (∃ m, m ∈ rows_of job_matches user_id
               ∧ jm_similarity_score m = Some (best_match_score response))
       ∧ (∀ m s, m ∈ rows_of job_matches user_id →
                 jm_similarity_score m = Some s → s <= best_match_score response)).
Proof.
  assert (Hknown : ∀ b, existsb (Z.eqb user_id) users = b ↔
                        (if b then user_id ∈ users else user_id ∉ users)).
  { intros b. destruct (existsb (Z.eqb user_id) users) eqn:E.
    - apply existsb_exists in E as (u & Hu & ->%Z.eqb_eq).
      apply list_elem_of_In in Hu. destruct b; split; done.
    - assert (user_id ∉ users).
      { intros Hin. apply list_elem_of_In in Hin.
        assert (existsb (Z.eqb user_id) users = true); [|congruence].
        apply existsb_exists. exists user_id. by rewrite Z.eqb_refl. }
      destruct b; split; done. }
  unfold get_matching_stats.
  pose proof (stats_bands arith job_matches user_id) as Hbands.
  pose proof (stats_with_best arith job_matches user_id) as Hbest.
  pose proof (stats_without_best arith job_matches user_id) as Hnone.
  cbv zeta in Hbands, Hbest.
  split; [|split].
  - intros Hnot. apply (Hknown false) in Hnot. by rewrite Hnot.
  - intros Hin Hcase. apply (Hknown true) in Hin. rewrite Hin. simpl.
    apply Hnone in Hcase. unfold matching_stats_response. by rewrite Hcase.
  - intros Hin Hrows Hscores. apply (Hknown true) in Hin. rewrite Hin. simpl.
    destruct (JobMatching.st_best_match_score
                (JobMatching.get_matching_stats arith job_matches user_id))
      as [best|] eqn:E.
    + destruct (Hbest best eq_refl) as (Htotal & (m & Hm & Huser & Hscore) & Hmax & _).
      unfold matching_stats_response. rewrite E. simpl.
      eexists. split; [reflexivity|]. simpl.
      split; [done|]. split; [done|]. split; [|done].
      exists m. split; [|done].
      apply list_elem_of_In, filter_In. rewrite <- list_elem_of_In.
      split; [done|]. by apply Z.eqb_eq.
    + apply (stats_without_best arith job_matches user_id) in E
        as [E|(m & Hm & Hnull)]; [done|].
      destruct (Hscores m Hm) as [? ?]. congruence.
Qed.

End StatisticsEndpoint.

(** ** The skill vocabulary *)

Section Vocabulary.
Import Models TFIDF.

Lemma vocabulary_snoc (skills : list SkillV2) (skill : SkillV2) :
  _build_skill_vocabulary (skills ++ [skill])
  = vocabulary_step (_build_skill_vocabulary skills) (length skills, skill).
Proof.
  unfold _build_skill_vocabulary. rewrite imap_app, fold_left_app. simpl.
  by rewrite Nat.add_0_r.
Qed.

Lemma index_to_skill_lookup (skills : list SkillV2) (i : nat) :
  (_build_skill_vocabulary skills).2 !! i = sk_id <$> skills !! i.
Proof.
  induction skills as [|skill skills IH] using rev_ind; [done|].
  rewrite vocabulary_snoc. destruct (_build_skill_vocabulary skills) as [s2i i2s].
  simpl in *. destruct (decide (i = length skills)) as [->|Hne].
  - rewrite lookup_insert_eq, lookup_app_r, Nat.sub_diag by lia. done.
  - rewrite lookup_insert_ne by done. rewrite IH.
    destruct (decide (i < length skills)%nat) as [Hlt|Hge].
    + by rewrite lookup_app_l.
    + rewrite (lookup_ge_None_2 skills) by lia.
      rewrite lookup_ge_None_2; [done|]. rewrite length_app. simpl. lia.
Qed.

Lemma skill_to_index_sound (skills : list SkillV2) (id : Z) (i : nat) :
  (_build_skill_vocabulary skills).1 !! id = Some i →
  ∃ skill, skills !! i = Some skill ∧ sk_id skill = id.
Proof.
  revert i. induction skills as [|skill skills IH] using rev_ind; intros i; [done|].
  rewrite vocabulary_snoc. destruct (_build_skill_vocabulary skills) as [s2i i2s].
  simpl in *. destruct (decide (sk_id skill = id)) as [<-|Hne].
  - rewrite lookup_insert_eq. intros [= <-]. exists skill.
    by rewrite lookup_app_r, Nat.sub_diag by lia.
  - rewrite lookup_insert_ne by done. intros Hi.
    destruct (IH i Hi) as (skill' & Hlook & Hid). exists skill'.
    split; [|done]. by apply lookup_app_l_Some.
Qed.

Lemma skill_to_index_complete (skills : list SkillV2) (i : nat) (skill : SkillV2) :
  NoDup (map sk_id skills) →
  skills !! i = Some skill →
  (_build_skill_vocabulary skills).1 !! sk_id skill = Some i.
Proof.
  revert i. induction skills as [|last skills IH] using rev_ind; intros i; [done|].
  rewrite map_app. intros Hnodup Hi.
  apply NoDup_app in Hnodup as (Hnodup & Hfresh & _).
  rewrite vocabulary_snoc. destruct (_build_skill_vocabulary skills) as [s2i i2s].
  simpl in *. destruct (decide (i < length skills)%nat) as [Hlt|Hge].
  - rewrite lookup_app_l in Hi by done.
    rewrite lookup_insert_ne; [by apply IH|].
    intros Heq. apply (Hfresh (sk_id skill)).
    + apply list_elem_of_In, in_map, list_elem_of_In. by eapply list_elem_of_lookup_2.
    + rewrite Heq. apply list_elem_of_here.
  - rewrite lookup_app_r in Hi by lia.
    destruct (i - length skills)%nat as [|k] eqn:Ek; [|by destruct k].
    injection Hi as <-. assert (i = length skills) as -> by lia.
    apply lookup_insert_eq.
Qed.

(** X12.  [_build_skill_vocabulary]: [index_to_skill] numbers the skills in the
    order of the query, from 0; an index stored for an id in
    [skill_to_index] leads back to that id; and when the ids are distinct,
    as a primary key is, the two dicts are inverse to each other. *)
Theorem vocabulary_round_trip (skills : list SkillV2) :
  let '(skill_to_index, index_to_skill) := _build_skill_vocabulary skills in
  (∀ i, index_to_skill !! i = sk_id <$> skills !! i)
  ∧ (∀ id i, skill_to_index !! id = Some i → index_to_skill !! i = Some id)
  ∧ (NoDup (map sk_id skills) →
     ∀ id i, index_to_skill !! i = Some id → skill_to_index !! id = Some i).
Proof.
  pose proof (index_to_skill_lookup skills) as Hi2s.
  pose proof (skill_to_index_sound skills) as Hsound.
  pose proof (skill_to_index_complete skills) as Hcomplete.
  destruct (_build_skill_vocabulary skills) as [skill_to_index index_to_skill].
  simpl in *. split; [done|]. split.
  - intros id i Hid. destruct (Hsound id i Hid) as (skill & Hlook & <-).
    by rewrite Hi2s, Hlook.
  - intros Hnodup id i Hi. rewrite Hi2s in Hi.
    destruct (skills !! i) as [skill|] eqn:Hlook; [|done].
    injection Hi as <-. by apply Hcomplete.
Qed.

End Vocabulary.

(** ** The variations of a skill name *)

Section Variations.
Import Models PyStr TFIDF.

Lemma mem_spec (s : string) (l : list string) : mem s l = true ↔ s ∈ l.
Proof.
  unfold mem. rewrite existsb_exists. split.
  - intros (x & Hx & ->%String.eqb_eq). by apply list_elem_of_In.
  - intros Hs. exists s. split; [by apply list_elem_of_In|apply String.eqb_refl].
Qed.

Lemma reverse_fold (skill_name : string) (mappings : list (string * list string))
    (variations : list string) (x : string) :
  x ∈ fold_left (reverse_step skill_name) mappings variations
  ↔ x ∈ variations ∨ ∃ values, (x, values) ∈ mappings ∧ skill_name ∈ values.
Proof.
  revert variations. induction mappings as [|[key values] mappings IH];
    intros variations; simpl.
  - split; [by left|]. intros [?|(values & Hin & _)]; [done|].
    by apply elem_of_nil in Hin.
  - rewrite IH. clear IH.
    destruct (mem skill_name values) eqn:Emem; simpl.
    + apply mem_spec in Emem.
      destruct (mem key variations) eqn:Ekey; simpl.
      * apply mem_spec in Ekey. split.
        -- intros [?|(vs & Hin & Hs)]; [by left|]. right. exists vs.
           split; [by right|done].
        -- intros [?|(vs & Hin & Hs)]; [by left|].
           apply elem_of_cons in Hin as [[= -> ->]|Hin]; [by left|].
           right. by exists vs.
      * split.
        -- intros [Hx|(vs & Hin & Hs)].
           ++ apply elem_of_app in Hx as [?|Hx]; [by left|].
              apply list_elem_of_singleton in Hx as ->. right. exists values.
              split; [by left|done].
           ++ right. exists vs. split; [by right|done].
        -- intros [?|(vs & Hin & Hs)].
           ++ left. apply elem_of_app. by left.
           ++ apply elem_of_cons in Hin as [[= -> ->]|Hin].
              ** left. apply elem_of_app. right. by apply list_elem_of_singleton.
              ** right. by exists vs.
    + assert (Hnot : skill_name ∉ values).
      { intros Hin. apply mem_spec in Hin. congruence. }
      split.
      * intros [?|(vs & Hin & Hs)]; [by left|]. right. exists vs.
        split; [by right|done].
      * intros [?|(vs & Hin & Hs)]; [by left|].
        apply elem_of_cons in Hin as [[= -> ->]|Hin]; [done|].
        right. by exists vs.
Qed.

Lemma skill_mappings_keys : NoDup (map fst skill_mappings).
Proof.
  apply (bool_decide_unpack (NoDup (map fst skill_mappings))). vm_compute. exact I.
Qed.

Lemma find_first_key (mappings : list (string * list string)) (key : string)
    (values : list string) :
  NoDup (map fst mappings) →
  snd <$> List.find (fun p => String.eqb (fst p) key) mappings = Some values
  ↔ (key, values) ∈ mappings.
Proof.
  induction mappings as [|[k vs] mappings IH]; simpl.
  - intros _. split; [done|]. intros Hin. by apply elem_of_nil in Hin.
  - intros Hnodup. apply NoDup_cons in Hnodup as [Hk Hnodup].
    destruct (String.eqb k key) eqn:E; simpl.
    + apply String.eqb_eq in E as ->. split.
      * intros [= ->]. by left.
      * intros Hin. apply elem_of_cons in Hin as [[= ->]|Hin]; [done|].
        exfalso. apply Hk. apply list_elem_of_In, in_map_iff.
        exists (key, values). split; [done|]. by apply list_elem_of_In.
    + apply String.eqb_neq in E. rewrite (IH Hnodup). split.
      * intros Hin. by right.
      * intros Hin. apply elem_of_cons in Hin as [[= -> ->]|Hin]; done.
Qed.

Lemma variations_spec (skill_name x : string) :
  x ∈ _get_skill_variations skill_name
  ↔ x = skill_name
    ∨ (∃ values, (skill_name, values) ∈ skill_mappings ∧ x ∈ values)
    ∨ (∃ values, (x, values) ∈ skill_mappings ∧ skill_name ∈ values).
Proof.
  unfold _get_skill_variations. cbv zeta.
  rewrite elem_of_elements, elem_of_list_to_set, reverse_fold.
  unfold direct_mapping.
  destruct (snd <$> List.find _ skill_mappings) as [values|] eqn:Edirect.
  - apply (find_first_key _ _ _ skill_mappings_keys) in Edirect.
    rewrite elem_of_app, list_elem_of_singleton. split.
    + intros [[->|Hx]|Hrev]; [by left| |by do 2 right].
      right. left. by exists values.
    + intros [->|[(vs & Hin & Hx)|Hrev]]; [by do 2 left| |by right].
      left. right.
      apply (find_first_key _ _ _ skill_mappings_keys) in Hin.
      apply (find_first_key _ _ _ skill_mappings_keys) in Edirect.
      congruence.
  - rewrite list_elem_of_singleton. split.
    + intros [->|Hrev]; [by left|by do 2 right].
    + intros [->|[(vs & Hin & Hx)|Hrev]]; [by left| |by right].
      apply (find_first_key _ _ _ skill_mappings_keys) in Hin. congruence.
Qed.

(** X13.  [_get_skill_variations]: the list has no duplicates and holds the
    name itself, the synonyms the table lists under the name, and every
    key under which the table lists the name; hence one name is a
    variation of another exactly when the other is a variation of it, and
    a name the table does not mention has itself as its only variation. *)
Theorem skill_variations_symmetric (a b : string) :
  NoDup (_get_skill_variations a)
  ∧ a ∈ _get_skill_variations a
  ∧ (b ∈ _get_skill_variations a
     ↔ b = a
       ∨ (∃ values, (a, values) ∈ skill_mappings ∧ b ∈ values)
       ∨ (∃ values, (b, values) ∈ skill_mappings ∧ a ∈ values))
  ∧ (b ∈ _get_skill_variations a ↔ a ∈ _get_skill_variations b)
  ∧ ((∀ key values, (key, values) ∈ skill_mappings → a ≠ key ∧ a ∉ values) →
     _get_skill_variations a = [a]).
Proof.
  split; [unfold _get_skill_variations; apply NoDup_elements|].
  split; [apply variations_spec; by left|].
  split; [apply variations_spec|].
  split.
  - rewrite !variations_spec. split.
    + intros [->|[H|H]]; [by left|by do 2 right|by right; left].
    + intros [->|[H|H]]; [by left|by do 2 right|by right; left].
  - intros Hfresh.
    assert (Hperm : _get_skill_variations a ≡ₚ [a]).
    { apply NoDup_Permutation;
        [unfold _get_skill_variations; apply NoDup_elements|apply NoDup_singleton|].
      intros x. rewrite variations_spec, list_elem_of_singleton. split.
      - intros [->|[(vs & Hin & _)|(vs & Hin & Ha)]]; [done| |].
        + by destruct (Hfresh _ _ Hin).
        + by destruct (Hfresh _ _ Hin).
      - intros ->. by left. }
    by apply Permutation_singleton_r in Hperm.
Qed.

End Variations.

(** ** The matches of the vector-space matcher *)

Section VectorMatches.
Import Models TFIDF Session.

Lemma descending_scores {A} (key : A → Q) (l : list A) :
  StronglySorted (not_below Py.ltb key) l →
  StronglySorted (fun a b => key b <= key a) l.
Proof.
  induction 1 as [|x l Hsorted IH Hx]; constructor; [done|].
  eapply Forall_impl; [exact Hx|]. intros y Hy. by apply ltb_false.
Qed.

Lemma no_terms {A} (f : A → list string) (l : list A) :
  (∀ x, x ∈ l → f x = []) → flat_map f l = [].
Proof.
  induction l as [|x l IH]; intros Hf; simpl; [done|].
  rewrite (Hf x (list_elem_of_here _ _)), IH; [done|].
  intros y Hy. apply Hf. by right.
Qed.

Lemma match_of_fields user_skills job_skills_v2 user_id job_doc similarity m :
  m ∈ match_of job_skills_v2 user_skills user_id (job_doc, similarity) →
  m_job_id m = jp_id (doc_job job_doc)
  ∧ m_job_title m = jp_title (doc_job job_doc)
  ∧ m_similarity_score m = similarity
  ∧ m_tfidf_score m = similarity
  ∧ m_cosine_score m = similarity.
Proof.
  unfold match_of. destruct (Py.ltb 0.01 similarity); [|by intros ?%elem_of_nil].
  by intros ->%list_elem_of_singleton.
Qed.

(** X14.  [compute_matches]: the list is in descending order of the similarity
    and has at most [limit] entries; the three scores ['similarity_score'],
    ['tfidf_score'] and ['cosine_score'] of an entry are the same number;
    every entry is for a job of the query; and there is no entry when the
    query finds no job, when the user has no skill row or when the library
    raises. *)
Theorem vector_match_list_shape
    (tfidf_similarities : list string → string → option (list Q))
    (skills : list SkillV2) (job_skills_v2 : list JobSkillV2)
    (user_skills : list UserSkill) (jobs : list JobPosting)
    (user_id : Z) (limit : nat) :
  let out := compute_matches tfidf_similarities skills job_skills_v2 user_skills jobs
               user_id limit in
  StronglySorted (fun a b => m_similarity_score b <= m_similarity_score a) out
  ∧ (length out <= limit)%nat
  ∧ (∀ m, m ∈ out →
       m_tfidf_score m = m_similarity_score m
       ∧ m_cosine_score m = m_similarity_score m
       ∧ ∃ job, job ∈ jobs ∧ m_job_id m = jp_id job ∧ m_job_title m = jp_title job)
  ∧ (jobs = [] → out = [])
  ∧ (skills_of_user user_skills user_id = [] → out = [])
  ∧ ((∀ row, row ∈ skills_of_user user_skills user_id →
            find_skill skills (uk_skill_id row) = None) →
     out = [])
  ∧ ((∀ documents text, tfidf_similarities documents text = None) → out = []).
Proof.
  intros out. subst out. unfold compute_matches.
  destruct (_create_job_skill_documents skills job_skills_v2 jobs)
    as [|doc0 docs] eqn:Edocs.
  { split; [constructor|]. split; [simpl; lia|].
    split; [by intros ? ?%elem_of_nil|done]. }
  destruct (user_text skills user_skills user_id) as [text|] eqn:Etext; cycle 1.
  { split; [constructor|]. split; [simpl; lia|].
    split; [by intros ? ?%elem_of_nil|done]. }
  destruct (tfidf_similarities _ text) as [similarities|] eqn:Elib; cycle 1.
  { split; [constructor|]. split; [simpl; lia|].
    split; [by intros ? ?%elem_of_nil|done]. }
  split.
  { apply descending_scores, take_sorted, sort_reverse_sorted.
    - apply float_ltb_asym.
    - apply float_geb_trans. }
  split; [rewrite length_take; lia|].
  split.
  { intros m Hm. apply elem_of_take in Hm as (i & Hi & _).
    apply list_elem_of_lookup_2 in Hi. rewrite sort_reverse_perm in Hi.
    apply list_elem_of_In, in_flat_map in Hi as ([job_doc similarity] & Hzip & Hin).
    apply list_elem_of_In in Hin.
    apply match_of_fields in Hin as (Hid & Htitle & Hsim & Htfidf & Hcos).
    split; [congruence|]. split; [congruence|].
    apply in_combine_l in Hzip. rewrite <- Edocs in Hzip.
    unfold _create_job_skill_documents in Hzip.
    apply in_map_iff in Hzip as (job & <- & Hjob).
    exists job. by rewrite list_elem_of_In. }
  split; [intros ->; by simpl in Edocs|].
  split.
  { intros Hnone. unfold user_text in Etext. by rewrite Hnone in Etext. }
  split.
  - intros Hunknown. exfalso. unfold user_text in Etext.
    destruct (skills_of_user user_skills user_id) as [|row rows] eqn:Erows; [done|].
    unfold user_skill_names in Etext. rewrite user_document_fold in Etext.
    rewrite no_terms in Etext; [done|].
    intros row' Hrow'. unfold user_row_terms. by rewrite (Hunknown row' Hrow').
  - intros Hnone. by rewrite Hnone in Elib.
Qed.

(** ** Learning time and resources of a stored gap *)

(** X15.  [_estimate_learning_time] and [_get_learning_resources] compare the
    value of the skill type with ['technical'] and ['soft']; the values of
    [SkillType] are in upper case, so for a skill of any type the estimate
    is 25 hours and the list of resources is empty, and every gap row that
    [_create_skill_gaps] adds carries 25 hours. *)
Theorem stored_gap_learning_time (skill : SkillV2) (t : SkillType) :
  sk_skill_type skill = skill_type_value t →
  _estimate_learning_time skill = 25%nat
  ∧ _get_learning_resources skill = []
  ∧ ∀ F skills match_id skill_id s,
      find_skill skills skill_id = Some skill →
      ∃ gaps,
        (create_gap_step F skills match_id tt skill_id s).2 = with_gaps s gaps
        ∧ Forall (fun g => sg_estimated_learning_time g = 25%nat) gaps.
Proof.
  intros Htype.
  assert (Htime : _estimate_learning_time skill = 25%nat).
  { unfold _estimate_learning_time. rewrite Htype. by destruct t. }
  split; [exact Htime|]. split.
  - unfold _get_learning_resources. rewrite Htype. by destruct t.
  - intros F skills match_id skill_id s Hfind.
    rewrite create_gap_step_run, Hfind.
    destruct (skill_query_fails F skill_id).
    + exists []. by rewrite with_gaps_nil.
    + eexists. split; [reflexivity|]. constructor; [|constructor].
      unfold stored_gap. simpl. exact Htime.
Qed.

(** A run of X15: a Python skill of type TECHNICAL gets 25 hours and no
    resource. *)
Lemma stored_gap_learning_time_witness :
  _estimate_learning_time
    {| sk_id := 1; sk_name := "Python"; sk_skill_type := "TECHNICAL" |} = 25%nat
  ∧ _get_learning_resources
      {| sk_id := 1; sk_name := "Python"; sk_skill_type := "TECHNICAL" |} = [].
Proof.
  destruct (stored_gap_learning_time
              {| sk_id := 1; sk_name := "Python"; sk_skill_type := "TECHNICAL" |}
              TECHNICAL eq_refl) as (Htime & Hresources & _).
  split; [exact Htime|exact Hresources].
Defined.

End VectorMatches.

(** ** The scores of the vector-space gap analysis *)

Section VectorGapScores.
Import Models TFIDF.

Lemma tfidf_weighted_fold (user_skills job_skills : gmap Z Q) (l : list Z) (a b : Q) :
  let r := fold_left (weighted_step user_skills job_skills) l (a, b) in
  r.1 == a + Py.sum (map (fun k => default 0 (user_skills !! k)
                                   * default 0 (job_skills !! k)) l)
  ∧ r.2 == b + Py.sum (map (fun k => default 0 (job_skills !! k)) l).
Proof.
  revert a b. induction l as [|k l IH]; intros a b; simpl.
  - split; ring.
  - destruct (IH (a + default 0 (user_skills !! k) * default 0 (job_skills !! k))
                 (b + default 0 (job_skills !! k))) as [H1 H2].
    cbv zeta in H1, H2. rewrite H1, H2. split; ring.
Qed.

(** The entries of a dict that a loop fills by assignment come from the
    rows of the loop. *)
Lemma assigned_from_row {A} (key : A → Z) (value : A → Q) (rows : list A)
    (d : gmap Z Q) (k : Z) (v : Q) :
  fold_left (fun d r => <[key r := value r]> d) rows d !! k = Some v →
  d !! k = Some v ∨ ∃ r, r ∈ rows ∧ key r = k ∧ value r = v.
Proof.
  revert d. induction rows as [|r rows IH]; intros d; simpl; [by left|].
  intros Hk. apply IH in Hk as [Hk|(r' & Hin & Hkey & Hval)].
  - destruct (decide (key r = k)) as [<-|Hne].
    + rewrite lookup_insert_eq in Hk. injection Hk as <-. right. exists r.
      split; [apply list_elem_of_here|done].
    + rewrite lookup_insert_ne in Hk by done. by left.
  - right. exists r'. split; [by apply list_elem_of_further|done].
Qed.

Lemma ratio_antitone (n a b : nat) :
  (0 < a)%nat → (a <= b)%nat → Py.ratio n b <= Py.ratio n a.
Proof.
  intros Ha Hab. unfold Py.ratio.
  assert (H0 : 0 <= inject_Z (Z.of_nat n)).
  { change 0 with (inject_Z 0). rewrite <- Zle_Qle. lia. }
  assert (Hpa : 0 < inject_Z (Z.of_nat a)) by (apply inject_nat_pos; lia).
  assert (Hpb : 0 < inject_Z (Z.of_nat b)) by (apply inject_nat_pos; lia).
  assert (Hle : inject_Z (Z.of_nat a) <= inject_Z (Z.of_nat b)).
  { rewrite <- Zle_Qle. lia. }
  apply Qle_shift_div_l; [exact Hpa|].
  unfold Qdiv. rewrite <- Qmult_assoc, (Qmult_comm (/ _)), Qmult_assoc.
  apply Qle_shift_div_r; [exact Hpb|].
  apply Qmult_le_compat_nonneg; split; try done; [apply Qle_refl|].
  by apply Qlt_le_weak.
Qed.

Lemma jaccard_le_coverage (user_ids job_ids : gset Z) :
  (if decide (user_ids ∪ job_ids = ∅) then 0
   else Py.ratio (length (elements (user_ids ∩ job_ids))) (size (user_ids ∪ job_ids)))
  <= (if decide (job_ids = ∅) then 0
      else Py.ratio (length (elements (user_ids ∩ job_ids))) (size job_ids)).
Proof.
  destruct (decide (job_ids = ∅)) as [->|Hjob].
  - assert (E : user_ids ∩ ∅ = (∅ : gset Z)) by set_solver.
    rewrite E, elements_empty. simpl.
    destruct (decide _); [apply Qle_refl|].
    unfold Py.ratio. simpl. unfold Qdiv. rewrite Qmult_0_l. apply Qle_refl.
  - rewrite decide_False by set_solver.
    apply ratio_antitone.
    + by apply set_size_pos.
    + apply subseteq_size. set_solver.
Qed.

(** X16.  [_compute_job_gap_analysis]: the jaccard score never exceeds the
    coverage and lies between 0 and 1; and when the stored proficiencies
    lie between 0 and 1 and no stored importance is negative, the weighted
    score lies between 0 and 1 too. *)
Theorem vector_gap_scores (user_skills : list UserSkill)
    (job_skills_v2 : list JobSkillV2) (user_id job_id : Z) :
  let r := _compute_job_gap_analysis user_skills job_skills_v2 user_id job_id in
  jaccard_score r <= coverage r
  ∧ 0 <= jaccard_score r <= 1
  ∧ ((∀ row, row ∈ user_skills → 0 <= uk_proficiency_level row <= 1) →
     (∀ row v, row ∈ job_skills_v2 → jk_importance row = Some v → 0 <= v) →
     0 <= weighted_score r <= 1).
Proof.
  intros r. subst r. unfold _compute_job_gap_analysis, gap_analysis_of. cbv zeta.
  set (us := user_skill_map (skills_of_user user_skills user_id)).
  set (js := job_skill_map (skills_of_job job_skills_v2 job_id)).
  pose proof (tfidf_weighted_fold us js (elements (dom js)) 0 0) as Hfold.
  cbv zeta in Hfold.
  destruct (fold_left _ _ _) as [weighted_score total_weight].
  simpl in Hfold. destruct Hfold as [Hscore Hweight].
  cbn [jaccard_score coverage TFIDF.weighted_score].
  split; [apply jaccard_le_coverage|].
  split.
  { destruct (decide (dom us ∪ dom js = ∅)) as [E|E]; [split; [apply Qle_refl|discriminate]|].
    split.
    - apply ratio_nonneg. by apply set_size_pos.
    - apply ratio_le_1; [by apply set_size_pos|].
      rewrite length_elements. apply subseteq_size. set_solver. }
  intros Huser Hjob.
  assert (Hus : ∀ k, 0 <= default 0 (us !! k) <= 1).
  { intros k. destruct (us !! k) as [v|] eqn:Hk; simpl; [|split; discriminate].
    apply (assigned_from_row uk_skill_id uk_proficiency_level) in Hk
      as [Hk|(row & Hin & _ & <-)]; [by rewrite lookup_empty in Hk|].
    apply Huser. apply list_elem_of_In, filter_In in Hin as [Hin _].
    by apply list_elem_of_In. }
  assert (Hjs : ∀ k, 0 <= default 0 (js !! k)).
  { intros k. destruct (js !! k) as [v|] eqn:Hk; simpl; [|discriminate].
    apply (assigned_from_row jk_skill_id (fun r => Py.float_or (jk_importance r) 1)) in Hk
      as [Hk|(row & Hin & _ & <-)]; [by rewrite lookup_empty in Hk|].
    apply Qlt_le_weak, float_or_pos. intros v' Hv'.
    apply (Hjob row); [|done].
    apply list_elem_of_In, filter_In in Hin as [Hin _]. by apply list_elem_of_In. }
  rewrite Qplus_0_l in Hscore, Hweight.
  destruct (Py.ltb 0 total_weight) eqn:Epos; [|split; [apply Qle_refl|discriminate]].
  apply ltb_spec in Epos.
  assert (H0 : 0 <= weighted_score).
  { rewrite Hscore. apply sum_map_nonneg. intros k.
    apply Qmult_le_0_compat; [apply Hus|apply Hjs]. }
  assert (Hle : weighted_score <= total_weight).
  { rewrite Hscore, Hweight. apply sum_map_le. intros k.
    destruct (Hus k) as [_ H1]. pose proof (Hjs k) as Hj.
    rewrite <- (Qmult_1_l (default 0 (js !! k))) at 2.
    apply Qmult_le_compat_r; done. }
  split.
  - apply Qle_shift_div_l; [exact Epos|]. by rewrite Qmult_0_l.
  - apply Qle_shift_div_r; [exact Epos|]. by rewrite Qmult_1_l.
Qed.

End VectorGapScores.

(** ** One user of the scheduler *)

Section SingleUser.
Import Models Session MatchScheduler.

Variable faults : Z → Faults.
Variable vocabulary_fails : Z → bool.
Variable tfidf_body : Z → nat → outcome (list TFIDF.Match).
Variable basic_body : Z → nat → outcome (list JobMatching.Match).
Variable skills : list SkillV2.

Lemma invalidate_run (user_id : Z) (s : Session) :
  _invalidate_old_matches faults user_id s
  = (Ok tt,
     if update_fails (faults user_id) || invalidate_delete_fails (faults user_id)
     then s
     else {| committed := committed s;
             pending := delete_user_rows user_id (pending s);
             next_id := next_id s |}).
Proof.
  unfold _invalidate_old_matches, try_except.
  destruct (update_fails (faults user_id)) eqn:Hupdate,
           (invalidate_delete_fails (faults user_id)) eqn:Hdelete;
    rewrite run_bind, ?Hupdate; simpl; rewrite ?run_bind, ?Hdelete; reflexivity.
Qed.

Lemma delete_user_rows_matches (user_id : Z) (t : Tables) :
  job_matches (delete_user_rows user_id t)
  = List.filter (fun m => negb (jm_user_id m =? user_id)%Z) (job_matches t).
Proof. reflexivity. Qed.

Lemma filter_twice {A} (p : A → bool) (l : list A) :
  List.filter p (List.filter p l) = List.filter p l.
Proof.
  induction l as [|x l IH]; simpl; [done|].
  destruct (p x) eqn:E; simpl; [by rewrite E, IH|done].
Qed.


(** The matches computed for a user, and whether their save goes
    through. *)
Definition found_count (algorithm : Algorithm) (limit : nat) (user_id : Z) : nat :=
  match algorithm with
  | tfidf => length (computed (tfidf_body user_id limit))
  | basic => length (computed (basic_body user_id limit))
  end.

Definition save_persists (algorithm : Algorithm) (limit : nat) (user_id : Z) : bool :=
  match algorithm with
  | tfidf => persistence_ok (faults user_id) (TFIDF.job_match_row user_id)
               (computed (tfidf_body user_id limit))
  | basic => persistence_ok (faults user_id) (JobMatching.job_match_row user_id)
               (computed (basic_body user_id limit))
  end.

Definition rows_written (algorithm : Algorithm) (limit : nat) (user_id : Z) (id : nat)
  : list JobMatch :=
  match algorithm with
  | tfidf => new_rows (TFIDF.job_match_row user_id)
               (computed (tfidf_body user_id limit)) id
  | basic => new_rows (JobMatching.job_match_row user_id)
               (computed (basic_body user_id limit)) id
  end.

Lemma saved_count_cases (algorithm : Algorithm) (limit : nat) (user_id : Z) :
  saved_count faults tfidf_body basic_body algorithm limit user_id
  = if save_persists algorithm limit user_id then found_count algorithm limit user_id else 0%nat.
Proof. by destruct algorithm. Qed.

Lemma recompute_user_matches_run (user_id : Z) (algorithm : Algorithm) (s : Session) :
  if user_raises faults vocabulary_fails tfidf_body basic_body algorithm 50 user_id
  then ∃ e, (recompute_user_matches faults vocabulary_fails tfidf_body basic_body skills
               user_id algorithm s).1 = Ok (UserFailed e)
  else (recompute_user_matches faults vocabulary_fails tfidf_body basic_body skills
          user_id algorithm s).1
       = Ok (Recomputed (found_count algorithm 50 user_id)
               (saved_count faults tfidf_body basic_body algorithm 50 user_id)).
Proof.
  unfold recompute_user_matches, try_except, user_raises, saved_count, found_count.
  rewrite run_bind, invalidate_run. cbv iota.
  match goal with
  | |- context [if ?b then s else ?s'] => generalize (if b then s else s')
  end.
  intros s1.
  destruct algorithm.
  - rewrite run_bind. unfold TFIDFJobMatcher, try_except.
    destruct (vocabulary_fails user_id); simpl; [by eexists|].
    rewrite run_bind, compute_matches_returns, run_bind, save_matches_shape.
    pose proof (save_outcome (faults user_id) (TFIDF.job_match_row user_id)
                  (TFIDF._create_skill_gaps (faults user_id) skills) user_id
                  (computed (tfidf_body user_id 50)) s1 (fun _ _ _ => eq_refl)
                  (create_skill_gaps_quiet _ _)) as Hsave.
    destruct (save_raises _ _ _).
    + destruct Hsave as [e He].
      destruct (save_with _ _ _ _ _ s1) as [[n|e'] s2]; simpl in *; [done|by eexists].
    + destruct (save_with _ _ _ _ _ s1) as [[n|e'] s2]; simpl in *; [|done].
      by injection Hsave as ->.
  - rewrite run_bind, match_user_to_jobs_returns, run_bind, save_job_matches_shape.
    pose proof (save_outcome (faults user_id) (JobMatching.job_match_row user_id)
                  (fun _ _ => mret tt) user_id
                  (computed (basic_body user_id 50)) s1 (fun _ _ _ => eq_refl)
                  no_extra_quiet) as Hsave.
    destruct (save_raises _ _ _).
    + destruct Hsave as [e He].
      destruct (save_with _ _ _ _ _ s1) as [[n|e'] s2]; simpl in *; [done|by eexists].
    + destruct (save_with _ _ _ _ _ s1) as [[n|e'] s2]; simpl in *; [|done].
      by injection Hsave as ->.
Qed.

(** X18.  [recompute_user_matches] never raises.  It answers with the error
    dict exactly when the matcher cannot be built or a failed save cannot
    be rolled back; otherwise ['matches_saved'] is ['matches_found'] when
    the save goes through and 0 when it does not, never a number in
    between. *)
Theorem single_user_recompute (user_id : Z) (algorithm : Algorithm) (s : Session) :
  let run := recompute_user_matches faults vocabulary_fails tfidf_body basic_body skills
               user_id algorithm s in
  (user_raises faults vocabulary_fails tfidf_body basic_body algorithm 50 user_id = true
   → ∃ e, run.1 = Ok (UserFailed e))
  ∧ (user_raises faults vocabulary_fails tfidf_body basic_body algorithm 50 user_id = false
     → ∃ matches_saved,
         run.1 = Ok (Recomputed (found_count algorithm 50 user_id) matches_saved)
         ∧ matches_saved
           = (if save_persists algorithm 50 user_id then found_count algorithm 50 user_id else 0%nat)).
Proof.
  intros run. subst run.
  pose proof (recompute_user_matches_run user_id algorithm s) as Hrun.
  split; intros Hraises; rewrite Hraises in Hrun; [exact Hrun|].
  eexists. split; [exact Hrun|apply saved_count_cases].
Qed.

(** ** The totals of a batch, and what a run leaves in the table *)

Lemma count_users_matches (algorithm : Algorithm) (limit : nat)
    (user_ids : list Z) (stats : Stats) :
  total_matches
    (fold_left (count_user faults vocabulary_fails tfidf_body basic_body algorithm limit)
               user_ids stats)
  = (total_matches stats
     + sum_list_with (saved_count faults tfidf_body basic_body algorithm limit)
         (List.filter
            (fun u => negb (user_raises faults vocabulary_fails tfidf_body basic_body
                              algorithm limit u))
            user_ids))%nat.
Proof.
  revert stats. induction user_ids as [|user_id user_ids IH]; intros stats.
  - simpl. lia.
  - cbn [fold_left List.filter]. rewrite IH. unfold count_user.
    destruct (user_raises _ _ _ _ algorithm limit user_id); simpl; lia.
Qed.

Lemma saved_le_found (algorithm : Algorithm) (limit : nat) (l : list Z) :
  (sum_list_with (saved_count faults tfidf_body basic_body algorithm limit) l
   <= sum_list_with (found_count algorithm limit) l)%nat.
Proof.
  induction l as [|u l IH]; simpl; [done|].
  rewrite saved_count_cases. destruct (save_persists algorithm limit u); lia.
Qed.

Lemma sum_list_with_pointwise {A} (f g : A → nat) (l : list A) :
  (∀ x, f x = g x) → sum_list_with f l = sum_list_with g l.
Proof. intros Hfg. induction l as [|x l IH]; simpl; [done|]. by rewrite Hfg, IH. Qed.

Lemma sum_filter_le {A} (f : A → nat) (p : A → bool) (l : list A) :
  (sum_list_with f (List.filter p l) <= sum_list_with f l)%nat.
Proof.
  induction l as [|x l IH]; simpl; [done|]. destruct (p x); simpl; lia.
Qed.

(** X19.  [recompute_all_matches]: ['total_matches'] is the sum of the counts
    that the saves of the processed users returned, each of them the
    number of matches found for the user or 0; a failed user adds
    nothing. *)
Theorem batch_total_is_sum_of_saved (user_ids : list Z) (limit : nat)
    (algorithm : Algorithm) (s : Session) :
  ∃ stats,
    (recompute_all_matches faults vocabulary_fails tfidf_body basic_body skills
       (Ok user_ids) limit algorithm s).1 = Ok (Completed stats)
    ∧ total_matches stats
      = sum_list_with
          (fun u => if save_persists algorithm limit u then found_count algorithm limit u else 0%nat)
          (List.filter
             (fun u => negb (user_raises faults vocabulary_fails tfidf_body basic_body
                               algorithm limit u))
             user_ids)
    ∧ (total_matches stats <= sum_list_with (found_count algorithm limit) user_ids)%nat.
Proof.
  unfold recompute_all_matches, try_except. rewrite run_bind. cbv iota beta.
  rewrite run_bind.
  match goal with
  | |- context [for_each _ user_ids ?stats0 s] =>
      destruct (process_users_counts faults vocabulary_fails tfidf_body basic_body skills
                  algorithm limit user_ids stats0 s) as [s' ->];
      pose proof (count_users_matches algorithm limit user_ids stats0) as Hsum
  end.
  simpl in Hsum. eexists. split; [reflexivity|]. rewrite Hsum. split.
  - apply sum_list_with_pointwise. intros u. apply saved_count_cases.
  - etransitivity; [apply saved_le_found|apply sum_filter_le].
Qed.

Lemma after_invalidation (user_id : Z) (s : Session) :
  let s1 := (_invalidate_old_matches faults user_id s).2 in
  committed s1 = committed s
  ∧ next_id s1 = next_id s
  ∧ job_matches (delete_user_rows user_id (pending s1))
    = List.filter (fun m => negb (jm_user_id m =? user_id)%Z) (job_matches (pending s)).
Proof.
  rewrite invalidate_run. simpl.
  destruct (_ || _); [done|]. simpl. by rewrite filter_twice.
Qed.

Lemma save_after_invalidation {A} (row : A → nat → JobMatch)
    (extra : nat → A → M unit) (user_id : Z) (matches : list A) (s : Session) :
  (∀ a id id', jm_job_id (row a id) = jm_job_id (row a id')) →
  adds_gaps_only extra →
  let run := save_with (faults user_id) row extra user_id matches
               (_invalidate_old_matches faults user_id s).2 in
  if persistence_ok (faults user_id) row matches then
    run.1 = Ok (length matches)
    ∧ job_matches (committed run.2)
      = (List.filter (fun m => negb (jm_user_id m =? user_id)%Z) (job_matches (pending s))
         ++ new_rows row matches (next_id s))%list
  else if rollback_fails (faults user_id) then
    ∃ e, run.1 = Raise e
  else
    run.1 = Ok 0%nat ∧ committed run.2 = committed s ∧ pending run.2 = committed s.
Proof.
  intros Hjob Hextra.
  destruct (after_invalidation user_id s) as (Hc & Hn & Hrows).
  pose proof (save_with_cases (faults user_id) row extra Hjob Hextra user_id matches
                (_invalidate_old_matches faults user_id s).2) as Hcases.
  cbv zeta in *.
  destruct (persistence_ok (faults user_id) row matches).
  - destruct Hcases as (Hret & _ & Hstored). by rewrite Hstored, Hrows, Hn.
  - destruct (rollback_fails (faults user_id)); [done|]. by rewrite <- Hc.
Qed.

(** X20.  The [try] block of the loop for one user whose matcher can be
    built: when the save goes through, the table holds the matches of
    everybody else as the transaction saw them, followed by the new
    matches of the user; when the save fails and is rolled back, the table
    is as it was committed before, with the old matches of the user, and
    the count is 0.  The result is the same whether or not the statements
    of [_invalidate_old_matches] succeed. *)
Theorem recompute_replaces_or_keeps (algorithm : Algorithm) (limit : nat)
    (user_id : Z) (s : Session) :
  vocabulary_fails user_id = false →
  let run := recompute_user faults vocabulary_fails tfidf_body basic_body skills
               algorithm limit user_id s in
  if save_persists algorithm limit user_id then
    run.1 = Ok (found_count algorithm limit user_id)
    ∧ job_matches (committed run.2)
      = (List.filter (fun m => negb (jm_user_id m =? user_id)%Z) (job_matches (pending s))
         ++ rows_written algorithm limit user_id (next_id s))%list
  else if rollback_fails (faults user_id) then
    ∃ e, run.1 = Raise e
  else
    run.1 = Ok 0%nat ∧ committed run.2 = committed s ∧ pending run.2 = committed s.
Proof.
  intros Hvocabulary. cbv zeta. unfold recompute_user. rewrite run_bind.
  destruct (_invalidate_old_matches faults user_id s) as [[[]|e] s1] eqn:Hinv;
    [|by rewrite invalidate_run in Hinv].
  assert (Hs1 : s1 = (_invalidate_old_matches faults user_id s).2) by (by rewrite Hinv).
  destruct algorithm; unfold save_persists, found_count, rows_written.
  - rewrite run_bind. unfold TFIDFJobMatcher, try_except. rewrite Hvocabulary. simpl.
    rewrite run_bind, compute_matches_returns, save_matches_shape, Hs1.
    apply save_after_invalidation; [done|apply create_skill_gaps_quiet].
  - rewrite run_bind, match_user_to_jobs_returns, save_job_matches_shape, Hs1.
    apply save_after_invalidation; [done|apply no_extra_quiet].
Qed.

End SingleUser.

Section SingleUserRun.
Import Models Session MatchScheduler.

(** A stored match of user 7 and a recompute whose commit fails. *)
Definition stale_session : Session :=
  let old :=
    {| jm_id := 1; jm_user_id := 7; jm_job_id := 10;
       jm_alignment_score := None; jm_similarity_score := Some 0.4;
       jm_jaccard_score := Some 0.2; jm_cosine_score := Some 0.4;
       jm_weighted_score := Some 0.5; jm_skill_coverage := Some 0.5;
       jm_algorithm_version := "tfidf_v1";
       jm_missing_skills := Some [JInt 2]; jm_matched_skills := None;
       jm_matching_skills := Some [JInt 1] |} in
  {| committed := {| job_matches := [old]; skill_gaps := [] |};
     pending := {| job_matches := [old]; skill_gaps := [] |};
     next_id := 2 |}.

Definition commit_raises : Faults :=
  {| update_fails := false; invalidate_delete_fails := false;
     delete_fails := false; flush_fails := fun _ => false;
     skill_query_fails := fun _ => false;
     commit_fails := true; rollback_fails := false |}.

(** A run of X20: the commit raises, the save is rolled back and the old
    match of user 7 is still committed. *)
Lemma recompute_replaces_or_keeps_witness :
  let run := recompute_user (fun _ => commit_raises) (fun _ => false)
               (fun _ _ => Ok []) (fun _ _ => Ok []) catalogue tfidf 50 7 stale_session in
  run.1 = Ok 0%nat
  ∧ committed run.2 = committed stale_session
  ∧ pending run.2 = committed stale_session.
Proof.
  exact (recompute_replaces_or_keeps (fun _ => commit_raises) (fun _ => false)
           (fun _ _ => Ok []) (fun _ _ => Ok []) catalogue tfidf 50 7 stale_session
           eq_refl).
Defined.

End SingleUserRun.

(** ** The alignment of a user with every industry *)

Section CurrentAlignment.
Import Models SkillAlignment SkillFilters.

Lemma alignment_in_unit_interval (user_skills : gmap string UserSkillInfo)
    (industry_skills : gmap string IndustrySkillInfo) :
  _calculate_industry_alignment user_skills industry_skills <= 1
  ∧ (user_weights_nonneg user_skills → importances_nonneg industry_skills →
     0 <= _calculate_industry_alignment user_skills industry_skills).
Proof.
  rewrite (calculate_industry_alignment_closed user_skills industry_skills).
  unfold alignment_formula. cbv zeta. split; [apply Q.le_min_l|].
  intros Hu Hi. apply Q.min_glb; [discriminate|].
  apply Qmult_le_0_compat; [|apply few_matches_factor_nonneg].
  destruct (Py.ltb 0 (alignment_denominator industry_skills)) eqn:E; [|apply Qle_refl].
  apply ltb_spec in E. apply Qle_shift_div_l; [exact E|].
  rewrite Qmult_0_l. by apply alignment_numerator_nonneg.
Qed.

(** *** The dict of the user's skills *)

Lemma current_skill_from_row (rows : list UserSkillEmsi)
    (skills : gmap string UserSkillInfo) (k : string) (u : UserSkillInfo) :
  fold_left
    (fun skills row =>
       <[us_emsi_skill_id row :=
           {| u_name := us_skill_name row;
              proficiency := us_proficiency_level row;
              confidence := us_confidence row |}]> skills)
    rows skills !! k = Some u →
  skills !! k = Some u
  ∨ ∃ row, row ∈ rows ∧ us_emsi_skill_id row = k
           ∧ u_name u = us_skill_name row
           ∧ proficiency u = us_proficiency_level row
           ∧ confidence u = us_confidence row.
Proof.
  revert skills. induction rows as [|row rows IH]; intros skills; simpl; [by left|].
  intros Hk. apply IH in Hk as [Hk|(row' & Hin & Hrest)].
  - destruct (decide (us_emsi_skill_id row = k)) as [<-|Hne].
    + rewrite lookup_insert_eq in Hk. injection Hk as <-. right. exists row.
      split; [apply list_elem_of_here|done].
    + rewrite lookup_insert_ne in Hk by done. by left.
  - right. exists row'. split; [by apply list_elem_of_further|done].
Qed.

Lemma current_skills_nonneg (rows : list UserSkillEmsi) :
  (∀ row, row ∈ rows → 0 <= us_proficiency_level row ∧ 0 <= us_confidence row) →
  user_weights_nonneg (_get_current_user_skills rows).
Proof.
  intros Hrows k u Hk.
  apply current_skill_from_row in Hk as [Hk|(row & Hin & _ & _ & -> & ->)];
    [by rewrite lookup_empty in Hk|].
  by apply Hrows.
Qed.

Lemma current_skills_empty (rows : list UserSkillEmsi) :
  _get_current_user_skills rows = ∅ ↔ rows = [].
Proof.
  split; [|by intros ->].
  destruct rows as [|row rows] using rev_ind; [done|]. intros Hempty. exfalso.
  unfold _get_current_user_skills in Hempty. rewrite fold_left_app in Hempty.
  simpl in Hempty. by apply insert_non_empty in Hempty.
Qed.

(** *** The requirements of the industries *)

Lemma dict_update_keys {V} (k : string) (f : option V → V) (d : list (string * V)) :
  map fst (Py.dict_update k f d)
  = if bool_decide (k ∈ map fst d) then map fst d else (map fst d ++ [k])%list.
Proof.
  induction d as [|[k' v] d IH]; simpl; [done|].
  destruct (String.eqb k' k) eqn:E; simpl.
  - apply String.eqb_eq in E as ->. rewrite bool_decide_true; [done|left].
  - apply String.eqb_neq in E. rewrite IH.
    destruct (bool_decide (k ∈ map fst d)) eqn:Ek.
    + apply bool_decide_eq_true in Ek. rewrite bool_decide_true; [done|by right].
    + apply bool_decide_eq_false in Ek. rewrite bool_decide_false; [done|].
      intros Hin. apply elem_of_cons in Hin as [->|Hin]; done.
Qed.

Lemma dict_update_lookup {V} (k : string) (f : option V → V) (d : list (string * V))
    (k' : string) (v : V) :
  (k', v) ∈ Py.dict_update k f d →
  (k', v) ∈ d ∨ (k' = k ∧ ∃ old, v = f old ∧ (∀ v0, old = Some v0 → (k, v0) ∈ d)).
Proof.
  induction d as [|[k0 v0] d IH]; simpl.
  - intros Hin. apply list_elem_of_singleton in Hin. injection Hin as -> ->. right.
    split; [done|]. exists None. split; [done|]. intros ? [=].
  - destruct (String.eqb k0 k) eqn:E.
    + apply String.eqb_eq in E as ->. intros Hin.
      apply elem_of_cons in Hin as [[= -> ->]|Hin]; [|left; by right].
      right. split; [done|]. exists (Some v0). split; [done|].
      intros ? [= <-]. left.
    + intros Hin. apply elem_of_cons in Hin as [[= -> ->]|Hin]; [left; left|].
      apply IH in Hin as [Hin|(-> & old & -> & Hold)]; [left; by right|].
      right. split; [done|]. exists old. split; [done|].
      intros v1 Hv1. right. by apply Hold.
Qed.

Lemma requirements_keys (rows : list IndustryRow)
    (industries : list (string * gmap string IndustrySkillInfo)) :
  NoDup (map fst industries) →
  NoDup (map fst (fold_left industry_step rows industries))
  ∧ ∀ industry,
      industry ∈ map fst (fold_left industry_step rows industries)
      ↔ industry ∈ map fst industries ∨ industry ∈ map ir_industry rows.
Proof.
  revert industries. induction rows as [|row rows IH]; intros industries Hnodup; simpl.
  - split; [done|]. intros industry. split; [by left|].
    intros [?|Hin]; [done|by apply elem_of_nil in Hin].
  - assert (Hstep : NoDup (map fst (industry_step industries row))
                    ∧ ∀ industry, industry ∈ map fst (industry_step industries row)
                                  ↔ industry ∈ map fst industries
                                    ∨ industry = ir_industry row).
    { unfold industry_step. rewrite dict_update_keys.
      destruct (bool_decide _) eqn:E.
      - apply bool_decide_eq_true in E. split; [done|]. intros industry.
        split; [by left|]. intros [?| ->]; done.
      - apply bool_decide_eq_false in E. split.
        + apply NoDup_app. split; [done|]. split; [|apply NoDup_singleton].
          intros x Hx ->%list_elem_of_singleton. done.
        + intros industry. rewrite elem_of_app, list_elem_of_singleton. done. }
    destruct Hstep as [Hnodup' Hkeys].
    destruct (IH _ Hnodup') as [Hfinal Hiff]. split; [done|].
    intros industry. rewrite Hiff, Hkeys, elem_of_cons. tauto.
Qed.

Lemma requirements_importances (rows : list IndustryRow)
    (industries : list (string * gmap string IndustrySkillInfo)) :
  (∀ row v, row ∈ rows → ir_avg_importance row = Some v → 0 <= v) →
  (∀ industry skills, (industry, skills) ∈ industries → importances_nonneg skills) →
  ∀ industry skills,
    (industry, skills) ∈ fold_left industry_step rows industries →
    importances_nonneg skills.
Proof.
  revert industries. induction rows as [|row rows IH]; intros industries Hrows Hold;
    simpl; [done|].
  apply IH.
  - intros row' v Hin. apply Hrows. by right.
  - intros industry skills Hin. unfold industry_step in Hin.
    apply dict_update_lookup in Hin as [Hin|(-> & old & -> & Hfrom)];
      [by apply (Hold industry)|].
    intros k info Hk.
    destruct (decide (ir_emsi_skill_id row = k)) as [<-|Hne].
    + rewrite lookup_insert_eq in Hk. injection Hk as <-. simpl.
      apply Qlt_le_weak, float_or_pos. intros v. apply Hrows. left.
    + rewrite lookup_insert_ne in Hk by done.
      destruct old as [skills0|]; simpl in Hk; [|by rewrite lookup_empty in Hk].
      by apply (Hold _ _ (Hfrom _ eq_refl) k).
Qed.

(** *** The snapshot *)

Lemma skill_types_counted (values : list UserSkillInfo) (technical soft : nat) :
  let '(technical_count, soft_count) :=
    fold_left skill_type_step values (technical, soft) in
  (technical_count + soft_count = technical + soft + length values)%nat
  ∧ technical_count
    = (technical
       + length (List.filter (fun u => is_technical_skill (u_name u)) values))%nat.
Proof.
  revert technical soft. induction values as [|u values IH]; intros technical soft.
  - simpl. lia.
  - cbn [fold_left List.filter].
    destruct (is_technical_skill (u_name u)) eqn:E.
    + replace (skill_type_step (technical, soft) u) with (S technical, soft)
        by (unfold skill_type_step; by rewrite E).
      specialize (IH (S technical) soft). destruct (fold_left _ _ _). simpl. lia.
    + replace (skill_type_step (technical, soft) u) with (technical, S soft)
        by (unfold skill_type_step; by rewrite E).
      specialize (IH technical (S soft)). destruct (fold_left _ _ _). simpl. lia.
Qed.

Lemma top_alignments_spec (alignments : list (string * Q)) :
  let top := take 5 (Py.sort_reverse Py.ltb snd alignments) in
  length top = Nat.min 5 (length alignments)
  ∧ StronglySorted (fun a b => b.2 <= a.2) top
  ∧ ∃ rest, alignments ≡ₚ (top ++ rest)%list
            ∧ ∀ a b, a ∈ top → b ∈ rest → b.2 <= a.2.
Proof.
  intros top. subst top.
  pose proof (sort_reverse_sorted Py.ltb snd float_ltb_asym float_geb_trans alignments)
    as Hsorted.
  pose proof (sort_reverse_perm Py.ltb snd alignments) as Hperm.
  split; [by rewrite length_take, Hperm|].
  split; [by apply descending_scores, take_sorted|].
  exists (drop 5 (Py.sort_reverse Py.ltb snd alignments)).
  rewrite take_drop. split; [done|].
  intros a b Ha Hb. rewrite <- (take_drop 5) in Hsorted.
  apply ltb_false.
  apply (StronglySorted_app_1_elem_of _ _ _ a b Hsorted Ha Hb).
Qed.

(** X21.  [calculate_current_alignment]: a user without skill rows gets no
    score, no stored row and no snapshot.  Otherwise every industry of the
    requirement rows gets one score, one stored row and no other does; a
    score is at most 1, and not negative when no proficiency, confidence or
    average importance is; the snapshot counts every current skill as
    technical or soft, and its top alignments are at most five of the
    scores, in descending order, none smaller than a score left out. *)
Theorem current_alignment_shape (user_rows : list UserSkillEmsi)
    (industry_rows : list IndustryRow) (user_id : Z) :
  let result := calculate_current_alignment user_rows industry_rows user_id in
  (user_rows = [] →
   ca_alignments result = [] ∧ ca_stored result = [] ∧ ca_snapshot result = None)
  ∧ NoDup (map fst (ca_alignments result))
  ∧ (user_rows ≠ [] →
     (∀ industry, industry ∈ map fst (ca_alignments result)
                  ↔ industry ∈ map ir_industry industry_rows)
     ∧ map ua_industry_category (ca_stored result) = map fst (ca_alignments result)
     ∧ map ua_alignment_score (ca_stored result) = map snd (ca_alignments result))
  ∧ (∀ industry score, (industry, score) ∈ ca_alignments result →
       score <= 1
       ∧ ((∀ row, row ∈ user_rows →
             0 <= us_proficiency_level row ∧ 0 <= us_confidence row) →
          (∀ row v, row ∈ industry_rows → ir_avg_importance row = Some v → 0 <= v) →
          0 <= score))
  ∧ (∀ snapshot, ca_snapshot result = Some snapshot →
       sn_total_skills snapshot = size (_get_current_user_skills user_rows)
       ∧ (sn_technical_skills snapshot + sn_soft_skills snapshot
          = sn_total_skills snapshot)%nat
       ∧ length (sn_top_industry_alignments snapshot)
         = Nat.min 5 (length (ca_alignments result))
       ∧ StronglySorted (fun a b => b.2 <= a.2) (sn_top_industry_alignments snapshot)
       ∧ ∃ rest,
           ca_alignments result ≡ₚ (sn_top_industry_alignments snapshot ++ rest)%list
           ∧ ∀ a b, a ∈ sn_top_industry_alignments snapshot → b ∈ rest → b.2 <= a.2).
Proof.
  intros result. subst result. unfold calculate_current_alignment. cbv zeta.
  destruct (decide (_get_current_user_skills user_rows = ∅)) as [Hempty|Hskills].
  { simpl. split; [done|]. split; [constructor|].
    split; [by intros Hrows; apply current_skills_empty in Hempty|].
    split; [by intros ? ? ?%elem_of_nil|done]. }
  cbn [ca_alignments ca_stored ca_snapshot].
  destruct (requirements_keys industry_rows [] (NoDup_nil_2 (A:=string))) as [Hnodup Hkeys].
  change (fold_left industry_step industry_rows [])
    with (_get_industry_requirements industry_rows) in Hnodup, Hkeys.
  set (requirements := _get_industry_requirements industry_rows) in *.
  set (current := _get_current_user_skills user_rows) in *.
  assert (Hfst : map fst
                   (map fst
                      (map (fun '(industry, industry_skills) =>
                              (industry,
                               _calculate_industry_alignment current industry_skills,
                               industry_skills)) requirements))
                 = map fst requirements).
  { rewrite !map_map. apply map_ext. by intros [industry industry_skills]. }
  split.
  { intros ->. by destruct Hskills. }
  split; [by rewrite Hfst|].
  split.
  { intros _. split.
    - intros industry. rewrite Hfst, Hkeys. split; [|by right].
      intros [Hin|?]; [by apply elem_of_nil in Hin|done].
    - rewrite !map_map. split; apply map_ext; by intros [industry industry_skills]. }
  split.
  { intros industry score Hin.
    rewrite map_map in Hin. apply list_elem_of_In, in_map_iff in Hin
      as ([industry' industry_skills] & [= <- <-] & Hin).
    destruct (alignment_in_unit_interval current industry_skills) as [Hle Hge].
    split; [exact Hle|]. intros Huser Hindustry. apply Hge.
    - by apply current_skills_nonneg.
    - apply (requirements_importances industry_rows [] Hindustry
               (fun _ _ Hnil => False_ind _ (proj1 (elem_of_nil _) Hnil))
               industry'). by apply list_elem_of_In. }
  intros snapshot [= <-]. unfold _create_alignment_snapshot. cbv zeta.
  fold current.
  pose proof (skill_types_counted (snd <$> map_to_list current) 0 0) as Hcount.
  destruct (fold_left skill_type_step _ _) as [technical_count soft_count].
  destruct Hcount as [Hcount _].
  rewrite length_fmap, length_map_to_list in Hcount.
  cbn [sn_total_skills sn_technical_skills sn_soft_skills sn_top_industry_alignments].
  split; [done|]. split; [by rewrite Hcount|].
  apply top_alignments_spec.
Qed.

(** X22.  [_store_alignment]: the matched and the missing ids split the ids of
    the industry, the stored counts are their numbers, and the coverage is
    the share of the matched ones, 0 for an industry without skills. *)
Theorem stored_alignment_counts (user_id : Z) (industry : string) (alignment_score : Q)
    (user_skills : gmap string UserSkillInfo)
    (industry_skills : gmap string IndustrySkillInfo) :
  let record :=
    _store_alignment user_id industry alignment_score user_skills industry_skills in
  gap_lists_ok (dom industry_skills)
    (ua_matched_skill_ids record) (ua_missing_skill_ids record)
    (ua_skill_coverage record) (ua_total_industry_skills record)
    (ua_matched_skills record) (length (ua_missing_skill_ids record))
  ∧ ua_alignment_score record = alignment_score
  ∧ ua_skill_count_at_calculation record = size user_skills.
Proof.
  intros record. subst record. unfold _store_alignment. cbv zeta.
  cbn [ua_matched_skill_ids ua_missing_skill_ids ua_skill_coverage
       ua_total_industry_skills ua_matched_skills ua_alignment_score
       ua_skill_count_at_calculation].
  split; [apply gap_lists_ok_sets|done].
Qed.

End CurrentAlignment.

(** ** The endpoint that computes the matches *)

Section ComputeEndpoint.
Import Models Session MatchScheduler MatchingRouter.

Variable faults : Z → Faults.
Variable vocabulary_fails : Z → bool.
Variable tfidf_body : Z → nat → outcome (list TFIDF.Match).
Variable basic_body : Z → nat → outcome (list JobMatching.Match).
Variable skills : list SkillV2.
Variable tfidf_response_ok : TFIDF.Match → bool.
Variable basic_response_ok : JobMatching.Match → bool.

Lemma answer_with_run {A} (save : list A → M nat) (response_ok : A → bool)
    (save_results : bool) (matches : list A) (s : Session) :
  answer_with save response_ok save_results matches s
  = match matches with
    | [] => (Ok (Success NoMatchesFound), s)
    | _ =>
        match (if save_results then save matches else ret 0%nat) s with
        | (Ok saved_count, s') =>
            if forallb response_ok matches
            then (Ok (Success (MatchesFound (length matches) saved_count)), s')
            else (Raise "ValidationError", s')
        | (Raise e, s') => (Raise e, s')
        end
    end.
Proof.
  unfold answer_with. destruct matches as [|m matches]; [done|].
  rewrite run_bind.
  destruct ((if save_results then save (m :: matches) else ret 0%nat) s)
    as [[n|e] s']; [|done].
  by destruct (forallb response_ok (m :: matches)).
Qed.

(** The session and the count that the save of the chosen matcher
    leaves, and whether the response model accepts every match. *)
Definition after_save (algorithm : Algorithm) (limit : nat) (user_id : Z) (s : Session)
  : outcome nat * Session :=
  match algorithm with
  | tfidf => TFIDF.save_matches (faults user_id) skills user_id
               (computed (tfidf_body user_id limit)) s
  | basic => JobMatching.save_job_matches (faults user_id) user_id
               (computed (basic_body user_id limit)) s
  end.

Definition response_accepted (algorithm : Algorithm) (limit : nat) (user_id : Z) : bool :=
  match algorithm with
  | tfidf => forallb tfidf_response_ok (computed (tfidf_body user_id limit))
  | basic => forallb basic_response_ok (computed (basic_body user_id limit))
  end.

(** What the endpoint answers once the user is known and the matcher is
    built. *)
Definition endpoint_answer (algorithm : Algorithm) (limit : nat) (user_id : Z)
    (save_results : bool) (s : Session) : outcome (Response ComputeAnswer) * Session :=
  if (found_count tfidf_body basic_body algorithm limit user_id =? 0)%nat
  then (Ok (Success NoMatchesFound), s)
  else
    let saved := if save_results then after_save algorithm limit user_id s
                 else (Ok 0%nat, s) in
    match saved.1 with
    | Ok saved_count =>
        if response_accepted algorithm limit user_id
        then (Ok (Success (MatchesFound
                             (found_count tfidf_body basic_body algorithm limit user_id)
                             saved_count)), saved.2)
        else (Ok (HTTPException 500 "Failed to compute job matches"), saved.2)
    | Raise _ => (Ok (HTTPException 500 "Failed to compute job matches"), saved.2)
    end.

Lemma known_user (users : list Z) (user_id : Z) :
  existsb (Z.eqb user_id) users = true ↔ user_id ∈ users.
Proof.
  rewrite existsb_exists. split.
  - intros (u & Hu & ->%Z.eqb_eq). by apply list_elem_of_In.
  - intros Hin. exists user_id. split; [by apply list_elem_of_In|apply Z.eqb_refl].
Qed.

Lemma compute_endpoint_run (users : list Z) (user_id : Z) (limit : nat)
    (save_results : bool) (algorithm : Algorithm) (s : Session) :
  user_id ∈ users →
  vocabulary_fails user_id = false →
  compute_job_matches faults vocabulary_fails tfidf_body basic_body skills
    tfidf_response_ok basic_response_ok users user_id limit save_results algorithm s
  = endpoint_answer algorithm limit user_id save_results s.
Proof.
  intros Hin Hvocabulary. apply known_user in Hin.
  unfold compute_job_matches, endpoint_answer, found_count, after_save,
    response_accepted, try_except.
  rewrite Hin. cbn [negb]. destruct algorithm.
  - rewrite run_bind. unfold TFIDFJobMatcher, try_except. rewrite Hvocabulary.
    cbn [ret raise]. rewrite run_bind, compute_matches_returns, answer_with_run.
    destruct (computed (tfidf_body user_id limit)) as [|m matches]; [done|].
    cbn [length Nat.eqb]. destruct save_results.
    + destruct (TFIDF.save_matches _ _ _ _ s) as [[n|e] s']; [|done].
      cbn [fst snd]. by destruct (forallb _ _).
    + cbn [fst snd]. by destruct (forallb _ _).
  - rewrite run_bind, match_user_to_jobs_returns, answer_with_run.
    destruct (computed (basic_body user_id limit)) as [|m matches]; [done|].
    cbn [length Nat.eqb]. destruct save_results.
    + destruct (JobMatching.save_job_matches _ _ _ s) as [[n|e] s']; [|done].
      cbn [fst snd]. by destruct (forallb _ _).
    + cbn [fst snd]. by destruct (forallb _ _).
Qed.

(** X23.  [compute_job_matches] of the router, for a known user whose
    matcher can be built.  When no match is found the answer is the early
    "No matches found" and the session is left as it is: the matches
    stored for the user before are not deleted, whether or not saving was
    asked for.  When matches are found and saving is asked for, the
    session is the one the save leaves, also when the answer is the error
    500 because the response model rejects a match; the answer carries the
    number of matches found and the count the save returned. *)
Theorem compute_endpoint_keeps_or_saves (users : list Z) (user_id : Z) (limit : nat)
    (save_results : bool) (algorithm : Algorithm) (s : Session) :
  user_id ∈ users →
  vocabulary_fails user_id = false →
  let run := compute_job_matches faults vocabulary_fails tfidf_body basic_body skills
               tfidf_response_ok basic_response_ok users user_id limit save_results
               algorithm s in
  let found := found_count tfidf_body basic_body algorithm limit user_id in
  (∃ response, run.1 = Ok response)
  ∧ (found = 0%nat → run = (Ok (Success NoMatchesFound), s))
  ∧ (found ≠ 0%nat → save_results = false →
     run.2 = s
     ∧ run.1 = Ok (if response_accepted algorithm limit user_id
                   then Success (MatchesFound found 0)
                   else HTTPException 500 "Failed to compute job matches"))
  ∧ (found ≠ 0%nat → save_results = true →
     run.2 = (after_save algorithm limit user_id s).2
     ∧ ∀ saved_count,
         (after_save algorithm limit user_id s).1 = Ok saved_count →
         run.1 = Ok (if response_accepted algorithm limit user_id
                     then Success (MatchesFound found saved_count)
                     else HTTPException 500 "Failed to compute job matches")).
Proof.
  intros Hin Hvocabulary run found. subst run found.
  rewrite (compute_endpoint_run users user_id limit save_results algorithm s
             Hin Hvocabulary).
  unfold endpoint_answer.
  destruct (found_count tfidf_body basic_body algorithm limit user_id) as [|n] eqn:Efound.
  { cbn [Nat.eqb]. split; [by eexists|]. split; [done|]. split; intros; done. }
  cbn [Nat.eqb]. split.
  { destruct save_results; cbn [fst snd].
    - destruct (after_save algorithm limit user_id s) as [[k|e] s']; cbn [fst snd];
        [destruct (response_accepted _ _ _)|]; by eexists.
    - destruct (response_accepted _ _ _); by eexists. }
  split; [done|]. split.
  - intros _ ->. cbn [fst snd]. by destruct (response_accepted _ _ _).
  - intros _ ->. cbv zeta.
    destruct (after_save algorithm limit user_id s) as [[k|e] s'] eqn:Esave; cbn [fst snd].
    + destruct (response_accepted _ _ _); split; try done; by intros ? [= <-].
    + split; [done|]. intros ? [=].
Qed.

End ComputeEndpoint.

Section ComputeEndpointRun.
Import Models Session MatchScheduler MatchingRouter.

(** A run of X23: user 7 has a stored match and the matcher finds
    nothing; the answer is "No matches found" and the match stays. *)
Lemma compute_endpoint_keeps_or_saves_witness :
  compute_job_matches (fun _ => no_faults) (fun _ => false)
    (fun _ _ => Ok []) (fun _ _ => Ok []) catalogue (fun _ => true) (fun _ => true)
    [7%Z] 7 100 true basic stale_session
  = (Ok (Success NoMatchesFound), stale_session).
Proof.
  destruct (compute_endpoint_keeps_or_saves (fun _ => no_faults) (fun _ => false)
              (fun _ _ => Ok []) (fun _ _ => Ok []) catalogue (fun _ => true)
              (fun _ => true) [7%Z] 7 100 true basic stale_session)
    as (_ & Hnone & _).
  - apply list_elem_of_here.
  - reflexivity.
  - apply Hnone. reflexivity.
Defined.

End ComputeEndpointRun.

(** ** Normalized names are in lower case *)

Section LowerCaseNames.
Import Models PyStr SkillFilters JobMatching.

Lemma lower_app (a b : string) : lower (a ++ b) = lower a ++ lower b.
Proof. induction a as [|c a IH]; simpl; [done|]. by rewrite IH. Qed.

Lemma lower_replace_from (skip : nat) (old new s : string) :
  lower new = new → lower s = s →
  lower (replace_from skip old new s) = replace_from skip old new s.
Proof.
  intros Hnew. revert skip. induction s as [|c s IH]; intros skip Hs; [done|].
  simpl in Hs. injection Hs as Hc Hs.
  cbn [replace_from]. destruct skip as [|k]; [|by apply IH].
  destruct (startswith old (String c s)).
  - rewrite lower_app, Hnew. by rewrite IH.
  - cbn [lower]. by rewrite Hc, IH.
Qed.

Lemma lower_replace (old new s : string) :
  lower new = new → lower s = s → lower (replace old new s) = replace old new s.
Proof.
  intros Hnew Hs. unfold replace. destruct old; [done|].
  by apply lower_replace_from.
Qed.

Lemma substitutions_lower : Forall (fun p => lower p.2 = p.2) substitutions.
Proof. repeat constructor. Qed.

Lemma lower_substituted (table : list (string * string)) (s : string) :
  Forall (fun p => lower p.2 = p.2) table →
  lower s = s →
  lower (fold_left apply_substitution table s) = fold_left apply_substitution table s.
Proof.
  intros Htable. revert s. induction Htable as [|[original replacement] table Hp _ IH];
    intros s Hs; [done|].
  simpl. apply IH. destruct (contains original s); [|done].
  by apply lower_replace.
Qed.

Lemma normalized_lower (skill_name : string) :
  lower (normalize_skill_name skill_name) = normalize_skill_name skill_name.
Proof.
  unfold normalize_skill_name. apply lower_substituted; [apply substitutions_lower|].
  by rewrite <- strip_lower, lower_idem.
Qed.

(** X24.  [normalize_skill_name] returns a name without upper-case letters,
    so the keys of the dicts of [_get_user_skills] and of
    [_get_jobs_with_skills], which are compared with each other, are all in
    lower case. *)
Theorem normalized_names_are_lower_case :
  (∀ skill_name, lower (normalize_skill_name skill_name) = normalize_skill_name skill_name)
  ∧ (∀ rows k, is_Some (_get_user_skills rows !! k) → lower k = k)
  ∧ (∀ job_skills k, is_Some (job_filtered_skills job_skills !! k) → lower k = k).
Proof.
  split; [apply normalized_lower|]. split.
  - intros rows k [v Hk].
    apply (retained_weight_of_row
             (fun r => is_valid_skill (us_skill_name r))
             (fun r => normalize_skill_name (us_skill_name r))
             user_row_weight) in Hk as (row & _ & _ & <- & _).
    apply normalized_lower.
  - intros job_skills k [v Hk].
    apply (retained_weight_of_row
             (fun r => is_valid_skill (js_skill_name r))
             (fun r => normalize_skill_name (js_skill_name r))
             job_row_weight) in Hk as (skill & _ & _ & <- & _).
    apply normalized_lower.
Qed.

End LowerCaseNames.

(** ** The scores of a match, from the rows *)

Section MatchScores.
Import Models JobMatching SkillFilters.






End MatchScores.
